(** * A shallow embedding of the go-zmodem protocol engine

    The development follows the Go sources file by file:

    - protocol constants (the frame-type and ZDLE tables),
    - [buildEscapeTable], [escapeRequired], [escapeByte] (escape codec),
    - [transportWriter] (writer.go) and [transportReader] (reader.go),
    - [Header] with its accessors and the hex/binary header codec,
    - [sendSubpacket] / [recvSubpacket] (subpacket.go),
    - [parseFileInfo], [marshalFileInfo], [Config.defaults], [NewSession],
    - the loop frames of [runSender] and [receiveDataSubpackets],
    - [sendZRINIT], [processZRINIT], [recvHeaderRetry], [computeFileCRC].

    Conventions.  A Go [byte] is a [Z] in [0, 256); conversions [byte(x)]
    are written [u8 x].  Go [int]/[int64] counters are unbounded [Z] (none of
    the modelled counters can wrap before 2^63 steps).  A transport is the
    finite sequence of octets it will still deliver; once it is exhausted the
    next read fails (io.EOF, or a deadline expiry on a real connection).
    Writes to the buffered writer always succeed and are recorded in order.
    Loops that consume input are driven by a fuel argument which the
    top-level functions instantiate with the length of the pending input. *)

From Stdlib Require Import String ZArith List Bool Lia.
Import ListNotations.
Open Scope Z_scope.

(** ** Bytes *)

Definition is_byte (b : Z) : Prop := 0 <= b < 256.
Definition u8 (x : Z) : Z := x mod 256.
Definition u16 (x : Z) : Z := x mod 65536.
Definition u32 (x : Z) : Z := x mod 4294967296.

(** ** Protocol constants *)

Definition ZPAD : Z := 0x2a.
Definition ZDLE : Z := 0x18.
Definition ZDLEE : Z := 0x58.
Definition ZBIN : Z := 0x41.
Definition ZHEX : Z := 0x42.
Definition ZBIN32 : Z := 0x43.
Definition ZBINR32 : Z := 0x44.
Definition ZVBIN : Z := 0x61.
Definition ZVHEX : Z := 0x62.
Definition ZVBIN32 : Z := 0x63.
Definition ZVBINR32 : Z := 0x64.

Definition ZRQINIT : Z := 0x00.
Definition ZRINIT : Z := 0x01.
Definition ZSINIT : Z := 0x02.
Definition ZACK : Z := 0x03.
Definition ZFILE : Z := 0x04.
Definition ZSKIP : Z := 0x05.
Definition ZNAK : Z := 0x06.
Definition ZABORT : Z := 0x07.
Definition ZFIN : Z := 0x08.
Definition ZRPOS : Z := 0x09.
Definition ZDATA : Z := 0x0a.
Definition ZEOF : Z := 0x0b.
Definition ZFERR : Z := 0x0c.
Definition ZCRC : Z := 0x0d.
Definition ZCHALLENGE : Z := 0x0e.
Definition ZCOMPL : Z := 0x0f.
Definition ZCAN : Z := 0x10.
Definition ZFREECNT : Z := 0x11.
Definition ZCOMMAND : Z := 0x12.
Definition ZSTDERR : Z := 0x13.

Definition ZCRCE : Z := 0x68.
Definition ZCRCG : Z := 0x69.
Definition ZCRCQ : Z := 0x6a.
Definition ZCRCW : Z := 0x6b.
Definition ZRUB0 : Z := 0x6c.
Definition ZRUB1 : Z := 0x6d.

Definition CANFDX : Z := 0x01.
Definition CANOVIO : Z := 0x02.
Definition CANFC32 : Z := 0x20.
Definition ESCCTL : Z := 0x40.
Definition ZCBIN : Z := 1.
Definition TESCCTL : Z := 0x40.

Definition XON : Z := 0x11.
Definition XOFF : Z := 0x13.
Definition CAN : Z := 0x18.

Inductive EscapeMode := EscapeStandard | EscapeAll | EscapeMinimal.

(** ** Errors and results *)

(** One constructor per kind of Go error value.  [ErrRead] stands for
    whatever [bufio.Reader.ReadByte] returns when the transport delivers
    nothing more; [ErrMsg] is a [fmt.Errorf] without [%w]; [ErrWrap] is a
    [fmt.Errorf("...: %w", err)]. *)
Inductive error :=
| ErrRead
| errGarbageOverflow
| errAbortReceived
| errUnsupportedEnc
| ErrMsg (msg : string)
| ErrWrap (msg : string) (e : error).

(** [Stuck] is not a Go outcome: it marks a loop of the model that ran out
    of fuel.  The reader's top-level functions never produce it (see
    [readByteStrip_total], [zdlRead_total], [scanForPad_total]). *)
Inductive result (A : Type) :=
| Ok (a : A)
| Err (e : error)
| Stuck.
Arguments Ok {A} a.
Arguments Err {A} e.
Arguments Stuck {A}.

(** State-and-error monad: Go methods mutate their receiver also on the
    paths that return an error. *)
Definition M (St A : Type) : Type := St -> result A * St.

Definition ret {St A} (a : A) : M St A := fun s => (Ok a, s).
Definition fail {St A} (e : error) : M St A := fun s => (Err e, s).
Definition stuck {St A} : M St A := fun s => (Stuck, s).
Definition bind {St A B} (m : M St A) (k : A -> M St B) : M St B :=
  fun s => match m s with
           | (Ok a, s') => k a s'
           | (Err e, s') => (Err e, s')
           | (Stuck, s') => (Stuck, s')
           end.
Definition get {St} : M St St := fun s => (Ok s, s).
Definition modify {St} (f : St -> St) : M St unit := fun s => (Ok tt, f s).
(** [fmt.Errorf(msg + ": %w", err)] around a call. *)
Definition wrapErr {St A} (msg : string) (m : M St A) : M St A :=
  fun s => match m s with
           | (Err e, s') => (Err (ErrWrap msg e), s')
           | r => r
           end.

Declare Scope monad_scope.
Delimit Scope monad_scope with monad.
Notation "x <- m ;; k" := (bind m (fun x => k))
  (at level 61, m at next level, right associativity) : monad_scope.
Notation "' pat <- m ;; k" :=
  (bind m (fun x => match x with pat => k end))
  (at level 61, pat pattern, m at next level, right associativity)
  : monad_scope.
Notation "m ;;; k" := (bind m (fun _ => k))
  (at level 61, right associativity) : monad_scope.
Open Scope monad_scope.

(** ** Escape codec *)

Definition escSend : Z := 0.
Definition escMust : Z := 1.
Definition escIfAtCR : Z := 2.

(** A [[256]byte] array: a list of 256 entries read and written by index. *)
Definition tget (t : list Z) (i : Z) : Z := nth (Z.to_nat i) t 0.
Definition tset (t : list Z) (i : Z) (v : Z) : list Z :=
  firstn (Z.to_nat i) t ++ v :: skipn (S (Z.to_nat i)) t.

Definition buildEscapeTable (escapeAll : bool) : list Z :=
  let table := repeat 0 256 in
  let table := tset table ZDLE escMust in
  let table := tset table 0x10 escMust in
  let table := tset table XON escMust in
  let table := tset table XOFF escMust in
  let table := tset table 0x90 escMust in
  let table := tset table 0x91 escMust in
  let table := tset table 0x93 escMust in
  let table := tset table 0x98 escMust in
  let table := tset table 0x0d escIfAtCR in
  let table := tset table 0x8d escIfAtCR in
  if escapeAll then
    fold_left
      (fun table i =>
         let table :=
           if tget table i =? escSend then tset table i escMust else table in
         if tget table (Z.lor i 0x80) =? escSend
         then tset table (Z.lor i 0x80) escMust else table)
      (map Z.of_nat (seq 0 32)) table
  else table.

(** Modelled from the spec: the escape table of an [EscapeMode].  The
    session, the sender's and the receiver's loops and the tests hand an
    [EscapeMode] to the writer and to [buildEscapeTable]; the table builder
    among the sources is the one above, which takes the escape-all flag.
    Standard and All are its two tables.  For Minimal the specification
    says that "only ZDLE is escaped", and TestBuildEscapeTableMinimal
    requires [escMust] at ZDLE and [escSend] at every other octet. *)
Definition buildEscapeTableMode (mode : EscapeMode) : list Z :=
  match mode with
  | EscapeStandard => buildEscapeTable false
  | EscapeAll => buildEscapeTable true
  | EscapeMinimal => tset (repeat 0 256) ZDLE escMust
  end.

Definition escapeRequired (table : list Z) (b lastSent : Z) : bool :=
  let e := tget table b in
  if e =? escMust then true
  else if e =? escIfAtCR then (lastSent =? 0x40) || (lastSent =? 0xc0)
  else false.

Definition escapeByte (b : Z) : Z * Z := (ZDLE, Z.lxor b 0x40).
Definition unescapeByte (c : Z) : Z := Z.lxor c 0x40.

(** ** transportWriter (writer.go) *)

(** [w_out] is the sequence of octets handed to the buffered writer, oldest
    first; [Flush] pushes them to the transport and changes nothing else.
    The writer records its escape mode: zmodem.go creates it with
    [c.EscapeMode] and sender.go reads [tw.escapeMode] back. *)
Record transportWriter := mkWriter {
  w_out : list Z;
  table : list Z;
  lastSent : Z;
  escapeMode : EscapeMode
}.

(** Modelled from the spec: [newTransportWriter] and [setEscapeMode] as
    their callers use them, with an [EscapeMode] ([setEscapeMode] changes
    the escape mode and rebuilds the table).  writer.go has both with the
    escape-all flag in place of the mode, [setEscapeMode] under the name
    [setEscapeAll]; the bodies are the same, with the table of the mode. *)
Definition newTransportWriter (escapeMode : EscapeMode) : transportWriter :=
  mkWriter [] (buildEscapeTableMode escapeMode) 0 escapeMode.

Definition setEscapeMode (escapeMode : EscapeMode) (tw : transportWriter)
  : transportWriter :=
  mkWriter (w_out tw) (buildEscapeTableMode escapeMode) (lastSent tw)
           escapeMode.

Definition Flush (tw : transportWriter) : transportWriter := tw.

Definition writeRaw (data : list Z) (tw : transportWriter) : transportWriter :=
  mkWriter (w_out tw ++ data) (table tw)
           (match data with [] => lastSent tw | _ => last data 0 end)
           (escapeMode tw).

Definition writeByte (b : Z) (tw : transportWriter) : transportWriter :=
  mkWriter (w_out tw ++ [b]) (table tw) b (escapeMode tw).

Definition writeEscapedByte (b : Z) (tw : transportWriter) : transportWriter :=
  if escapeRequired (table tw) b (lastSent tw) then
    let '(esc1, esc2) := escapeByte b in
    mkWriter (w_out tw ++ [esc1; esc2]) (table tw) esc2 (escapeMode tw)
  else
    mkWriter (w_out tw ++ [b]) (table tw) b (escapeMode tw).

Definition writeEscaped (data : list Z) (tw : transportWriter)
  : transportWriter :=
  fold_left (fun tw b => writeEscapedByte b tw) data tw.

Definition hexDigits : list Z :=
  [0x30; 0x31; 0x32; 0x33; 0x34; 0x35; 0x36; 0x37; 0x38; 0x39;
   0x61; 0x62; 0x63; 0x64; 0x65; 0x66].

Definition writeHex (b : Z) (tw : transportWriter) : transportWriter :=
  mkWriter (w_out tw ++ [nth (Z.to_nat (Z.shiftr b 4)) hexDigits 0;
                         nth (Z.to_nat (Z.land b 0x0f)) hexDigits 0])
           (table tw) (lastSent tw) (escapeMode tw).

(** Octets written between two writer states. *)
Definition emitted (tw tw' : transportWriter) : list Z :=
  skipn (length (w_out tw)) (w_out tw').

(** ** transportReader (reader.go) *)

(** The calls made on the transport's [SetReadDeadline]; wall-clock time is
    not modelled, only the duration added to [time.Now()]. *)
Inductive deadlineCall :=
| DeadlineIn (d : Z)
| DeadlineCleared.

(** [r_buf] holds the octets already inside the 4 KB [bufio.Reader];
    [r_src] the octets the transport has not handed over yet.  [ds] tells
    whether the transport implements [SetReadDeadline].  [stripXonXoff] is
    the flag [NewSession] gives the reader, see [readByteStrip]. *)
Record transportReader := mkReader {
  r_buf : list Z;
  r_src : list Z;
  ds : bool;
  timeout : Z;
  deadlines : list deadlineCall;
  garbageCount : Z;
  garbageMax : Z;
  canCount : Z;
  stripXonXoff : bool
}.

Definition readerBufSize : nat := 4096.

Definition newTransportReader (src : list Z) (hasDeadline : bool)
           (garbageMax timeout : Z) (stripXonXoff : bool)
  : transportReader :=
  mkReader [] src hasDeadline timeout [] 0 garbageMax 0 stripXonXoff.

(** Octets still to be read, buffered ones first. *)
Definition avail (tr : transportReader) : list Z := r_buf tr ++ r_src tr.

Definition setInput (buf src : list Z) (tr : transportReader) :=
  mkReader buf src (ds tr) (timeout tr) (deadlines tr)
           (garbageCount tr) (garbageMax tr) (canCount tr) (stripXonXoff tr).
Definition setCanCount (c : Z) (tr : transportReader) :=
  mkReader (r_buf tr) (r_src tr) (ds tr) (timeout tr) (deadlines tr)
           (garbageCount tr) (garbageMax tr) c (stripXonXoff tr).
Definition setGarbageCount (g : Z) (tr : transportReader) :=
  mkReader (r_buf tr) (r_src tr) (ds tr) (timeout tr) (deadlines tr)
           g (garbageMax tr) (canCount tr) (stripXonXoff tr).
Definition SetReadDeadline (c : deadlineCall) (tr : transportReader) :=
  mkReader (r_buf tr) (r_src tr) (ds tr) (timeout tr) (deadlines tr ++ [c])
           (garbageCount tr) (garbageMax tr) (canCount tr) (stripXonXoff tr).

Definition RM := M transportReader.

(** [bufio.Reader]: [Buffered], [ReadByte], [Peek], [Discard].  An empty
    buffer is refilled with up to [readerBufSize] octets of the transport. *)
Definition Buffered (tr : transportReader) : Z := Z.of_nat (length (r_buf tr)).

Definition ReadByte : RM Z := fun tr =>
  match r_buf tr with
  | b :: buf' => (Ok b, setInput buf' (r_src tr) tr)
  | [] =>
      match r_src tr with
      | [] => (Err ErrRead, tr)
      | b :: src' =>
          (Ok b, setInput (firstn (readerBufSize - 1) src')
                          (skipn (readerBufSize - 1) src') tr)
      end
  end.

(** [Peek(n)] is only ever called with [n <= Buffered()], where it performs
    no I/O. *)
Definition Peek (n : Z) : RM (list Z) := fun tr =>
  if n <=? Buffered tr then (Ok (firstn (Z.to_nat n) (r_buf tr)), tr)
  else (Err ErrRead, tr).

Definition Discard (n : Z) (tr : transportReader) : transportReader :=
  setInput (skipn (Z.to_nat n) (r_buf tr)) (r_src tr) tr.

Definition readByte : RM Z := fun tr =>
  let tr :=
    if (Buffered tr =? 0) && ds tr && (timeout tr >? 0)
    then SetReadDeadline (DeadlineIn (timeout tr)) tr else tr in
  ReadByte tr.

(** Modelled from the spec: the reader's strip flag.  [NewSession] and the
    tests give [newTransportReader] one more argument than reader.go takes:
    whether XON and XOFF are to be stripped, [c.EscapeMode != EscapeMinimal]
    in zmodem.go.  With the flag set [readByteStrip] is the function of
    reader.go, which strips "XON/XOFF octets (including parity-bit
    variants)" as the specification has it; with the flag clear every octet
    is handed on, so that the XON and XOFF octets a Minimal-mode writer
    sends unescaped ("only ZDLE is escaped") reach [zdlRead]. *)
Fixpoint readByteStrip_loop (fuel : nat) : RM Z :=
  match fuel with
  | O => stuck
  | S fuel' =>
      b <- readByte ;;
      tr <- get ;;
      if stripXonXoff tr
         && ((Z.land b 0x7f =? XON) || (Z.land b 0x7f =? XOFF))
      then readByteStrip_loop fuel'
      else ret b
  end.

Definition readByteStrip : RM Z := fun tr =>
  readByteStrip_loop (S (length (avail tr))) tr.

(** Body of [zdlEscape]; the recursive call back into [zdlRead] is the
    parameter [zdlRead_rec]. *)
Definition zdlEscape_body (zdlRead_rec : RM (Z * Z)) : RM (Z * Z) :=
  c <- readByteStrip ;;
  if (c =? ZCRCE) || (c =? ZCRCG) || (c =? ZCRCQ) || (c =? ZCRCW) then
    modify (setCanCount 0) ;;; ret (0, c)
  else if c =? ZRUB0 then
    modify (setCanCount 0) ;;; ret (0x7f, 0)
  else if c =? ZRUB1 then
    modify (setCanCount 0) ;;; ret (0xff, 0)
  else if c >=? 0x40 then
    modify (setCanCount 0) ;;; ret (Z.lxor c 0x40, 0)
  else
    (if c =? CAN then
       modify (fun tr => setCanCount (canCount tr + 1) tr) ;;;
       tr <- get ;;
       if canCount tr >=? 5 then fail errAbortReceived else ret tt
     else ret tt) ;;;
    zdlRead_rec.

Fixpoint zdlRead_loop (fuel : nat) : RM (Z * Z) :=
  match fuel with
  | O => stuck
  | S fuel' =>
      b <- readByteStrip ;;
      if b =? ZDLE then
        modify (fun tr => setCanCount (canCount tr + 1) tr) ;;;
        tr <- get ;;
        if canCount tr >=? 5 then fail errAbortReceived
        else zdlEscape_body (zdlRead_loop fuel')
      else
        modify (setCanCount 0) ;;; ret (b, 0)
  end.

Definition zdlRead : RM (Z * Z) := fun tr =>
  zdlRead_loop (S (length (avail tr))) tr.

Definition zdlEscape : RM (Z * Z) := zdlEscape_body zdlRead.

Definition hexVal (b : Z) : option Z :=
  if (0x30 <=? b) && (b <=? 0x39) then Some (b - 0x30)
  else if (0x61 <=? b) && (b <=? 0x66) then Some (b - 0x61 + 10)
  else if (0x41 <=? b) && (b <=? 0x46) then Some (b - 0x41 + 10)
  else None.

Definition readHex : RM Z :=
  hi <- readByte ;;
  lo <- readByte ;;
  let hi := Z.land hi 0x7f in
  let lo := Z.land lo 0x7f in
  match hexVal hi, hexVal lo with
  | Some h, Some l => ret (Z.lor (u8 (Z.shiftl h 4)) l)
  | _, _ => fail (ErrMsg "zmodem: invalid hex digits")
  end.

(** [garbageCount++; if garbageCount > garbageMax { return errGarbageOverflow }] *)
Definition countGarbage : RM unit :=
  modify (fun tr => setGarbageCount (garbageCount tr + 1) tr) ;;;
  tr <- get ;;
  if garbageCount tr >? garbageMax tr then fail errGarbageOverflow else ret tt.

Fixpoint scanForPad_loop (fuel : nat) : RM Z :=
  match fuel with
  | O => stuck
  | S fuel' =>
      b <- readByte ;;
      if b =? CAN then
        modify (fun tr => setCanCount (canCount tr + 1) tr) ;;;
        tr <- get ;;
        if canCount tr >=? 5 then fail errAbortReceived
        else countGarbage ;;; scanForPad_loop fuel'
      else
        modify (setCanCount 0) ;;;
        if negb (b =? ZPAD) then
          countGarbage ;;; scanForPad_loop fuel'
        else
          b <- readByte ;;
          b <- (if b =? ZPAD then readByte else ret b) ;;
          if negb (b =? ZDLE) then
            countGarbage ;;; scanForPad_loop fuel'
          else
            enc <- readByte ;;
            if (enc =? ZBIN) || (enc =? ZHEX) || (enc =? ZBIN32) then
              modify (setGarbageCount 0) ;;; ret enc
            else if (enc =? ZBINR32) || (enc =? ZVBIN) || (enc =? ZVHEX)
                    || (enc =? ZVBIN32) || (enc =? ZVBINR32) then
              fail (ErrWrap "%w: 0x%02x" errUnsupportedEnc)
            else
              countGarbage ;;; scanForPad_loop fuel'
  end.

Definition scanForPad : RM Z := fun tr =>
  scanForPad_loop (S (length (avail tr))) (setCanCount 0 tr).

Definition resetGarbage (tr : transportReader) : transportReader :=
  setGarbageCount 0 tr.


Definition clearDeadline (tr : transportReader) : transportReader :=
  if ds tr && (timeout tr >? 0) then SetReadDeadline DeadlineCleared tr else tr.

Definition purge (tr : transportReader) : transportReader :=
  let n := Buffered tr in
  if n >? 0 then Discard n tr else tr.

(** ** CRC codec *)

(** The frame codec calls seven functions of crc.go and nothing else of it.
    They are the operations of the class [CRC]; what the codec relies on is
    collected in [CRCLaws], and [specCRC] further down is an instance that
    satisfies them. *)
Class CRC := {
  crc16Update : Z -> list Z -> Z;
  crc16Finalize : Z -> Z;
  crc16Calc : list Z -> Z;
  crc16Verify : list Z -> bool;
  crc32Update : Z -> list Z -> Z;
  crc32Calc : list Z -> Z;
  crc32Verify : list Z -> bool
}.

(** [binary.LittleEndian.PutUint32] / [Uint32]. *)
Definition PutUint32 (v : Z) : list Z :=
  [u8 v; u8 (Z.shiftr v 8); u8 (Z.shiftr v 16); u8 (Z.shiftr v 24)].
Definition Uint32 (b0 b1 b2 b3 : Z) : Z :=
  Z.lor (Z.lor (Z.lor b0 (Z.shiftl b1 8)) (Z.shiftl b2 16)) (Z.shiftl b3 24).

(** The codec needs the CRC functions to have their Go result types
    ([uint16], [uint32]) and a checksum to verify against the data it was
    computed from. *)
Record CRCLaws (crc : CRC) : Prop := {
  crc16Finalize_u16 : forall c, 0 <= crc16Finalize c < 65536;
  crc32Update_u32 : forall c d, 0 <= crc32Update c d < 4294967296;
  crc16Verify_Calc : forall p,
      Forall is_byte p ->
      crc16Verify (p ++ [u8 (Z.shiftr (crc16Calc p) 8);
                         u8 (Z.land (crc16Calc p) 0xff)]) = true;
  crc32Verify_Calc : forall p,
      Forall is_byte p ->
      crc32Verify (p ++ PutUint32 (crc32Calc p)) = true
}.

(** ** Session data (zmodem.go) *)

(** An [io.Reader] over a file: [seekable] tells whether it also implements
    [io.ReadSeeker]; [rpos] is the read position. *)
Record fileReader := mkFileReader {
  content : list Z;
  rpos : Z;
  seekable : bool
}.

Module FileOffer.
Record t := mk {
  Name : list Z;
  Size : Z;
  ModTime : option Z;   (* Unix seconds; [None] is the zero [time.Time] *)
  Mode : Z;
  Reader : fileReader
}.
End FileOffer.

Module FileInfo.
Record t := mk {
  Name : list Z;
  Size : Z;
  ModTime : option Z;
  Mode : Z;
  FilesRemaining : Z;
  BytesRemaining : Z
}.
Definition zero : t := mk [] 0 None 0 0 0.
End FileInfo.

Module Config.
Record t := mk {
  MaxBlockSize : Z;
  WindowSize : Z;
  EscapeMode : EscapeMode;
  Use32BitCRC : bool;
  AttnSequence : list Z;
  RecvTimeout : Z;        (* time.Duration, nanoseconds *)
  Capabilities : Z;
  MaxFileSize : Z;
  MaxRetries : Z;
  GarbageThreshold : Z;
  Znulls : Z
}.
(** The zero value [Config{}]. *)
Definition zero : t := mk 0 0 EscapeStandard false [] 0 0 0 0 0 0.

Definition defaults (c : t) : t :=
  let c := if MaxBlockSize c <=? 0
           then mk 1024 (WindowSize c) (EscapeMode c) (Use32BitCRC c)
                   (AttnSequence c) (RecvTimeout c) (Capabilities c)
                   (MaxFileSize c) (MaxRetries c) (GarbageThreshold c)
                   (Znulls c)
           else c in
  let c := if MaxBlockSize c >? 8192
           then mk 8192 (WindowSize c) (EscapeMode c) (Use32BitCRC c)
                   (AttnSequence c) (RecvTimeout c) (Capabilities c)
                   (MaxFileSize c) (MaxRetries c) (GarbageThreshold c)
                   (Znulls c)
           else c in
  let c := if RecvTimeout c <? 0
           then mk (MaxBlockSize c) (WindowSize c) (EscapeMode c)
                   (Use32BitCRC c) (AttnSequence c) 0 (Capabilities c)
                   (MaxFileSize c) (MaxRetries c) (GarbageThreshold c)
                   (Znulls c)
           else c in
  let c := if MaxRetries c <=? 0
           then mk (MaxBlockSize c) (WindowSize c) (EscapeMode c)
                   (Use32BitCRC c) (AttnSequence c) (RecvTimeout c)
                   (Capabilities c) (MaxFileSize c) 10
                   (GarbageThreshold c) (Znulls c)
           else c in
  if GarbageThreshold c <=? 0
  then mk (MaxBlockSize c) (WindowSize c) (EscapeMode c)
          (Use32BitCRC c) (AttnSequence c) (RecvTimeout c)
          (Capabilities c) (MaxFileSize c) (MaxRetries c) 1200 (Znulls c)
  else c.

Definition setRecvTimeout (d : Z) (c : t) : t :=
  mk (MaxBlockSize c) (WindowSize c) (EscapeMode c) (Use32BitCRC c)
     (AttnSequence c) d (Capabilities c) (MaxFileSize c) (MaxRetries c)
     (GarbageThreshold c) (Znulls c).
End Config.

(** The application's [FileHandler]: the offers [NextFile] will hand out and
    the record of the advisory callbacks made so far. *)
Inductive handlerCall :=
| FileProgress (info : FileInfo.t) (bytesTransferred : Z)
| FileCompleted (info : FileInfo.t) (bytesTransferred : Z) (err : option error).

Record FileHandler := mkHandler {
  offers : list FileOffer.t;
  calls : list handlerCall
}.

Record Session := mkSession {
  handler : FileHandler;
  cfg : Config.t;
  tw : transportWriter;
  tr : transportReader;
  useCRC32 : bool;
  remoteFlags : Z;
  remoteEscAll : bool;
  attnSeq : list Z;
  remoteWindowSize : Z;
  active : bool
}.

Definition setTw (w : transportWriter) (s : Session) : Session :=
  mkSession (handler s) (cfg s) w (tr s) (useCRC32 s) (remoteFlags s)
            (remoteEscAll s) (attnSeq s) (remoteWindowSize s) (active s).
Definition setTr (r : transportReader) (s : Session) : Session :=
  mkSession (handler s) (cfg s) (tw s) r (useCRC32 s) (remoteFlags s)
            (remoteEscAll s) (attnSeq s) (remoteWindowSize s) (active s).
Definition setHandler (h : FileHandler) (s : Session) : Session :=
  mkSession h (cfg s) (tw s) (tr s) (useCRC32 s) (remoteFlags s)
            (remoteEscAll s) (attnSeq s) (remoteWindowSize s) (active s).

Definition SM := M Session.

(** Run a reader method on [s.tr]; run a writer method on [s.tw]. *)
Definition onReader {A} (m : RM A) : SM A := fun s =>
  let '(r, tr') := m (tr s) in (r, setTr tr' s).
Definition onWriter (f : transportWriter -> transportWriter) (s : Session)
  : Session := setTw (f (tw s)) s.

Definition second : Z := 1000000000.

(** [NewSession(transport, handler, cfg)]: [transport] is given by the
    octets it will deliver and by whether it has [SetReadDeadline]; a nil
    [cfg] is [None]. *)
Definition NewSession (src : list Z) (hasDeadline : bool) (h : FileHandler)
           (cfg : option Config.t) : Session :=
  let c := match cfg with Some c => c | None => Config.zero end in
  let c := Config.defaults c in
  let c := match cfg with
           | None => if Config.RecvTimeout c =? 0
                     then Config.setRecvTimeout (10 * second) c else c
           | Some _ => c
           end in
  mkSession h c
    (newTransportWriter (Config.EscapeMode c))
    (newTransportReader src hasDeadline (Config.GarbageThreshold c)
                        (Config.RecvTimeout c)
                        (match Config.EscapeMode c with
                         | EscapeMinimal => false
                         | _ => true
                         end))
    false 0 false [] 0 false.

(** ** Header and its accessors *)

(** [Data [4]byte]. *)
Record Data4 := mkData { d0 : Z; d1 : Z; d2 : Z; d3 : Z }.

Record Header := mkHeader {
  Encoding : Z;
  Type_ : Z;
  Data : Data4
}.

Definition dataBytes (d : Data4) : list Z := [d0 d; d1 d; d2 d; d3 d].
Definition zeroData : Data4 := mkData 0 0 0 0.
(** [Header{}] *)
Definition zeroHeader : Header := mkHeader 0 0 zeroData.

Definition Position (h : Header) : Z :=
  Uint32 (d0 (Data h)) (d1 (Data h)) (d2 (Data h)) (d3 (Data h)).

Definition SetPosition (pos : Z) (h : Header) : Header :=
  let v := u32 pos in
  mkHeader (Encoding h) (Type_ h)
           (mkData (u8 v) (u8 (Z.shiftr v 8)) (u8 (Z.shiftr v 16))
                   (u8 (Z.shiftr v 24))).

Definition ZF0 (h : Header) : Z := d3 (Data h).
Definition ZF1 (h : Header) : Z := d2 (Data h).
Definition ZF2 (h : Header) : Z := d1 (Data h).
Definition ZF3 (h : Header) : Z := d0 (Data h).
Definition SetZF0 (v : Z) (h : Header) : Header :=
  mkHeader (Encoding h) (Type_ h)
           (mkData (d0 (Data h)) (d1 (Data h)) (d2 (Data h)) v).
Definition SetZF1 (v : Z) (h : Header) : Header :=
  mkHeader (Encoding h) (Type_ h)
           (mkData (d0 (Data h)) (d1 (Data h)) v (d3 (Data h))).
Definition SetZF2 (v : Z) (h : Header) : Header :=
  mkHeader (Encoding h) (Type_ h)
           (mkData (d0 (Data h)) v (d2 (Data h)) (d3 (Data h))).
Definition SetZF3 (v : Z) (h : Header) : Header :=
  mkHeader (Encoding h) (Type_ h)
           (mkData v (d1 (Data h)) (d2 (Data h)) (d3 (Data h))).

Definition makeHeader (frameType : Z) : Header :=
  mkHeader 0 frameType zeroData.
Definition makePosHeader (frameType pos : Z) : Header :=
  SetPosition pos (mkHeader 0 frameType zeroData).

(** [m] run [n] times, results in order. *)
Fixpoint timesM {St A} (n : nat) (m : M St A) : M St (list A) :=
  match n with
  | O => ret []
  | S n' => a <- m ;; l <- timesM n' m ;; ret (a :: l)
  end.

Section FrameCodec.
Context {crc : CRC}.

(** *** Header framing *)

Definition sendHexHeader (hdr : Header) (s : Session) : Session :=
  let s := onWriter (writeRaw [ZPAD; ZPAD; ZDLE; ZHEX]) s in
  let payload := Type_ hdr :: dataBytes (Data hdr) in
  let crcv := crc16Calc payload in
  let s := fold_left (fun s b => onWriter (writeHex b) s) payload s in
  let s := onWriter (writeHex (u8 (Z.shiftr crcv 8))) s in
  let s := onWriter (writeHex (u8 (Z.land crcv 0xff))) s in
  let s := onWriter (writeByte 0x0d) s in
  let s := onWriter (writeByte 0x0a) s in
  let s := if negb (Type_ hdr =? ZACK) && negb (Type_ hdr =? ZFIN)
           then onWriter (writeByte XON) s else s in
  onWriter Flush s.

Definition sendBinHeader (hdr : Header) (s : Session) : Session :=
  let enc := if useCRC32 s then ZBIN32 else ZBIN in
  let s := onWriter (writeRaw [ZPAD; ZDLE; enc]) s in
  let payload := Type_ hdr :: dataBytes (Data hdr) in
  let s :=
    if useCRC32 s then
      let crcv := crc32Calc payload in
      let s := onWriter (writeEscaped payload) s in
      onWriter (writeEscaped (PutUint32 crcv)) s
    else
      let crcv := crc16Calc payload in
      let s := onWriter (writeEscaped payload) s in
      let s := onWriter (writeEscapedByte (u8 (Z.shiftr crcv 8))) s in
      onWriter (writeEscapedByte (u8 (Z.land crcv 0xff))) s in
  onWriter Flush s.

Definition sendBinHeaderWithZnulls (hdr : Header) (s : Session) : Session :=
  let s := if Config.Znulls (cfg s) >? 0
           then onWriter
                  (writeRaw (repeat 0 (Z.to_nat (Config.Znulls (cfg s))))) s
           else s in
  sendBinHeader hdr s.

Definition recvHexHeader : SM Header :=
  raw <- wrapErr "hex header read" (timesM 7 (onReader readHex)) ;;
  let hdr := mkHeader ZHEX (nth 0 raw 0)
               (mkData (nth 1 raw 0) (nth 2 raw 0) (nth 3 raw 0)
                       (nth 4 raw 0)) in
  if negb (crc16Verify raw) then
    fail (ErrMsg "zmodem: hex header CRC error")
  else
    cr <- onReader readByte ;;
    if negb (Z.land cr 0x7f =? 0x0d) then
      if Z.land cr 0x7f =? 0x0a then ret hdr
      else fail (ErrMsg "zmodem: expected CR after hex header")
    else
      lf <- onReader readByte ;;
      if negb (Z.land lf 0x7f =? 0x0a) then
        fail (ErrMsg "zmodem: expected LF after hex header CR")
      else
        s <- get ;;
        (if negb (Type_ hdr =? ZACK) && negb (Type_ hdr =? ZFIN)
            && (Buffered (tr s) >? 0)
         then
           match Peek 1 (tr s) with
           | (Ok (p :: _), _) =>
               if Z.land p 0x7f =? XON
               then fun s => (Ok tt, snd (onReader readByte s))
               else ret tt
           | _ => ret tt
           end
         else ret tt) ;;;
        ret hdr.

(** One [zdlRead] that must not hit a frame end. *)
Definition zdlReadNoEnd (readMsg endMsg : string) : SM Z :=
  ' (b, frameEnd) <- wrapErr readMsg (onReader zdlRead) ;;
  if negb (frameEnd =? 0) then fail (ErrMsg endMsg) else ret b.

Definition recvBinHeader (crc32mode : bool) : SM Header :=
  payload <- timesM 5 (zdlReadNoEnd "bin header read"
                         "zmodem: unexpected frame end in header") ;;
  let hdr := mkHeader (if crc32mode then ZBIN32 else ZBIN) (nth 0 payload 0)
               (mkData (nth 1 payload 0) (nth 2 payload 0)
                       (nth 3 payload 0) (nth 4 payload 0)) in
  if crc32mode then
    crcBuf <- timesM 4 (zdlReadNoEnd "bin32 header CRC read"
                          "zmodem: unexpected frame end in CRC") ;;
    if negb (crc32Verify (payload ++ crcBuf)) then
      fail (ErrMsg "zmodem: bin32 header CRC error")
    else ret hdr
  else
    crcBuf <- timesM 2 (zdlReadNoEnd "bin header CRC read"
                          "zmodem: unexpected frame end in CRC") ;;
    if negb (crc16Verify (payload ++ crcBuf)) then
      fail (ErrMsg "zmodem: bin header CRC error")
    else ret hdr.

Definition recvHeader : SM Header :=
  enc <- onReader scanForPad ;;
  hdr <- (if enc =? ZHEX then recvHexHeader
          else if enc =? ZBIN then recvBinHeader false
          else if enc =? ZBIN32 then recvBinHeader true
          else fail (ErrWrap "%w: 0x%02x" errUnsupportedEnc)) ;;
  modify (fun s => setTr (resetGarbage (tr s)) s) ;;;
  ret hdr.

(** *** Subpacket framing (subpacket.go) *)

Definition sendSubpacket (data : list Z) (endType : Z) (s : Session)
  : Session :=
  let s :=
    if useCRC32 s then
      let crcv := crc32Update 0 data in
      let crcv := crc32Update crcv [endType] in
      let s := onWriter (writeEscaped data) s in
      let s := onWriter (writeByte ZDLE) s in
      let s := onWriter (writeByte endType) s in
      onWriter (writeEscaped (PutUint32 crcv)) s
    else
      let crcv := crc16Update 0 data in
      let crcv := crc16Update crcv [endType] in
      let crcv := crc16Finalize crcv in
      let s := onWriter (writeEscaped data) s in
      let s := onWriter (writeByte ZDLE) s in
      let s := onWriter (writeByte endType) s in
      let s := onWriter (writeEscapedByte (u8 (Z.shiftr crcv 8))) s in
      onWriter (writeEscapedByte (u8 (Z.land crcv 0xff))) s in
  let s := if endType =? ZCRCW then onWriter (writeByte XON) s else s in
  onWriter Flush s.

Fixpoint recvSubpacketCRC16_loop (fuel : nat) (data : list Z) (maxLen : Z)
  : SM (list Z * Z) :=
  match fuel with
  | O => stuck
  | S fuel' =>
      ' (b, frameEnd) <- wrapErr "subpacket read" (onReader zdlRead) ;;
      if negb (frameEnd =? 0) then
        crcHi <- zdlReadNoEnd "subpacket CRC read"
                   "zmodem: unexpected frame end in subpacket CRC" ;;
        crcLo <- zdlReadNoEnd "subpacket CRC read"
                   "zmodem: unexpected frame end in subpacket CRC" ;;
        let crcv := crc16Update 0 data in
        let crcv := crc16Update crcv [frameEnd] in
        let crcv := crc16Finalize crcv in
        let recvCRC := Z.lor (u16 (Z.shiftl crcHi 8)) crcLo in
        if negb (crcv =? recvCRC) then
          fail (ErrMsg "zmodem: subpacket CRC-16 error")
        else ret (data, frameEnd)
      else if Z.of_nat (length data) >=? maxLen then
        fail (ErrMsg "zmodem: subpacket exceeds max length")
      else recvSubpacketCRC16_loop fuel' (data ++ [b]) maxLen
  end.

Definition recvSubpacketCRC16 (data : list Z) (maxLen : Z)
  : SM (list Z * Z) := fun s =>
  recvSubpacketCRC16_loop (S (length (avail (tr s)))) data maxLen s.

Fixpoint recvSubpacketCRC32_loop (fuel : nat) (data : list Z) (maxLen : Z)
  : SM (list Z * Z) :=
  match fuel with
  | O => stuck
  | S fuel' =>
      ' (b, frameEnd) <- wrapErr "subpacket read" (onReader zdlRead) ;;
      if negb (frameEnd =? 0) then
        crcBuf <- timesM 4 (zdlReadNoEnd "subpacket CRC32 read"
                    "zmodem: unexpected frame end in subpacket CRC32") ;;
        let crcv := crc32Update 0 data in
        let crcv := crc32Update crcv [frameEnd] in
        let recvCRC := Uint32 (nth 0 crcBuf 0) (nth 1 crcBuf 0)
                              (nth 2 crcBuf 0) (nth 3 crcBuf 0) in
        if negb (crcv =? recvCRC) then
          fail (ErrMsg "zmodem: subpacket CRC-32 error")
        else ret (data, frameEnd)
      else if Z.of_nat (length data) >=? maxLen then
        fail (ErrMsg "zmodem: subpacket exceeds max length")
      else recvSubpacketCRC32_loop fuel' (data ++ [b]) maxLen
  end.

Definition recvSubpacketCRC32 (maxLen : Z) : SM (list Z * Z) := fun s =>
  recvSubpacketCRC32_loop (S (length (avail (tr s)))) [] maxLen s.

Definition recvSubpacket (maxLen : Z) : SM (list Z * Z) := fun s =>
  if useCRC32 s then recvSubpacketCRC32 maxLen s
  else recvSubpacketCRC16 [] maxLen s.

End FrameCodec.

(** ** CRC instance *)

(** Modelled from the spec: crc.go (crc16Update, crc16Finalize, crc16Calc,
    crc16Verify, crc32Update, crc32Calc, crc32Verify) is missing from the
    sources.  The specification fixes CRC-16/XMODEM (polynomial 0x1021,
    init 0) with a finalization step that feeds two zero octets, so that
    payload followed by its CRC verifies to zero, and CRC-32/IEEE
    (polynomial 0xEDB88320 reflected, init and final XOR 0xFFFFFFFF) whose
    verification compares the CRC of payload followed by the received CRC
    with the magic residue.  [crc32Update] has the calling convention of
    Go's [crc32.Update], as the comment in sendSubpacket says. *)
Module SpecCRC.

Fixpoint crc16Bits (n : nat) (r : Z) : Z :=
  match n with
  | O => r
  | S n' =>
      crc16Bits n' (if Z.testbit r 15
                    then Z.lxor (u16 (Z.shiftl r 1)) 0x1021
                    else u16 (Z.shiftl r 1))
  end.
Definition crc16Table (i : Z) : Z := crc16Bits 8 (Z.shiftl i 8).

Definition crc16Step (c b : Z) : Z :=
  Z.lxor (Z.lxor (crc16Table (Z.land (Z.shiftr c 8) 0xff))
                 (u16 (Z.shiftl c 8)))
         b.

(** Modelled from the spec: table-driven CRC-16 update, one octet a step. *)
Definition crc16Update (c : Z) (data : list Z) : Z :=
  fold_left crc16Step data c.

(** Modelled from the spec: finalization feeds two zero octets. *)
Definition crc16Finalize (c : Z) : Z := crc16Update c [0; 0].

(** Modelled from the spec: CRC-16 of [data], from 0, finalized. *)
Definition crc16Calc (data : list Z) : Z :=
  crc16Finalize (crc16Update 0 data).

(** Modelled from the spec: payload followed by its CRC verifies to zero. *)
Definition crc16Verify (data : list Z) : bool := crc16Update 0 data =? 0.

Fixpoint crc32Bits (n : nat) (r : Z) : Z :=
  match n with
  | O => r
  | S n' =>
      crc32Bits n' (if Z.testbit r 0
                    then Z.lxor (Z.shiftr r 1) 0xEDB88320
                    else Z.shiftr r 1)
  end.
Definition crc32Table (i : Z) : Z := crc32Bits 8 i.

Definition crc32Step (c b : Z) : Z :=
  Z.lxor (crc32Table (Z.land (Z.lxor c b) 0xff)) (Z.shiftr c 8).

(** Modelled from the spec: CRC-32/IEEE update, complemented on entry and
    on exit. *)
Definition crc32Update (c : Z) (data : list Z) : Z :=
  Z.lxor (fold_left crc32Step data (Z.lxor (u32 c) 0xFFFFFFFF)) 0xFFFFFFFF.

(** Modelled from the spec: CRC-32 of [data], from 0. *)
Definition crc32Calc (data : list Z) : Z := crc32Update 0 data.

(** Modelled from the spec: the CRC-32 of a payload followed by its own
    CRC. *)
Definition crc32Residue : Z := 0x2144DF1C.

(** Modelled from the spec: verification compares with the residue. *)
Definition crc32Verify (data : list Z) : bool :=
  crc32Calc data =? crc32Residue.

End SpecCRC.

#[export] Instance specCRC : CRC := {|
  crc16Update := SpecCRC.crc16Update;
  crc16Finalize := SpecCRC.crc16Finalize;
  crc16Calc := SpecCRC.crc16Calc;
  crc16Verify := SpecCRC.crc16Verify;
  crc32Update := SpecCRC.crc32Update;
  crc32Calc := SpecCRC.crc32Calc;
  crc32Verify := SpecCRC.crc32Verify
|}.

(** ** File metadata (parseFileInfo) *)

(** The Go library functions [parseFileInfo] calls.  A parser returns
    [None] where Go returns a non-nil error. *)
Class GoStrings := {
  Fields : list Z -> list (list Z);
  ParseInt : list Z -> Z -> Z -> option Z;
  ParseUint : list Z -> Z -> Z -> option Z;
  Atoi : list Z -> option Z
}.

Fixpoint indexNUL (data : list Z) (i : Z) : Z :=
  match data with
  | [] => -1
  | b :: data' => if b =? 0 then i else indexNUL data' (i + 1)
  end.

(** [for len(rest) > 0 && rest[len(rest)-1] == 0 { rest = rest[:len(rest)-1] }] *)
Fixpoint trimTrailingNUL (rest : list Z) : list Z :=
  match rest with
  | [] => []
  | b :: rest' =>
      match trimTrailingNUL rest' with
      | [] => if b =? 0 then [] else [b]
      | t => b :: t
      end
  end.

Section ParseFileInfo.
Context {go : GoStrings}.

Definition parseFileInfo (data : list Z) : result FileInfo.t :=
  let nullIdx := indexNUL data 0 in
  if nullIdx <? 0 then
    Err (ErrMsg "zmodem: file info missing null terminator")
  else
    let name := firstn (Z.to_nat nullIdx) data in
    let rest := skipn (Z.to_nat (nullIdx + 1)) data in
    let rest := trimTrailingNUL rest in
    if Z.of_nat (length rest) =? 0 then
      Ok (FileInfo.mk name 0 None 0 0 0)
    else
      let fields := Fields rest in
      let n := Z.of_nat (length fields) in
      let size :=
        if n >? 0 then
          match ParseInt (nth 0 fields []) 10 64 with
          | Some v => v
          | None => 0
          end
        else 0 in
      let modTime :=
        if n >? 1 then
          match ParseInt (nth 1 fields []) 8 64 with
          | Some v => if v >? 0 then Some v else None
          | None => None
          end
        else None in
      let mode :=
        if n >? 2 then
          match ParseUint (nth 2 fields []) 8 32 with
          | Some v => u32 v
          | None => 0
          end
        else 0 in
      let filesRemaining :=
        if n >? 4 then
          match Atoi (nth 4 fields []) with
          | Some v => v
          | None => 0
          end
        else 0 in
      let bytesRemaining :=
        if n >? 5 then
          match ParseInt (nth 5 fields []) 10 64 with
          | Some v => v
          | None => 0
          end
        else 0 in
      Ok (FileInfo.mk name size modTime mode filesRemaining bytesRemaining).

End ParseFileInfo.

(** A stand-in for the Go library on ASCII input, used to run
    [parseFileInfo] on concrete data: [Fields] splits at ASCII white space;
    the parsers accept an optional sign (signed parsers only) followed by
    digits of the base and reject values outside the bit size. *)
Module AsciiStrings.

Definition isSpace (b : Z) : bool :=
  (b =? 0x20) || ((0x09 <=? b) && (b <=? 0x0d)).

Fixpoint fieldsAux (cur : list Z) (s : list Z) : list (list Z) :=
  match s with
  | [] => match cur with [] => [] | _ => [rev cur] end
  | b :: s' =>
      if isSpace b
      then match cur with
           | [] => fieldsAux [] s'
           | _ => rev cur :: fieldsAux [] s'
           end
      else fieldsAux (b :: cur) s'
  end.
Definition Fields (s : list Z) : list (list Z) := fieldsAux [] s.

Fixpoint digits (base : Z) (acc : Z) (s : list Z) : option Z :=
  match s with
  | [] => Some acc
  | b :: s' =>
      let d := b - 0x30 in
      if (0 <=? d) && (d <? base) then digits base (acc * base + d) s'
      else None
  end.

Definition ParseUint (s : list Z) (base bitSize : Z) : option Z :=
  match s with
  | [] => None
  | _ => match digits base 0 s with
         | Some v => if v <? 2 ^ bitSize then Some v else None
         | None => None
         end
  end.

Definition ParseInt (s : list Z) (base bitSize : Z) : option Z :=
  let '(neg, body) :=
    match s with
    | 0x2d :: s' => (true, s')
    | 0x2b :: s' => (false, s')
    | _ => (false, s)
    end in
  match body with
  | [] => None
  | _ => match digits base 0 body with
         | Some v =>
             let v := if neg then - v else v in
             if (- 2 ^ (bitSize - 1) <=? v) && (v <? 2 ^ (bitSize - 1))
             then Some v else None
         | None => None
         end
  end.

Definition Atoi (s : list Z) : option Z := ParseInt s 10 64.

End AsciiStrings.

#[export] Instance asciiStrings : GoStrings := {|
  Fields := AsciiStrings.Fields;
  ParseInt := AsciiStrings.ParseInt;
  ParseUint := AsciiStrings.ParseUint;
  Atoi := AsciiStrings.Atoi
|}.

(** ** Sender loop frame (sender.go, runSender) *)

Inductive senderState :=
| stxInit | stxSInit | stxFileInfo | stxFileInfoAck | stxData | stxEOF
| stxEOFAck | stxNextFile | stxFin | stxFinAck | stxDone.

(** The local variables of [runSender]; [curOffer = None] is the nil
    pointer. *)
Record senderVars := mkVars {
  state : senderState;
  curOffer : option FileOffer.t;
  curInfo : FileInfo.t;
  fileOffset : Z;
  bytesSent : Z;
  retries : Z;
  blockSize : Z;
  goodBlocks : Z;
  goodNeeded : Z;
  unreliable : bool;
  zcrcwNext : bool;
  zcrcwRetries : Z;
  filesLeft : Z;
  bytesLeft : Z
}.

(** The frame as it is when the [for state != stxDone] loop is entered. *)
Definition senderVars0 : senderVars :=
  mkVars stxInit None FileInfo.zero 0 0 0 256 0 8 false false 0 0 0.

Definition setState (st : senderState) (v : senderVars) : senderVars :=
  mkVars st (curOffer v) (curInfo v) (fileOffset v) (bytesSent v) (retries v)
         (blockSize v) (goodBlocks v) (goodNeeded v) (unreliable v)
         (zcrcwNext v) (zcrcwRetries v) (filesLeft v) (bytesLeft v).

(** [s.handler.NextFile()] *)
Definition NextFile (h : FileHandler) : option FileOffer.t * FileHandler :=
  match offers h with
  | [] => (None, h)
  | o :: rest => (Some o, mkHandler rest (calls h))
  end.

(** [case stxNextFile:] of the state switch. *)
Definition stepNextFile (s : Session) (v : senderVars)
  : Session * senderVars :=
  let '(offer, h) := NextFile (handler s) in
  let s := setHandler h s in
  match offer with
  | None =>
      (s, mkVars stxFin None (curInfo v) (fileOffset v) (bytesSent v)
                 (retries v) (blockSize v) (goodBlocks v) (goodNeeded v)
                 (unreliable v) (zcrcwNext v) (zcrcwRetries v) (filesLeft v)
                 (bytesLeft v))
  | Some o =>
      let info := FileInfo.mk (FileOffer.Name o) (FileOffer.Size o)
                              (FileOffer.ModTime o) (FileOffer.Mode o) 0 0 in
      (s, mkVars stxFileInfo (Some o) info
                 0                (* fileOffset = 0 *)
                 0                (* bytesSent = 0 *)
                 0                (* retries = 0 *)
                 (blockSize v)
                 0                (* goodBlocks = 0 *)
                 (goodNeeded v)
                 (unreliable v)
                 false            (* zcrcwNext = false *)
                 0                (* zcrcwRetries = 0 *)
                 (filesLeft v) (bytesLeft v))
  end.

(** [seeker.Seek(offset, io.SeekStart)] on a reader over a byte slice. *)
Definition Seek (offset : Z) (r : fileReader) : result fileReader :=
  if offset <? 0 then Err (ErrMsg "negative position")
  else Ok (mkFileReader (content r) offset (seekable r)).


(** The assignments made on a [ZRPOS] once the reader has been positioned
    ([max] is Go's builtin, [/] truncates). *)
Definition zrposRecovery (offer : FileOffer.t) (newPos : Z) (v : senderVars)
  : senderVars :=
  mkVars stxData (Some offer) (curInfo v)
         newPos                               (* fileOffset = newPos *)
         newPos                               (* bytesSent = newPos *)
         (retries v)
         (Z.max (Z.quot (blockSize v) 4) 32)  (* max(blockSize/4, 32) *)
         0                                    (* goodBlocks = 0 *)
         (goodNeeded v)
         true                                 (* unreliable = true *)
         true                                 (* zcrcwNext = true *)
         0                                    (* zcrcwRetries = 0 *)
         (filesLeft v) (bytesLeft v).




Section Sender.
Context {crc : CRC}.




(** "Block size adaptation". *)
Definition adaptNeeded (v : senderVars) : Z :=
  if unreliable v then 16 else goodNeeded v.

Definition adaptBlockSize (maxBlockSize : Z) (v : senderVars)
  : senderVars :=
  if (goodBlocks v >=? adaptNeeded v) && (blockSize v <? maxBlockSize) then
    let bs := blockSize v * 2 in
    let bs := if bs >? maxBlockSize then maxBlockSize else bs in
    mkVars (state v) (curOffer v) (curInfo v) (fileOffset v) (bytesSent v)
           (retries v) bs 0 (goodNeeded v) (unreliable v) (zcrcwNext v)
           (zcrcwRetries v) (filesLeft v) (bytesLeft v)
  else v.

End Sender.

(** ** Receiver data loop (receiver.go, receiveDataSubpackets) *)

(** The [io.Writer] the handler returned: what has been written, and
    whether its [Write] fails. *)
Record fileSink := mkSink {
  written : list Z;
  broken : bool
}.

Definition Write (data : list Z) (w : fileSink) : result fileSink :=
  if broken w then Err (ErrMsg "write failed")
  else Ok (mkSink (written w ++ data) false).

(** The values behind the pointer arguments of [receiveDataSubpackets]. *)
Record rxVars := mkRx {
  sink : fileSink;
  info : FileInfo.t;
  offset : Z;
  received : Z;
  rxRetries : Z
}.

(** What the body of the [for] loop does next. *)
Inductive loopNext :=
| Again                          (* continue *)
| Return (err : option error)    (* return err / return nil *)
| Diverged.                      (* the model ran out of fuel *)

Section Receiver.
Context {crc : CRC}.

(** One pass through the body of the loop; [ctxErr] is what [ctx.Err()]
    returns at its head. *)
Definition receiveDataSubpackets_body (ctxErr : option error)
           (s : Session) (v : rxVars) : loopNext * Session * rxVars :=
  match ctxErr with
  | Some e => (Return (Some e), s, v)
  | None =>
      match recvSubpacket (Config.MaxBlockSize (cfg s) + 256) s with
      | (Err e, s) => (Return (Some e), s, v)
      | (Stuck, s) => (Diverged, s, v)
      | (Ok (data, endType), s) =>
          let wr :=
            if Z.of_nat (length data) >? 0 then
              match Write data (sink v) with
              | Ok w =>
                  let off := offset v + Z.of_nat (length data) in
                  let h := handler s in
                  Ok (setHandler
                        (mkHandler (offers h)
                                   (calls h ++ [FileProgress (info v) off]))
                        s,
                      mkRx w (info v) off off 0)
              | Err e =>
                  Err (ErrWrap "zmodem: file write error" e)
              | Stuck => Stuck
              end
            else Ok (s, v) in
          match wr with
          | Err e => (Return (Some e), s, v)
          | Stuck => (Diverged, s, v)
          | Ok (s, v) =>
              if endType =? ZCRCG then (Again, s, v)
              else if endType =? ZCRCQ then
                (Again, sendHexHeader (makePosHeader ZACK (offset v)) s, v)
              else if endType =? ZCRCW then
                (Return None,
                 sendHexHeader (makePosHeader ZACK (offset v)) s, v)
              else if endType =? ZCRCE then (Return None, s, v)
              else (Again, s, v)
          end
      end
  end.

(** The loop; [ctx n] is what [ctx.Err()] returns at the head of pass
    [n].  [Ok tt] is [return nil]. *)
Fixpoint receiveDataSubpackets_loop (fuel : nat) (ctx : nat -> option error)
         (n : nat) (s : Session) (v : rxVars)
  : result unit * Session * rxVars :=
  match fuel with
  | O => (Stuck, s, v)
  | S fuel' =>
      match receiveDataSubpackets_body (ctx n) s v with
      | (Again, s, v) => receiveDataSubpackets_loop fuel' ctx (S n) s v
      | (Return None, s, v) => (Ok tt, s, v)
      | (Return (Some e), s, v) => (Err e, s, v)
      | (Diverged, s, v) => (Stuck, s, v)
      end
  end.

Definition receiveDataSubpackets (ctx : nat -> option error)
           (s : Session) (v : rxVars) : result unit * Session * rxVars :=
  receiveDataSubpackets_loop (S (length (avail (tr s)))) ctx 0 s v.

End Receiver.

(** ** Capability negotiation (receiver.go sendZRINIT, sender.go processZRINIT) *)

Definition isEscapeAll (m : EscapeMode) : bool :=
  match m with EscapeAll => true | _ => false end.

Definition setData01 (v0 v1 : Z) (h : Header) : Header :=
  mkHeader (Encoding h) (Type_ h)
           (mkData v0 v1 (d2 (Data h)) (d3 (Data h))).

Definition setUseCRC32 (b : bool) (s : Session) : Session :=
  mkSession (handler s) (cfg s) (tw s) (tr s) b (remoteFlags s)
            (remoteEscAll s) (attnSeq s) (remoteWindowSize s) (active s).

Section Negotiation.
Context {crc : CRC}.

Definition sendZRINIT (s : Session) : Session :=
  let hdr := makeHeader ZRINIT in
  let caps := Z.lor CANFDX CANOVIO in
  let caps := if Config.Use32BitCRC (cfg s) then Z.lor caps CANFC32
              else caps in
  let caps := if isEscapeAll (Config.EscapeMode (cfg s))
              then Z.lor caps ESCCTL else caps in
  let caps := Z.lor caps (Config.Capabilities (cfg s)) in
  let hdr := SetZF0 caps hdr in
  let hdr := if Config.WindowSize (cfg s) >? 0
             then setData01
                    (u8 (Z.land (Config.WindowSize (cfg s)) 0xff))
                    (u8 (Z.land (Z.shiftr (Config.WindowSize (cfg s)) 8)
                                0xff))
                    hdr
             else hdr in
  sendHexHeader hdr s.

End Negotiation.

Definition processZRINIT (hdr : Header) (s : Session) : Session :=
  let rf := ZF0 hdr in
  let rws := Z.lor (d0 (Data hdr)) (Z.shiftl (d1 (Data hdr)) 8) in
  let crc32 := if Config.Use32BitCRC (cfg s) && negb (Z.land rf CANFC32 =? 0)
               then true else useCRC32 s in
  if negb (Z.land rf ESCCTL =? 0) then
    mkSession (handler s) (cfg s) (setEscapeMode EscapeAll (tw s)) (tr s) crc32 rf
              true (attnSeq s) rws (active s)
  else
    mkSession (handler s) (cfg s) (tw s) (tr s) crc32 rf
              (remoteEscAll s) (attnSeq s) rws (active s).

(** ** Header reception with retries (sender.go recvHeaderRetry) *)

Section Retry.
Context {crc : CRC}.

(** [ctx n] is what [ctx.Err()] returns in pass [n]; the third component
    of the result is the value left in [*retries]. *)
Fixpoint recvHeaderRetry_loop (fuel : nat) (ctx : nat -> option error)
         (n : nat) (retries : Z) (s : Session)
  : result Header * Session * Z :=
  match fuel with
  | O => (Stuck, s, retries)
  | S fuel' =>
      if retries >=? Config.MaxRetries (cfg s) then
        (Err (ErrMsg "zmodem: max retries (%d) exceeded"), s, retries)
      else
        match ctx n with
        | Some e => (Err e, s, retries)
        | None =>
            match recvHeader s with
            | (Ok hdr, s') => (Ok hdr, s', retries)
            | (Stuck, s') => (Stuck, s', retries)
            | (Err e, s') =>
                let retries := retries + 1 in
                if retries >=? Config.MaxRetries (cfg s') then
                  (Err (ErrWrap "zmodem: max retries exceeded" e), s',
                   retries)
                else recvHeaderRetry_loop fuel' ctx (S n) retries s'
            end
        end
  end.

Definition recvHeaderRetry (ctx : nat -> option error) (retries : Z)
           (s : Session) : result Header * Session * Z :=
  recvHeaderRetry_loop
    (S (Z.to_nat (Config.MaxRetries (cfg s) - retries))) ctx 0 retries s.

End Retry.

(** ** File CRC (sender.go computeFileCRC) *)

(** [r.Read(p)] with [len(p) = n] on a reader over a byte slice: at or
    past the end it returns [(0, io.EOF)]; before it, what is left up to
    [n] octets, and no error.  The boolean is [err == io.EOF]. *)
Definition Read (n : Z) (r : fileReader) : list Z * bool * fileReader :=
  if Z.of_nat (length (content r)) <=? rpos r then ([], true, r)
  else
    let data := firstn (Z.to_nat n) (skipn (Z.to_nat (rpos r)) (content r)) in
    (data, false,
     mkFileReader (content r) (rpos r + Z.of_nat (length data)) (seekable r)).

Definition setReader (r : fileReader) (o : FileOffer.t) : FileOffer.t :=
  FileOffer.mk (FileOffer.Name o) (FileOffer.Size o) (FileOffer.ModTime o)
               (FileOffer.Mode o) r.

Section FileCRC.
Context {crc : CRC}.

Fixpoint computeFileCRC_loop (fuel : nat) (byteCount : Z)
         (crcv totalRead : Z) (r : fileReader) : result Z * fileReader :=
  match fuel with
  | O => (Stuck, r)
  | S fuel' =>
      let toRead := 8192 in
      let toRead := if (byteCount >? 0) && (totalRead + toRead >? byteCount)
                    then byteCount - totalRead else toRead in
      if toRead <=? 0 then (Ok crcv, r)
      else
        let '(data, eof, r) := Read toRead r in
        let n := Z.of_nat (length data) in
        let crcv := if n >? 0 then crc32Update crcv data else crcv in
        let totalRead := if n >? 0 then totalRead + n else totalRead in
        if eof then (Ok crcv, r)
        else computeFileCRC_loop fuel' byteCount crcv totalRead r
  end.

(** The reader is behind a pointer: the offer that comes back carries it
    as the call has left it. *)
Definition computeFileCRC (offer : FileOffer.t) (byteCount : Z)
  : result Z * FileOffer.t :=
  let r := FileOffer.Reader offer in
  if negb (seekable r) then
    (Err (ErrMsg "reader does not implement io.ReadSeeker for ZCRC"), offer)
  else
    let curPos := rpos r in
    match Seek 0 r with
    | Err e => (Err e, offer)
    | Stuck => (Stuck, offer)
    | Ok r0 =>
        match computeFileCRC_loop (S (S (length (content r0)))) byteCount
                                  0 0 r0 with
        | (Err e, r1) => (Err e, setReader r1 offer)
        | (Stuck, r1) => (Stuck, setReader r1 offer)
        | (Ok crcv, r1) =>
            match Seek curPos r1 with
            | Err e => (Err e, setReader r1 offer)
            | Stuck => (Stuck, setReader r1 offer)
            | Ok r2 => (Ok crcv, setReader r2 offer)
            end
        end
    end.

End FileCRC.

(** ** Block size over a transfer (sender.go, runSender) *)

(** The bookkeeping after a subpacket of [n] octets has been sent
    ([fileOffset += n; bytesSent = fileOffset; goodBlocks++]). *)
Definition noteSubpacket (n : Z) (v : senderVars) : senderVars :=
  mkVars (state v) (curOffer v) (curInfo v) (fileOffset v + n)
         (fileOffset v + n) (retries v) (blockSize v) (goodBlocks v + 1)
         (goodNeeded v) (unreliable v) (zcrcwNext v) (zcrcwRetries v)
         (filesLeft v) (bytesLeft v).

(** What can happen to the loop variables while files are sent: the next
    file is fetched, a ZRPOS is handled (any of the five handlers), a
    subpacket is accounted for, the block size is adapted. *)
Inductive senderEvent :=
| EvNextFile (s : Session)
| EvZRPOS (offer : FileOffer.t) (newPos : Z)
| EvSubpacket (n : Z)
| EvAdapt.

Definition applyEvent (maxBlockSize : Z) (v : senderVars) (ev : senderEvent)
  : senderVars :=
  match ev with
  | EvNextFile s => snd (stepNextFile s v)
  | EvZRPOS offer newPos => zrposRecovery offer newPos v
  | EvSubpacket n => noteSubpacket n v
  | EvAdapt => adaptBlockSize maxBlockSize v
  end.

(** ** Vocabulary: what a session-level read touches *)

(** [m] changes nothing of the session but its reader. *)
Definition onlyTr {A} (m : SM A) : Prop :=
  forall s, snd (m s) = setTr (tr (snd (m s))) s.


(** ** File metadata on the sending side (marshalFileInfo) *)

(** The Go library functions [marshalFileInfo] calls: [strings.ToLower],
    [strings.ReplaceAll s old new], and [fmt.Sprintf] with the verbs [%d]
    and [%o] on an integer. *)
Class GoFmt := {
  ToLower : list Z -> list Z;
  ReplaceAll : list Z -> list Z -> list Z -> list Z;
  Sprintf_d : Z -> list Z;
  Sprintf_o : Z -> list Z
}.

Section MarshalFileInfo.
Context {fmt : GoFmt}.

(** [ModTime = None] is the zero [time.Time]; [Some t] has [Unix() = t]. *)
Definition marshalFileInfo (offer : FileOffer.t)
           (filesRemaining bytesRemaining : Z) : list Z :=
  let name := ToLower (FileOffer.Name offer) in
  let name := ReplaceAll name [0x5c] [0x2f] in
  let meta := Sprintf_d (FileOffer.Size offer) in
  let meta := match FileOffer.ModTime offer with
              | Some t => meta ++ 0x20 :: Sprintf_o t
              | None => meta ++ [0x20; 0x30]
              end in
  let meta := meta ++ 0x20 :: Sprintf_o (FileOffer.Mode offer) in
  let meta := meta ++ [0x20; 0x30] in
  let meta :=
    if filesRemaining >? 0 then
      let meta := meta ++ 0x20 :: Sprintf_d filesRemaining in
      if bytesRemaining >? 0
      then meta ++ 0x20 :: Sprintf_d bytesRemaining
      else meta
    else meta in
  name ++ [0] ++ meta ++ [0].

End MarshalFileInfo.

(** A stand-in for the Go library on ASCII text and 64-bit integers:
    [ToLower] maps the letters A to Z, [ReplaceAll] replaces one octet,
    and the two verbs print a minus sign for a negative number and then
    the digits of its magnitude, most significant first. *)
Module AsciiFmt.

Definition ToLower (s : list Z) : list Z :=
  map (fun b => if (0x41 <=? b) && (b <=? 0x5a) then b + 0x20 else b) s.

Definition ReplaceAll (s old new : list Z) : list Z :=
  match old with
  | [o] => flat_map (fun b => if b =? o then new else [b]) s
  | _ => s
  end.

Fixpoint digitsOf (fuel : nat) (base v : Z) (acc : list Z) : list Z :=
  match fuel with
  | O => acc
  | S fuel' =>
      let acc' := (0x30 + v mod base) :: acc in
      if v <? base then acc' else digitsOf fuel' base (v / base) acc'
  end.

Definition formatUint (base v : Z) : list Z :=
  digitsOf (S (Z.to_nat (Z.log2 v))) base v [].

Definition formatInt (base v : Z) : list Z :=
  if v <? 0 then 0x2d :: formatUint base (- v) else formatUint base v.

End AsciiFmt.

#[export] Instance asciiFmt : GoFmt := {|
  ToLower := AsciiFmt.ToLower;
  ReplaceAll := AsciiFmt.ReplaceAll;
  Sprintf_d := AsciiFmt.formatInt 10;
  Sprintf_o := AsciiFmt.formatInt 8
|}.

(** *** Vocabulary of the metadata round trip *)

(** A field as the formatting verbs produce it: not empty, printable
    ASCII, no blank. *)
Definition plainb (b : Z) : bool := (0x21 <=? b) && (b <=? 0x7e).
Definition plainField (f : list Z) : Prop :=
  f <> [] /\ forallb plainb f = true.

(** Fields separated by single spaces. *)
Definition joinFields (fs : list (list Z)) : list Z :=
  match fs with
  | [] => []
  | f :: fs' => f ++ flat_map (fun g => 0x20 :: g) fs'
  end.

Definition int64 (v : Z) : Prop := - 2 ^ 63 <= v < 2 ^ 63.
Definition uint32 (v : Z) : Prop := 0 <= v < 2 ^ 32.

(** What the round trip needs of the library: the verbs print plain
    fields that the parsers of the receiving side read back, and
    [strings.Fields] undoes the joining with spaces. *)
Record GoTextLaws (go : GoStrings) (fmt : GoFmt) : Prop := {
  Fields_join : forall fs,
      Forall plainField fs -> Fields (joinFields fs) = fs;
  Sprintf_d_plain : forall v, plainField (Sprintf_d v);
  Sprintf_o_plain : forall v, plainField (Sprintf_o v);
  ParseInt_d : forall v, int64 v -> ParseInt (Sprintf_d v) 10 64 = Some v;
  ParseInt_o : forall v, int64 v -> ParseInt (Sprintf_o v) 8 64 = Some v;
  ParseInt_zero : ParseInt [0x30] 8 64 = Some 0;
  ParseUint_o : forall v, uint32 v -> ParseUint (Sprintf_o v) 8 32 = Some v;
  Atoi_d : forall v, int64 v -> Atoi (Sprintf_d v) = Some v
}.

Section ParseFields.
Context {go : GoStrings}.

(** What [parseFileInfo] makes of the name and of the fields behind it. *)
Definition infoOfFields (name : list Z) (fields : list (list Z))
  : FileInfo.t :=
  let n := Z.of_nat (length fields) in
  FileInfo.mk name
    (if n >? 0 then match ParseInt (nth 0 fields []) 10 64 with
                    | Some v => v | None => 0 end
     else 0)
    (if n >? 1 then match ParseInt (nth 1 fields []) 8 64 with
                    | Some v => if v >? 0 then Some v else None
                    | None => None end
     else None)
    (if n >? 2 then match ParseUint (nth 2 fields []) 8 32 with
                    | Some v => u32 v | None => 0 end
     else 0)
    (if n >? 4 then match Atoi (nth 4 fields []) with
                    | Some v => v | None => 0 end
     else 0)
    (if n >? 5 then match ParseInt (nth 5 fields []) 10 64 with
                    | Some v => v | None => 0 end
     else 0).

End ParseFields.

(** ** Vocabulary of the statements *)

(** The counters a raw read leaves alone. *)
Definition same_counters (tr tr' : transportReader) : Prop :=
  canCount tr' = canCount tr /\ garbageCount tr' = garbageCount tr /\
  garbageMax tr' = garbageMax tr.

(** The test of [readByteStrip], made when the reader strips. *)
Definition strippedb (b : Z) : bool :=
  (Z.land b 0x7f =? XON) || (Z.land b 0x7f =? XOFF).

Definition is_endType (e : Z) : Prop :=
  e = ZCRCE \/ e = ZCRCG \/ e = ZCRCQ \/ e = ZCRCW.

Definition endTypeb (c : Z) : bool :=
  (c =? ZCRCE) || (c =? ZCRCG) || (c =? ZCRCQ) || (c =? ZCRCW).

(** An octet that may travel unescaped to a reader whose strip flag is
    [strip], and one whose escaped form [ZDLE, b xor 0x40] decodes back to
    it (whatever the flag). *)
Definition raw_okb (strip : bool) (b : Z) : bool :=
  negb (b =? ZDLE) && negb (strip && strippedb b).
Definition esc_okb (b : Z) : bool :=
  let c := Z.lxor b 0x40 in
  negb (strippedb c) && negb (endTypeb c) && negb (c =? ZRUB0)
  && negb (c =? ZRUB1) && (c >=? 0x40) && (Z.lxor c 0x40 =? b).

(** What [zdlEscape] does with the octet [c] it has read. *)
Definition afterZDLE (zdlRead_rec : RM (Z * Z)) (c : Z) : RM (Z * Z) :=
  if (c =? ZCRCE) || (c =? ZCRCG) || (c =? ZCRCQ) || (c =? ZCRCW) then
    modify (setCanCount 0) ;;; ret (0, c)
  else if c =? ZRUB0 then
    modify (setCanCount 0) ;;; ret (0x7f, 0)
  else if c =? ZRUB1 then
    modify (setCanCount 0) ;;; ret (0xff, 0)
  else if c >=? 0x40 then
    modify (setCanCount 0) ;;; ret (Z.lxor c 0x40, 0)
  else
    (if c =? CAN then
       modify (fun tr => setCanCount (canCount tr + 1) tr) ;;;
       tr <- get ;;
       if canCount tr >=? 5 then fail errAbortReceived else ret tt
     else ret tt) ;;;
    zdlRead_rec.

(** [escaped_as strip w d]: the wire octets [w] are the payload [d] with
    some octets sent as they are and the others as a ZDLE pair, in a way a
    reader with the strip flag [strip] reads back. *)
Inductive escaped_as (strip : bool) : list Z -> list Z -> Prop :=
| ea_nil : escaped_as strip [] []
| ea_raw b w d :
    raw_okb strip b = true -> escaped_as strip w d ->
    escaped_as strip (b :: w) (b :: d)
| ea_esc b w d :
    esc_okb b = true -> escaped_as strip w d ->
    escaped_as strip (ZDLE :: Z.lxor b 0x40 :: w) (b :: d).

(** The invariant of a writer: its table is the one of its escape mode. *)
Definition writer_wf (tw : transportWriter) : Prop :=
  table tw = buildEscapeTableMode (escapeMode tw).

(** The reader [tr] is set up for what the writer [tw] sends: a writer in
    Minimal mode sends XON and XOFF as they are, and needs a reader that
    does not strip them.  [NewSession] pairs the two this way; a reader
    that strips goes with the two other modes. *)
Definition reads_from (tw : transportWriter) (tr : transportReader) : Prop :=
  escapeMode tw = EscapeMinimal -> stripXonXoff tr = false.

(** A writer whose output a reader with the strip flag [strip] decodes. *)
Definition writer_for (strip : bool) (tw : transportWriter) : Prop :=
  writer_wf tw /\ (escapeMode tw = EscapeMinimal -> strip = false).

(** Per-octet soundness of an escape table against the reader. *)
Definition table_okb (strip : bool) (t : list Z) (b : Z) : bool :=
  let e := tget t b in
  if e =? escMust then esc_okb b
  else if e =? escIfAtCR then esc_okb b && raw_okb strip b
  else raw_okb strip b.

Section SubpacketCRC.
Context {crc : CRC}.

(** The checksum octets [sendSubpacket] appends after the end type. *)
Definition subpacketCRC (crc32mode : bool) (data : list Z) (endType : Z)
  : list Z :=
  if crc32mode then PutUint32 (crc32Update (crc32Update 0 data) [endType])
  else
    let c := crc16Finalize (crc16Update (crc16Update 0 data) [endType]) in
    [u8 (Z.shiftr c 8); u8 (Z.land c 0xff)].
End SubpacketCRC.

(** The all-ones word CRC-32 starts from and ends with. *)
Definition M32 : Z := 0xFFFFFFFF.

(** The encodings [scanForPad] accepts. *)
Definition supportedEncb (enc : Z) : bool :=
  (enc =? ZBIN) || (enc =? ZHEX) || (enc =? ZBIN32).

(** The two digits [writeHex] emits, and the wire form of a byte string. *)
Definition hexOf (b : Z) : list Z :=
  [nth (Z.to_nat (Z.shiftr b 4)) hexDigits 0;
   nth (Z.to_nat (Z.land b 0x0f)) hexDigits 0].
Definition hexWire (bs : list Z) : list Z := flat_map hexOf bs.

(** The value [readHex] computes from two octets. *)
Definition unhex (hi lo : Z) : option Z :=
  match hexVal (Z.land hi 0x7f), hexVal (Z.land lo 0x7f) with
  | Some h, Some l => Some (Z.lor (u8 (Z.shiftl h 4)) l)
  | _, _ => None
  end.

Section HeaderVocabulary.
Context {crc : CRC}.

(** The 7 bytes a hex header carries. *)
Definition hexBody (T : Z) (D : Data4) : list Z :=
  let payload := T :: dataBytes D in
  payload ++ [u8 (Z.shiftr (crc16Calc payload) 8);
              u8 (Z.land (crc16Calc payload) 0xff)].

(** The checksum octets of a binary header. *)
Definition binCRC (crc32mode : bool) (payload : list Z) : list Z :=
  if crc32mode then PutUint32 (crc32Calc payload)
  else [u8 (Z.shiftr (crc16Calc payload) 8);
        u8 (Z.land (crc16Calc payload) 0xff)].

(** What [recvHexHeader] does once the CRC has been verified. *)
Definition hexTerminator (hdr : Header) : SM Header :=
  cr <- onReader readByte ;;
  if negb (Z.land cr 0x7f =? 0x0d) then
    if Z.land cr 0x7f =? 0x0a then ret hdr
    else fail (ErrMsg "zmodem: expected CR after hex header")
  else
    lf <- onReader readByte ;;
    if negb (Z.land lf 0x7f =? 0x0a) then
      fail (ErrMsg "zmodem: expected LF after hex header CR")
    else
      s <- get ;;
      (if negb (Type_ hdr =? ZACK) && negb (Type_ hdr =? ZFIN)
          && (Buffered (tr s) >? 0)
       then
         match Peek 1 (tr s) with
         | (Ok (p :: _), _) =>
             if Z.land p 0x7f =? XON
             then fun s => (Ok tt, snd (onReader readByte s))
             else ret tt
         | _ => ret tt
         end
       else ret tt) ;;;
      ret hdr.
End HeaderVocabulary.


(** What [zdlRead] can return. *)
Definition zdlRead_post (tr : transportReader)
           (out : result (Z * Z) * transportReader) : Prop :=
  match out with
  | (Stuck, _) => False
  | (Err e, _) => e = ErrRead \/ e = errAbortReceived
  | (Ok (b, fe), tr') =>
      canCount tr' = 0 /\ (length (avail tr') < length (avail tr))%nat
      /\ (fe = 0 \/ is_endType fe)
  end.

(** What [scanForPad] can return; [n] bounds the input that was pending. *)
Definition scanForPad_post (n : nat) (out : result Z * transportReader)
  : Prop :=
  match out with
  | (Stuck, _) => False
  | (Err _, _) => True
  | (Ok enc, tr') =>
      supportedEncb enc = true /\ canCount tr' = 0 /\ garbageCount tr' = 0
      /\ (length (avail tr') < n)%nat
  end.

(** [m] leaves the reader's strip flag as it was set. *)
Definition steadyM {A} (m : RM A) : Prop :=
  forall tr, stripXonXoff (snd (m tr)) = stripXonXoff tr.

(** Nothing was done to the transport's deadline between two reader
    states, and the timeout setting is the same. *)
Definition quiet (tr tr' : transportReader) : Prop :=
  timeout tr' = timeout tr /\ ds tr' = ds tr /\ deadlines tr' = deadlines tr.

Section Quiet.
Context {St : Type} (rd : St -> transportReader).

(** [m] manages no deadline when the timeout is disabled. *)
Definition quietM {A} (m : M St A) : Prop :=
  forall s, timeout (rd s) <= 0 -> quiet (rd s) (rd (snd (m s))).
End Quiet.

(** The octets before the first NUL, and those after it. *)
Fixpoint beforeNUL (data : list Z) : list Z :=
  match data with
  | [] => []
  | b :: data' => if b =? 0 then [] else b :: beforeNUL data'
  end.
Fixpoint afterNUL (data : list Z) : list Z :=
  match data with
  | [] => []
  | b :: data' => if b =? 0 then data' else afterNUL data'
  end.

(** The session and the variables after the payload has been written. *)
Definition afterWrite (s1 : Session) (v : rxVars) (data : list Z)
  : Session * rxVars :=
  match data with
  | [] => (s1, v)
  | _ =>
      let off := offset v + Z.of_nat (length data) in
      (setHandler (mkHandler (offers (handler s1))
                             (calls (handler s1)
                              ++ [FileProgress (info v) off])) s1,
       mkRx (mkSink (written (sink v) ++ data) false) (info v) off off 0)
  end.

(** [m] returns, and when it returns a value it has not put input back. *)
Definition tameM {St : Type} (rd : St -> transportReader) {A : Type}
           (m : M St A) : Prop :=
  forall s,
    match m s with
    | (Stuck, _) => False
    | (Err _, _) => True
    | (Ok _, s') => (length (avail (rd s')) <= length (avail (rd s)))%nat
    end.

(** What a subpacket read can return: never [Stuck], and a subpacket only
    after input has been consumed. *)
Definition consumes (s : Session) {A} (out : result A * Session) : Prop :=
  match out with
  | (Stuck, _) => False
  | (Err _, _) => True
  | (Ok _, s') => (length (avail (tr s')) < length (avail (tr s)))%nat
  end.

(** ** Vocabulary of the wire-level statements *)

(** The octets the escape table always protects: DLE, XON, XOFF and ZDLE
    with the eighth bit, DLE, XON, XOFF without it. *)
Definition flowControlb (o : Z) : bool :=
  (o =? 0x10) || (o =? 0x11) || (o =? 0x13)
  || (o =? 0x90) || (o =? 0x91) || (o =? 0x93) || (o =? 0x98).

(** A control character, with or without the eighth bit: bits 5 and 6 are
    both clear. *)
Definition controlb (o : Z) : bool := Z.land o 0x60 =? 0.

(** What an octet of an escaped stream may be, given the writer's mode:
    in Standard mode anything but the flow-control octets, in All mode no
    control character either (ZDLE and CR apart), in Minimal mode any
    octet. *)
Definition wire_okb (mode : EscapeMode) (o : Z) : bool :=
  (0 <=? o) && (o <? 256)
  && match mode with
     | EscapeStandard => negb (flowControlb o)
     | EscapeAll =>
         negb (flowControlb o)
         && (negb (controlb o) || (o =? ZDLE) || (o =? 0x0d) || (o =? 0x8d))
     | EscapeMinimal => true
     end.

(** What [writeEscapedByte] can emit for [b] passes [wire_okb]. *)
Definition byte_wire_okb (mode : EscapeMode) (b : Z) : bool :=
  let e := tget (buildEscapeTableMode mode) b in
  let esc := wire_okb mode ZDLE && wire_okb mode (Z.lxor b 0x40) in
  if e =? escMust then esc
  else if e =? escIfAtCR then esc && wire_okb mode b
  else wire_okb mode b.

(** Does [prev] followed by [w] contain a CR right after an at sign
    (either of them with or without the eighth bit)? *)
Fixpoint atCRb (prev : Z) (w : list Z) : bool :=
  match w with
  | [] => false
  | y :: w' =>
      (((prev =? 0x40) || (prev =? 0xc0)) && ((y =? 0x0d) || (y =? 0x8d)))
      || atCRb y w'
  end.

(** The entry of the escape table as a decision that depends on the last
    octet sent only through [afterAt]. *)
Definition escapes (ea : bool) (b : Z) (afterAt : bool) : bool :=
  let e := tget (buildEscapeTable ea) b in
  (e =? escMust) || ((e =? escIfAtCR) && afterAt).

(** The forms of the hex digit of value [h] that [readHex] accepts: lower
    or upper case, eighth bit clear or set. *)
Definition upperHexDigits : list Z :=
  [0x30; 0x31; 0x32; 0x33; 0x34; 0x35; 0x36; 0x37; 0x38; 0x39;
   0x41; 0x42; 0x43; 0x44; 0x45; 0x46].
Definition digitForms (h : Z) : list Z :=
  let lo := nth (Z.to_nat h) hexDigits 0 in
  let up := nth (Z.to_nat h) upperHexDigits 0 in
  [lo; up; Z.lor lo 0x80; Z.lor up 0x80].

(** The variable-length and run-length encodings [scanForPad] recognises
    and refuses. *)
Definition unsupportedEncb (enc : Z) : bool :=
  (enc =? ZBINR32) || (enc =? ZVBIN) || (enc =? ZVHEX)
  || (enc =? ZVBIN32) || (enc =? ZVBINR32).

(** Everything [scanForPad] can return; [n] bounds the pending input. *)
Definition scanForPad_outcome (n : nat) (out : result Z * transportReader)
  : Prop :=
  match out with
  | (Stuck, _) => False
  | (Err e, tr') =>
      (e = ErrRead /\ avail tr' = [])
      \/ (e = errAbortReceived /\ canCount tr' >= 5)
      \/ (e = errGarbageOverflow /\ garbageCount tr' > garbageMax tr')
      \/ e = ErrWrap "%w: 0x%02x" errUnsupportedEnc
  | (Ok enc, tr') =>
      supportedEncb enc = true /\ canCount tr' = 0 /\ garbageCount tr' = 0
      /\ (length (avail tr') + 3 <= n)%nat
  end.


(** A digit of the base. *)
Definition digitb (base b : Z) : bool := (0x30 <=? b) && (b <? 0x30 + base).

(** * Properties *)

(** ** Bit-level facts *)

Lemma testbit_above (a k m : Z) :
  0 <= a < 2 ^ k -> 0 <= k <= m -> Z.testbit a m = false.
Proof.
  intros Ha Hk.
  rewrite <- (Z.mod_small a (2 ^ k)) by lia.
  apply Z.mod_pow2_bits_high. lia.
Qed.

Lemma below_pow2 (a k : Z) :
  0 <= k -> 0 <= a ->
  (forall m, k <= m -> Z.testbit a m = false) -> a < 2 ^ k.
Proof.
  intros Hk Ha H.
  assert (E : a mod 2 ^ k = a).
  { apply Z.bits_inj'. intros n Hn.
    destruct (Z.lt_ge_cases n k).
    - apply Z.mod_pow2_bits_low; lia.
    - rewrite Z.mod_pow2_bits_high by lia. symmetry. apply H. lia. }
  rewrite <- E. apply Z.mod_pos_bound. apply Z.pow_pos_nonneg; lia.
Qed.

Lemma lxor_below (k a b : Z) :
  0 <= k -> 0 <= a < 2 ^ k -> 0 <= b < 2 ^ k -> 0 <= Z.lxor a b < 2 ^ k.
Proof.
  intros Hk Ha Hb.
  assert (H0 : 0 <= Z.lxor a b) by (apply Z.lxor_nonneg; lia).
  split; [exact H0|].
  apply below_pow2; try lia.
  intros m Hm. rewrite Z.lxor_spec.
  rewrite (testbit_above a k m), (testbit_above b k m) by lia. reflexivity.
Qed.

Lemma lor_below (k a b : Z) :
  0 <= k -> 0 <= a < 2 ^ k -> 0 <= b < 2 ^ k -> 0 <= Z.lor a b < 2 ^ k.
Proof.
  intros Hk Ha Hb.
  assert (H0 : 0 <= Z.lor a b) by (apply Z.lor_nonneg; lia).
  split; [exact H0|].
  apply below_pow2; try lia.
  intros m Hm. rewrite Z.lor_spec.
  rewrite (testbit_above a k m), (testbit_above b k m) by lia. reflexivity.
Qed.

Lemma land_below (k a b : Z) :
  0 <= k -> 0 <= b < 2 ^ k -> 0 <= Z.land a b < 2 ^ k.
Proof.
  intros Hk Hb.
  assert (H0 : 0 <= Z.land a b) by (apply Z.land_nonneg; lia).
  split; [exact H0|].
  apply below_pow2; try lia.
  intros m Hm. rewrite Z.land_spec.
  rewrite (testbit_above b k m) by lia. apply andb_false_r.
Qed.

(** Joining a low part with a shifted high part is an addition. *)
Lemma lor_shiftl_add (k lo hi : Z) :
  0 <= k -> 0 <= lo < 2 ^ k -> 0 <= hi ->
  Z.lor lo (Z.shiftl hi k) = lo + hi * 2 ^ k.
Proof.
  intros Hk Hlo Hhi.
  assert (D : Z.land lo (Z.shiftl hi k) = 0).
  { apply Z.bits_inj'. intros n Hn.
    rewrite Z.land_spec, Z.bits_0, Z.shiftl_spec by lia.
    destruct (Z.lt_ge_cases n k).
    - rewrite (Z.testbit_neg_r hi) by lia. apply andb_false_r.
    - rewrite (testbit_above lo k n) by lia. reflexivity. }
  rewrite <- Z.lxor_lor by exact D.
  rewrite <- Z.add_nocarry_lxor by exact D.
  rewrite Z.shiftl_mul_pow2 by lia. reflexivity.
Qed.

(** A property checked on the 256 octets holds of every byte. *)
Definition allBytes (f : Z -> bool) : bool :=
  forallb f (map Z.of_nat (seq 0 256)).

Lemma allBytes_spec (f : Z -> bool) :
  allBytes f = true -> forall b, is_byte b -> f b = true.
Proof.
  unfold allBytes. intros H b Hb.
  rewrite forallb_forall in H. apply H.
  rewrite in_map_iff. exists (Z.to_nat b). split.
  - apply Z2Nat.id. destruct Hb; assumption.
  - apply in_seq. unfold is_byte in Hb. lia.
Qed.

Lemma u8_byte (x : Z) : is_byte (u8 x).
Proof. unfold is_byte, u8. apply Z.mod_pos_bound. lia. Qed.

Lemma u8_small (x : Z) : is_byte x -> u8 x = x.
Proof. unfold is_byte, u8. intros. apply Z.mod_small. lia. Qed.

(** Closes [Forall is_byte l] for a list of numerals. *)
Ltac all_bytes :=
  cbv [dataBytes zeroData d0 d1 d2 d3];
  repeat (apply Forall_cons; [unfold is_byte; cbv beta; lia|]);
  apply Forall_nil.

(** ** Header accessors *)

Definition header_bytes (h : Header) : Prop :=
  Forall is_byte (dataBytes (Data h)).

Lemma Uint32_sum (b0 b1 b2 b3 : Z) :
  is_byte b0 -> is_byte b1 -> is_byte b2 -> is_byte b3 ->
  Uint32 b0 b1 b2 b3 = b0 + 2 ^ 8 * b1 + 2 ^ 16 * b2 + 2 ^ 24 * b3.
Proof.
  unfold is_byte, Uint32. intros H0 H1 H2 H3.
  rewrite (lor_shiftl_add 8 b0 b1) by lia.
  rewrite (lor_shiftl_add 16 _ b2) by lia.
  rewrite (lor_shiftl_add 24 _ b3) by lia.
  lia.
Qed.

(** C3.  The flag accessors read the payload from its last octet backwards
    (ZF0 is Data[3], ..., ZF3 is Data[0]) while [Position] reads the same
    four octets as a little-endian 32-bit integer whose least significant
    octet is Data[0]. *)
Theorem header_flags_reverse_position (h : Header) :
  header_bytes h ->
  ZF0 h = d3 (Data h) /\ ZF1 h = d2 (Data h) /\
  ZF2 h = d1 (Data h) /\ ZF3 h = d0 (Data h) /\
  Position h = d0 (Data h) + 2 ^ 8 * d1 (Data h)
               + 2 ^ 16 * d2 (Data h) + 2 ^ 24 * d3 (Data h) /\
  Position h = ZF3 h + 2 ^ 8 * ZF2 h + 2 ^ 16 * ZF1 h + 2 ^ 24 * ZF0 h /\
  Position h mod 256 = d0 (Data h).
Proof.
  intros Hb. unfold header_bytes, dataBytes in Hb.
  repeat match goal with
         | H : Forall _ (_ :: _) |- _ => inversion H; clear H; subst
         end.
  assert (E : Position h = d0 (Data h) + 2 ^ 8 * d1 (Data h)
                           + 2 ^ 16 * d2 (Data h) + 2 ^ 24 * d3 (Data h))
    by (unfold Position; apply Uint32_sum; assumption).
  unfold ZF0, ZF1, ZF2, ZF3.
  repeat split; try reflexivity; try exact E.
  rewrite E. unfold is_byte in *.
  replace (d0 (Data h) + 2 ^ 8 * d1 (Data h) + 2 ^ 16 * d2 (Data h)
           + 2 ^ 24 * d3 (Data h))
    with (d0 (Data h) + (d1 (Data h) + 2 ^ 8 * d2 (Data h)
                         + 2 ^ 16 * d3 (Data h)) * 256) by lia.
  rewrite Z.mod_add by lia. apply Z.mod_small. lia.
Qed.

Lemma header_flags_reverse_position_witness :
  let h := SetZF0 0xAA (SetZF1 0xBB (SetZF2 0xCC (SetZF3 0xDD zeroHeader))) in
  header_bytes h /\ ZF0 h = 0xAA /\ ZF3 h = 0xDD /\ Position h = 0xAABBCCDD.
Proof.
  intro h.
  assert (Hb : header_bytes h).
  { unfold header_bytes, is_byte. subst h. cbv [dataBytes Data d0 d1 d2 d3 SetZF0 SetZF1 SetZF2 SetZF3 zeroHeader zeroData Encoding Type_].
    repeat (apply Forall_cons; [lia|]). apply Forall_nil. }
  destruct (header_flags_reverse_position h Hb)
    as (E0 & _ & _ & E3 & EP & _).
  split; [exact Hb|].
  split; [rewrite E0; reflexivity|].
  split; [rewrite E3; reflexivity|].
  rewrite EP; reflexivity.
Defined.

(** ** Monad steps *)

Lemma bind_Ok {St A B} (m : M St A) (k : A -> M St B) s a s' :
  m s = (Ok a, s') -> bind m k s = k a s'.
Proof. unfold bind. intros ->. reflexivity. Qed.

Lemma bind_Err {St A B} (m : M St A) (k : A -> M St B) s e s' :
  m s = (Err e, s') -> bind m k s = (Err e, s').
Proof. unfold bind. intros ->. reflexivity. Qed.

Lemma wrapErr_Ok {St A} msg (m : M St A) s a s' :
  m s = (Ok a, s') -> wrapErr msg m s = (Ok a, s').
Proof. unfold wrapErr. intros ->. reflexivity. Qed.

Lemma onReader_eq {A} (m : RM A) s r tr' :
  m (tr s) = (r, tr') -> onReader m s = (r, setTr tr' s).
Proof. unfold onReader. intros ->. reflexivity. Qed.

(** ** Reader: one octet at a time *)

#[local] Hint Unfold same_counters : core.

Lemma ReadByte_cons tr b rest :
  avail tr = b :: rest ->
  exists tr', ReadByte tr = (Ok b, tr') /\ avail tr' = rest /\
              same_counters tr tr' /\ deadlines tr' = deadlines tr /\
              ds tr' = ds tr /\ timeout tr' = timeout tr.
Proof.
  unfold avail, ReadByte. intros H.
  destruct (r_buf tr) as [|b' buf'] eqn:Eb; simpl in H.
  - rewrite H. eexists. split; [reflexivity|].
    cbn [setInput r_buf r_src canCount garbageCount garbageMax deadlines ds
         timeout].
    rewrite firstn_skipn. auto 10.
  - injection H as -> <-. eexists. split; [reflexivity|]. simpl. auto 10.
Qed.

Lemma ReadByte_nil tr :
  avail tr = [] -> ReadByte tr = (Err ErrRead, tr).
Proof.
  unfold avail, ReadByte. intros H.
  apply app_eq_nil in H. destruct H as [-> ->]. reflexivity.
Qed.

Lemma readByte_cons tr b rest :
  avail tr = b :: rest ->
  exists tr', readByte tr = (Ok b, tr') /\ avail tr' = rest /\
              same_counters tr tr'.
Proof.
  intros H. unfold readByte.
  match goal with |- context [ReadByte ?t] => set (tr1 := t) end.
  assert (H1 : avail tr1 = b :: rest /\ same_counters tr tr1).
  { subst tr1. destruct (_ && _); [|auto]. split; [exact H|]. simpl. auto. }
  destruct H1 as [H1 (C1 & C2 & C3)].
  destruct (ReadByte_cons tr1 b rest H1) as (tr' & E & Ha & (D1 & D2 & D3) & _).
  exists tr'. split; [exact E|]. split; [exact Ha|].
  unfold same_counters. repeat split; congruence.
Qed.

Lemma readByte_nil tr :
  avail tr = [] ->
  exists tr', readByte tr = (Err ErrRead, tr') /\ avail tr' = [] /\
              same_counters tr tr'.
Proof.
  intros H. unfold readByte.
  match goal with |- context [ReadByte ?t] => set (tr1 := t) end.
  assert (H1 : avail tr1 = [] /\ same_counters tr tr1).
  { subst tr1. destruct (_ && _); [|auto]. split; [exact H|]. simpl. auto. }
  destruct H1 as [H1 C]. exists tr1. rewrite (ReadByte_nil tr1 H1). auto.
Qed.

Lemma readByte_strip tr :
  stripXonXoff (snd (readByte tr)) = stripXonXoff tr.
Proof.
  unfold readByte, ReadByte.
  destruct (_ && _); cbn [SetReadDeadline r_buf r_src];
    (destruct (r_buf tr); [destruct (r_src tr)|]); reflexivity.
Qed.

(** A reader that strips skips the XON and XOFF octets [pre]; one that does
    not has nothing to skip. *)
Lemma readByteStrip_loop_skip fuel pre : forall tr b rest,
  (length pre < fuel)%nat ->
  avail tr = pre ++ b :: rest ->
  forallb strippedb pre = true ->
  (pre = [] \/ stripXonXoff tr = true) ->
  stripXonXoff tr && strippedb b = false ->
  exists tr', readByteStrip_loop fuel tr = (Ok b, tr') /\ avail tr' = rest /\
              same_counters tr tr'.
Proof.
  revert fuel.
  induction pre as [|x pre IH]; intros fuel tr b rest Hf Ha Hp Hs Hb.
  - destruct fuel as [|fuel]; [simpl in Hf; lia|].
    simpl in Ha. destruct (readByte_cons tr b rest Ha) as (tr' & E & Ha' & C).
    exists tr'. cbn [readByteStrip_loop].
    rewrite (bind_Ok _ _ _ _ _ E). cbv [bind get].
    pose proof (readByte_strip tr) as F. rewrite E in F. cbn [snd] in F.
    rewrite F. unfold strippedb in Hb. rewrite Hb. auto.
  - destruct fuel as [|fuel]; [simpl in Hf; lia|].
    destruct Hs as [Hs|Hs]; [discriminate|].
    simpl in Ha, Hp. apply andb_true_iff in Hp. destruct Hp as [Hx Hp].
    destruct (readByte_cons tr x _ Ha) as (tr1 & E & Ha1 & (C1 & C2 & C3)).
    cbn [readByteStrip_loop]. rewrite (bind_Ok _ _ _ _ _ E). cbv [bind get].
    pose proof (readByte_strip tr) as F. rewrite E in F. cbn [snd] in F.
    rewrite F, Hs. unfold strippedb in Hx. rewrite Hx. cbn [andb].
    destruct (IH fuel tr1 b rest) as (tr' & E' & Ha' & (D1 & D2 & D3));
      [simpl in Hf; lia | exact Ha1 | exact Hp | right; congruence
      | rewrite F; exact Hb |].
    exists tr'. split; [exact E'|]. split; [exact Ha'|].
    unfold same_counters. repeat split; congruence.
Qed.

Lemma readByteStrip_skip tr pre b rest :
  avail tr = pre ++ b :: rest ->
  stripXonXoff tr = true ->
  forallb strippedb pre = true -> strippedb b = false ->
  exists tr', readByteStrip tr = (Ok b, tr') /\ avail tr' = rest /\
              same_counters tr tr'.
Proof.
  intros Ha Hs Hp Hb. unfold readByteStrip.
  apply (readByteStrip_loop_skip _ pre); try assumption.
  - rewrite Ha, length_app. simpl. lia.
  - right; exact Hs.
  - rewrite Hb. apply andb_false_r.
Qed.

Lemma readByteStrip_cons tr b rest :
  avail tr = b :: rest -> stripXonXoff tr && strippedb b = false ->
  exists tr', readByteStrip tr = (Ok b, tr') /\ avail tr' = rest /\
              same_counters tr tr'.
Proof.
  intros Ha Hb. unfold readByteStrip.
  apply (readByteStrip_loop_skip _ []); auto.
  rewrite Ha. simpl. lia.
Qed.

(** ** The strip flag stays as it was set *)

Lemma steadyM_ret {A} (a : A) : steadyM (ret a).
Proof. intros tr. reflexivity. Qed.

Lemma steadyM_fail {A} e : steadyM (@fail transportReader A e).
Proof. intros tr. reflexivity. Qed.

Lemma steadyM_stuck {A} : steadyM (@stuck transportReader A).
Proof. intros tr. reflexivity. Qed.

Lemma steadyM_get : steadyM (@get transportReader).
Proof. intros tr. reflexivity. Qed.

Lemma steadyM_modify (f : transportReader -> transportReader) :
  (forall tr, stripXonXoff (f tr) = stripXonXoff tr) -> steadyM (modify f).
Proof. intros H tr. apply H. Qed.

Lemma steadyM_bind {A B} (m : RM A) (k : A -> RM B) :
  steadyM m -> (forall a, steadyM (k a)) -> steadyM (bind m k).
Proof.
  intros Hm Hk tr. unfold bind. specialize (Hm tr).
  destruct (m tr) as [[a|e|] tr']; cbn [snd] in *; try exact Hm.
  rewrite Hk. exact Hm.
Qed.

(** Breaks a monadic term down to its reads. *)
Ltac steady_step :=
  match goal with
  | |- steadyM (bind _ _) => apply steadyM_bind; [|intro]
  | |- steadyM (ret _) => apply steadyM_ret
  | |- steadyM (fail _) => apply steadyM_fail
  | |- steadyM stuck => apply steadyM_stuck
  | |- steadyM get => apply steadyM_get
  | |- steadyM (modify _) => apply steadyM_modify; intro; reflexivity
  | |- steadyM (if ?c then _ else _) => destruct c
  | |- steadyM (match ?x with _ => _ end) => destruct x
  end.

Lemma readByte_steady : steadyM readByte.
Proof. exact readByte_strip. Qed.

Lemma readByteStrip_loop_steady fuel : steadyM (readByteStrip_loop fuel).
Proof.
  induction fuel as [|fuel IH]; cbn [readByteStrip_loop].
  - apply steadyM_stuck.
  - repeat first [exact IH | exact readByte_steady | steady_step].
Qed.

Lemma readByteStrip_steady : steadyM readByteStrip.
Proof. intros tr. apply readByteStrip_loop_steady. Qed.

Lemma zdlRead_loop_steady fuel : steadyM (zdlRead_loop fuel).
Proof.
  induction fuel as [|fuel IH]; cbn [zdlRead_loop].
  - apply steadyM_stuck.
  - unfold zdlEscape_body.
    repeat first [exact IH | exact readByteStrip_steady | steady_step].
Qed.

Lemma zdlRead_steady : steadyM zdlRead.
Proof. intros tr. apply zdlRead_loop_steady. Qed.

Lemma zdlRead_strip tr r tr' :
  zdlRead tr = (r, tr') -> stripXonXoff tr' = stripXonXoff tr.
Proof. intros E. pose proof (zdlRead_steady tr) as H. rewrite E in H. exact H. Qed.

Lemma countGarbage_steady : steadyM countGarbage.
Proof. unfold countGarbage. repeat steady_step. Qed.

Lemma scanForPad_loop_steady fuel : steadyM (scanForPad_loop fuel).
Proof.
  induction fuel as [|fuel IH]; cbn [scanForPad_loop].
  - apply steadyM_stuck.
  - repeat first [exact IH | exact readByte_steady
                 | exact countGarbage_steady | steady_step].
Qed.

Lemma scanForPad_strip tr r tr' :
  scanForPad tr = (r, tr') -> stripXonXoff tr' = stripXonXoff tr.
Proof.
  intros E. unfold scanForPad in E.
  pose proof (scanForPad_loop_steady (S (length (avail tr)))
                (setCanCount 0 tr)) as H.
  rewrite E in H. exact H.
Qed.

(** ** Reader: ZDLE decoding *)

Lemma zdlEscape_body_eq rec :
  zdlEscape_body rec = (c <- readByteStrip ;; afterZDLE rec c).
Proof. reflexivity. Qed.

Lemma zdlRead_raw tr b rest :
  avail tr = b :: rest -> raw_okb (stripXonXoff tr) b = true ->
  exists tr', zdlRead tr = (Ok (b, 0), tr') /\ avail tr' = rest /\
              canCount tr' = 0.
Proof.
  intros Ha Hb. unfold raw_okb in Hb.
  apply andb_true_iff in Hb. destruct Hb as [Hz Hs].
  apply negb_true_iff in Hz, Hs.
  destruct (readByteStrip_cons tr b rest Ha Hs) as (tr1 & E & Ha1 & _).
  unfold zdlRead. rewrite Ha. cbn [length zdlRead_loop].
  rewrite (bind_Ok _ _ _ _ _ E). rewrite Hz.
  eexists. split; [reflexivity|]. split; [exact Ha1 | reflexivity].
Qed.

(** After a ZDLE has been counted with the counter still below five,
    [zdlRead] hands the next octet to the body of [zdlEscape]. *)
Lemma zdlRead_ZDLE tr c rest :
  avail tr = ZDLE :: c :: rest -> canCount tr < 4 -> strippedb c = false ->
  exists tr1,
    zdlRead tr = afterZDLE (zdlRead_loop (length (avail tr))) c tr1 /\
    avail tr1 = rest /\ canCount tr1 = canCount tr + 1.
Proof.
  intros Ha Hk Hs.
  assert (Hz : stripXonXoff tr && strippedb ZDLE = false)
    by apply andb_false_r.
  destruct (readByteStrip_cons tr ZDLE _ Ha Hz) as (tr1 & E & Ha1 & (C1 & _)).
  unfold zdlRead. cbn [zdlRead_loop].
  rewrite (bind_Ok _ _ _ _ _ E). rewrite Z.eqb_refl.
  cbv [bind modify get]. cbn [canCount setCanCount].
  assert (G : (canCount tr1 + 1 >=? 5) = false)
    by (rewrite Z.geb_leb; apply Z.leb_gt; lia).
  rewrite G.
  set (tr2 := setCanCount (canCount tr1 + 1) tr1).
  assert (Ha2 : avail tr2 = c :: rest) by exact Ha1.
  assert (Hs2 : stripXonXoff tr2 && strippedb c = false)
    by (rewrite Hs; apply andb_false_r).
  destruct (readByteStrip_cons tr2 c rest Ha2 Hs2)
    as (tr3 & E3 & Ha3 & (D1 & _)).
  exists tr3. split; [|split; [exact Ha3|]].
  - rewrite zdlEscape_body_eq. rewrite (bind_Ok _ _ _ _ _ E3). reflexivity.
  - rewrite D1. subst tr2. cbn [canCount setCanCount]. lia.
Qed.

Lemma zdlRead_esc tr b rest :
  avail tr = ZDLE :: Z.lxor b 0x40 :: rest -> canCount tr < 4 ->
  esc_okb b = true ->
  exists tr', zdlRead tr = (Ok (b, 0), tr') /\ avail tr' = rest /\
              canCount tr' = 0.
Proof.
  intros Ha Hk Hb. unfold esc_okb in Hb. cbv zeta in Hb.
  repeat (apply andb_true_iff in Hb; destruct Hb as [Hb ?]).
  repeat match goal with H : negb _ = true |- _ =>
                         apply negb_true_iff in H end.
  destruct (zdlRead_ZDLE tr _ rest Ha Hk Hb) as (tr1 & E & Ha1 & _).
  rewrite E. unfold afterZDLE.
  match goal with H : endTypeb _ = false |- _ =>
                  unfold endTypeb in H; rewrite H end.
  repeat match goal with H : _ = _ |- _ => rewrite H end.
  match goal with H : (_ =? b) = true |- _ => apply Z.eqb_eq in H; rewrite H end.
  eexists. split; [reflexivity|]. split; [exact Ha1 | reflexivity].
Qed.

Lemma zdlRead_end tr e rest :
  avail tr = ZDLE :: e :: rest -> canCount tr < 4 -> is_endType e ->
  exists tr', zdlRead tr = (Ok (0, e), tr') /\ avail tr' = rest /\
              canCount tr' = 0.
Proof.
  intros Ha Hk He.
  assert (Hs : strippedb e = false /\ endTypeb e = true)
    by (destruct He as [-> | [-> | [-> | ->]]]; split; reflexivity).
  destruct Hs as [Hs Hend].
  destruct (zdlRead_ZDLE tr _ rest Ha Hk Hs) as (tr1 & E & Ha1 & _).
  rewrite E. unfold afterZDLE. unfold endTypeb in Hend. rewrite Hend.
  eexists. split; [reflexivity|]. split; [exact Ha1 | reflexivity].
Qed.

(** ** Writer: what [writeEscaped] puts on the wire *)

Lemma table_ok mode strip b :
  (mode = EscapeMinimal -> strip = false) -> is_byte b ->
  table_okb strip (buildEscapeTableMode mode) b = true.
Proof.
  intros Hm. revert b. apply allBytes_spec.
  destruct mode; [| |rewrite (Hm eq_refl)]; destruct strip;
    vm_compute; reflexivity.
Qed.

Lemma escaped_as_app st w1 d1 w2 d2 :
  escaped_as st w1 d1 -> escaped_as st w2 d2 ->
  escaped_as st (w1 ++ w2) (d1 ++ d2).
Proof.
  induction 1; intros H2; simpl; [exact H2 | |]; constructor; auto.
Qed.

Lemma escaped_as_length st w d :
  escaped_as st w d -> (length d <= length w)%nat.
Proof. induction 1; simpl; lia. Qed.

Lemma writer_for_intro tw tr :
  writer_wf tw -> reads_from tw tr -> writer_for (stripXonXoff tr) tw.
Proof. intros H1 H2. split; assumption. Qed.

Lemma writeEscapedByte_spec st tw b :
  writer_for st tw -> is_byte b ->
  exists w, w_out (writeEscapedByte b tw) = w_out tw ++ w /\
            escaped_as st w [b] /\ writer_for st (writeEscapedByte b tw).
Proof.
  intros [Hwf Hm] Hb. pose proof (table_ok (escapeMode tw) st b Hm Hb) as Hok.
  unfold table_okb in Hok. cbv zeta in Hok.
  unfold writeEscapedByte, escapeRequired. cbv zeta.
  rewrite Hwf.
  destruct (tget (buildEscapeTableMode (escapeMode tw)) b =? escMust).
  - exists [ZDLE; Z.lxor b 0x40]. cbn [escapeByte w_out].
    split; [reflexivity|]. split; [|split; [reflexivity | exact Hm]].
    apply ea_esc; [exact Hok | constructor].
  - destruct (tget (buildEscapeTableMode (escapeMode tw)) b =? escIfAtCR).
    + apply andb_true_iff in Hok. destruct Hok as [He Hr].
      destruct ((lastSent tw =? 0x40) || (lastSent tw =? 0xc0)).
      * exists [ZDLE; Z.lxor b 0x40]. cbn [escapeByte w_out].
        split; [reflexivity|]. split; [|split; [reflexivity | exact Hm]].
        apply ea_esc; [exact He | constructor].
      * exists [b]. cbn [w_out]. split; [reflexivity|].
        split; [|split; [reflexivity | exact Hm]].
        apply ea_raw; [exact Hr | constructor].
    + exists [b]. cbn [w_out]. split; [reflexivity|].
      split; [|split; [reflexivity | exact Hm]].
      apply ea_raw; [exact Hok | constructor].
Qed.

Lemma writeEscaped_spec st data : forall tw,
  writer_for st tw -> Forall is_byte data ->
  exists w, w_out (writeEscaped data tw) = w_out tw ++ w /\
            escaped_as st w data /\ writer_for st (writeEscaped data tw).
Proof.
  induction data as [|b data IH]; intros tw Hwf Hd.
  - exists []. simpl. rewrite app_nil_r. split; [reflexivity|].
    split; [constructor | exact Hwf].
  - inversion Hd as [|? ? Hb Hd']; subst.
    destruct (writeEscapedByte_spec st tw b Hwf Hb) as (w1 & E1 & A1 & Hwf1).
    destruct (IH _ Hwf1 Hd') as (w2 & E2 & A2 & Hwf2).
    exists (w1 ++ w2). unfold writeEscaped in *. cbn [fold_left].
    rewrite E2, E1, app_assoc. split; [reflexivity|]. split; [|exact Hwf2].
    apply (escaped_as_app st w1 [b] w2 data A1 A2).
Qed.

Lemma writeByte_spec st tw b :
  w_out (writeByte b tw) = w_out tw ++ [b] /\
  (writer_for st tw -> writer_for st (writeByte b tw)).
Proof. split; [reflexivity | intros H; exact H]. Qed.

Lemma writeRaw_spec st tw data :
  w_out (writeRaw data tw) = w_out tw ++ data /\
  (writer_for st tw -> writer_for st (writeRaw data tw)).
Proof. split; [reflexivity | intros H; exact H]. Qed.

Lemma newTransportWriter_wf mode : writer_wf (newTransportWriter mode).
Proof. reflexivity. Qed.

Lemma setEscapeMode_wf mode tw : writer_wf (setEscapeMode mode tw).
Proof. reflexivity. Qed.

(** Two sessions created with the same escape mode go together: the
    reader of the one is set up for what the writer of the other sends.
    So are the reader and the writer of one session. *)
Lemma NewSession_reads_from src1 d1 h1 c1 src2 d2 h2 c2 :
  Config.EscapeMode (cfg (NewSession src1 d1 h1 c1))
  = Config.EscapeMode (cfg (NewSession src2 d2 h2 c2)) ->
  writer_wf (tw (NewSession src1 d1 h1 c1))
  /\ reads_from (tw (NewSession src1 d1 h1 c1))
                (tr (NewSession src2 d2 h2 c2)).
Proof.
  unfold NewSession, reads_from.
  cbn [tw tr cfg newTransportWriter newTransportReader escapeMode
       stripXonXoff].
  intros H. split; [reflexivity|]. intros Hm. rewrite <- H, Hm. reflexivity.
Qed.

Lemma emitted_app tw tw' x :
  w_out tw' = w_out tw ++ x -> emitted tw tw' = x.
Proof.
  unfold emitted. intros ->. rewrite skipn_app, skipn_all, Nat.sub_diag.
  reflexivity.
Qed.

(** ** Reading back an escaped stream *)

Lemma zdlRead_escaped_cons w b d tr rest :
  escaped_as (stripXonXoff tr) w (b :: d) -> avail tr = w ++ rest ->
  canCount tr < 4 ->
  exists tr' w', zdlRead tr = (Ok (b, 0), tr') /\ avail tr' = w' ++ rest /\
                 escaped_as (stripXonXoff tr') w' d /\ canCount tr' = 0.
Proof.
  intros Hw Ha Hk. inversion Hw as [|? w' ? Hr Hw'|? w' ? He Hw']; subst.
  - destruct (zdlRead_raw tr b (w' ++ rest) Ha Hr) as (tr' & E & Ha' & C).
    exists tr', w'. rewrite (zdlRead_strip _ _ _ E). auto.
  - destruct (zdlRead_esc tr b (w' ++ rest) Ha Hk He) as (tr' & E & Ha' & C).
    exists tr', w'. rewrite (zdlRead_strip _ _ _ E). auto.
Qed.

(** ** Session plumbing *)

Lemma setTr_setTr r1 r2 s : setTr r2 (setTr r1 s) = setTr r2 s.
Proof. reflexivity. Qed.

Lemma setTr_tr s : setTr (tr s) s = s.
Proof. destruct s; reflexivity. Qed.

Lemma zdlReadNoEnd_Ok m1 m2 s b tr' :
  zdlRead (tr s) = (Ok (b, 0), tr') ->
  zdlReadNoEnd m1 m2 s = (Ok b, setTr tr' s).
Proof.
  intros E. unfold zdlReadNoEnd.
  rewrite (bind_Ok _ _ _ _ _ (wrapErr_Ok _ _ _ _ _ (onReader_eq _ _ _ _ E))).
  reflexivity.
Qed.

Lemma zdlReadNoEnd_escaped m1 m2 w b d s rest :
  escaped_as (stripXonXoff (tr s)) w (b :: d) ->
  avail (tr s) = w ++ rest -> canCount (tr s) < 4 ->
  exists tr' w', zdlReadNoEnd m1 m2 s = (Ok b, setTr tr' s) /\
                 stripXonXoff tr' = stripXonXoff (tr s) /\
                 avail tr' = w' ++ rest /\
                 escaped_as (stripXonXoff tr') w' d /\
                 canCount tr' = 0.
Proof.
  intros Hw Ha Hk.
  destruct (zdlRead_escaped_cons w b d (tr s) rest Hw Ha Hk)
    as (tr' & w' & E & Ha' & Hw' & C).
  exists tr', w'. split; [apply zdlReadNoEnd_Ok; exact E|].
  split; [exact (zdlRead_strip _ _ _ E) | auto].
Qed.

Lemma timesM_escaped m1 m2 d : forall w s rest,
  escaped_as (stripXonXoff (tr s)) w d ->
  avail (tr s) = w ++ rest -> canCount (tr s) < 4 ->
  exists tr', timesM (length d) (zdlReadNoEnd m1 m2) s = (Ok d, setTr tr' s)
              /\ stripXonXoff tr' = stripXonXoff (tr s)
              /\ avail tr' = rest
              /\ canCount tr'
                 = match d with [] => canCount (tr s) | _ => 0 end.
Proof.
  induction d as [|b d IH]; intros w s rest Hw Ha Hk.
  - inversion Hw; subst. exists (tr s). rewrite setTr_tr. auto.
  - destruct (zdlReadNoEnd_escaped m1 m2 w b d s rest Hw Ha Hk)
      as (tr1 & w1 & E1 & F1 & Ha1 & Hw1 & C1).
    destruct (IH w1 (setTr tr1 s) rest Hw1 Ha1)
      as (tr2 & E2 & F2 & Ha2 & C2).
    { cbn [tr setTr]. lia. }
    exists tr2. cbn [length timesM].
    rewrite (bind_Ok _ _ _ _ _ E1), (bind_Ok _ _ _ _ _ E2).
    rewrite setTr_setTr. split; [reflexivity|].
    split; [rewrite F2; exact F1|]. split; [exact Ha2|].
    rewrite C2. cbn [tr setTr]. destruct d; [exact C1 | reflexivity].
Qed.

(** ** Subpackets *)

Lemma recombine16 (c : Z) :
  0 <= c < 65536 ->
  Z.lor (u16 (Z.shiftl (u8 (Z.shiftr c 8)) 8)) (u8 (Z.land c 0xff)) = c.
Proof.
  intros Hc. unfold u8, u16.
  change 0xff with (Z.ones 8). rewrite Z.land_ones by lia.
  rewrite Z.shiftr_div_pow2, Z.shiftl_mul_pow2 by lia.
  change (2 ^ 8) with 256.
  assert (H1 : 0 <= c / 256 < 256)
    by (split; [apply Z.div_pos; lia | apply Z.div_lt_upper_bound; lia]).
  rewrite (Z.mod_small (c / 256)) by lia.
  rewrite (Z.mod_small (c / 256 * 256)) by lia.
  rewrite (Z.mod_small (c mod 256)) by (pose proof (Z.mod_pos_bound c 256); lia).
  rewrite Z.lor_comm.
  rewrite <- (Z.shiftl_mul_pow2 _ 8) by lia.
  rewrite lor_shiftl_add; [| lia | change (2 ^ 8) with 256;
                             apply Z.mod_pos_bound; lia | lia].
  change (2 ^ 8) with 256. pose proof (Z.div_mod c 256). lia.
Qed.

Lemma Uint32_PutUint32 (v : Z) :
  0 <= v < 4294967296 ->
  Uint32 (nth 0 (PutUint32 v) 0) (nth 1 (PutUint32 v) 0)
         (nth 2 (PutUint32 v) 0) (nth 3 (PutUint32 v) 0) = v.
Proof.
  intros Hv. cbn [PutUint32 nth].
  rewrite Uint32_sum by apply u8_byte.
  unfold u8. rewrite !Z.shiftr_div_pow2 by lia.
  change (2 ^ 8) with 256. change (2 ^ 16) with 65536.
  change (2 ^ 24) with 16777216.
  Z.div_mod_to_equations. lia.
Qed.

Lemma PutUint32_bytes v : Forall is_byte (PutUint32 v).
Proof. unfold PutUint32. repeat (apply Forall_cons; [apply u8_byte|]). constructor. Qed.

Section Subpacket.
Context {crc : CRC} (laws : CRCLaws crc).

Lemma subpacketCRC_bytes m data e : Forall is_byte (subpacketCRC m data e).
Proof.
  unfold subpacketCRC. destruct m; [apply PutUint32_bytes|].
  cbv zeta. repeat (apply Forall_cons; [apply u8_byte|]). constructor.
Qed.

Lemma sendSubpacket_wire st s data e :
  writer_for st (tw s) -> Forall is_byte data ->
  exists wd wc,
    emitted (tw s) (tw (sendSubpacket data e s))
    = wd ++ [ZDLE; e] ++ wc ++ (if e =? ZCRCW then [XON] else [])
    /\ escaped_as st wd data
    /\ escaped_as st wc (subpacketCRC (useCRC32 s) data e)
    /\ writer_for st (tw (sendSubpacket data e s)).
Proof.
  intros Hwf Hd.
  destruct (writeEscaped_spec st data (tw s) Hwf Hd) as (wd & Ed & Ad & Wd).
  set (t1 := writeByte e (writeByte ZDLE (writeEscaped data (tw s)))).
  assert (E1 : w_out t1 = w_out (tw s) ++ wd ++ [ZDLE; e]).
  { subst t1. cbn [writeByte w_out]. rewrite Ed, <- !app_assoc. reflexivity. }
  assert (W1 : writer_for st t1) by exact Wd.
  pose proof (subpacketCRC_bytes (useCRC32 s) data e) as Hc.
  assert (H2 : exists t2 wc,
             w_out t2 = w_out t1 ++ wc
             /\ escaped_as st wc (subpacketCRC (useCRC32 s) data e)
             /\ writer_for st t2
             /\ tw (sendSubpacket data e s)
                = Flush (if e =? ZCRCW then writeByte XON t2 else t2)).
  { unfold subpacketCRC in *. unfold sendSubpacket.
    destruct (useCRC32 s) eqn:Em.
    - destruct (writeEscaped_spec st _ t1 W1 Hc) as (wc & Ec & Ac & Wc).
      eexists _, wc. split; [exact Ec|]. split; [exact Ac|].
      split; [exact Wc|]. cbv zeta.
      destruct (e =? ZCRCW); reflexivity.
    - cbv zeta in Hc. inversion Hc as [|? ? Hh Hc']; subst.
      inversion Hc' as [|? ? Hl _]; subst.
      destruct (writeEscapedByte_spec st t1 _ W1 Hh) as (wh & Eh & Ah & Wh).
      destruct (writeEscapedByte_spec st _ _ Wh Hl) as (wl & El & Al & Wl).
      eexists _, (wh ++ wl). split; [rewrite El, Eh, app_assoc; reflexivity|].
      split; [exact (escaped_as_app _ _ _ _ _ Ah Al)|].
      split; [exact Wl|]. cbv zeta.
      destruct (e =? ZCRCW); reflexivity. }
  destruct H2 as (t2 & wc & E2 & Ac & W2 & Etw).
  exists wd, wc. rewrite Etw. unfold Flush.
  split; [|split; [exact Ad | split; [exact Ac|]]].
  - apply emitted_app.
    destruct (e =? ZCRCW); cbn [writeByte w_out]; rewrite E2, E1;
      rewrite <- ?app_assoc; cbn [app]; rewrite ?app_nil_r; reflexivity.
  - destruct (e =? ZCRCW); exact W2.
Qed.

Lemma recvSubpacketCRC16_loop_data maxLen d : forall w acc s rest fuel,
  escaped_as (stripXonXoff (tr s)) w d ->
  avail (tr s) = w ++ rest -> canCount (tr s) < 4 ->
  Z.of_nat (length acc + length d) <= maxLen ->
  exists tr', avail tr' = rest /\ stripXonXoff tr' = stripXonXoff (tr s) /\
    canCount tr' < 4 /\
    recvSubpacketCRC16_loop (length d + fuel) acc maxLen s
    = recvSubpacketCRC16_loop fuel (acc ++ d) maxLen (setTr tr' s).
Proof.
  induction d as [|b d IH]; intros w acc s rest fuel Hw Ha Hk Hl.
  - inversion Hw; subst. exists (tr s).
    rewrite setTr_tr, app_nil_r. auto.
  - destruct (zdlRead_escaped_cons w b d (tr s) rest Hw Ha Hk)
      as (tr1 & w1 & E1 & Ha1 & Hw1 & C1).
    destruct (IH w1 (acc ++ [b]) (setTr tr1 s) rest fuel Hw1 Ha1)
      as (tr2 & Ha2 & F2 & C2 & E2).
    { cbn [tr setTr]. lia. }
    { rewrite length_app. cbn [length] in *. lia. }
    exists tr2. split; [exact Ha2|].
    split; [rewrite F2; cbn [tr setTr]; exact (zdlRead_strip _ _ _ E1)|].
    split; [exact C2|].
    cbn [length Nat.add recvSubpacketCRC16_loop].
    rewrite (bind_Ok _ _ _ _ _
               (wrapErr_Ok _ _ _ _ _ (onReader_eq _ _ _ _ E1))).
    cbn [negb Z.eqb].
    assert (G : (Z.of_nat (length acc) >=? maxLen) = false).
    { rewrite Z.geb_leb. apply Z.leb_gt. cbn [length] in Hl. lia. }
    rewrite G, E2, setTr_setTr, <- app_assoc. reflexivity.
Qed.

Lemma recvSubpacketCRC32_loop_data maxLen d : forall w acc s rest fuel,
  escaped_as (stripXonXoff (tr s)) w d ->
  avail (tr s) = w ++ rest -> canCount (tr s) < 4 ->
  Z.of_nat (length acc + length d) <= maxLen ->
  exists tr', avail tr' = rest /\ stripXonXoff tr' = stripXonXoff (tr s) /\
    canCount tr' < 4 /\
    recvSubpacketCRC32_loop (length d + fuel) acc maxLen s
    = recvSubpacketCRC32_loop fuel (acc ++ d) maxLen (setTr tr' s).
Proof.
  induction d as [|b d IH]; intros w acc s rest fuel Hw Ha Hk Hl.
  - inversion Hw; subst. exists (tr s).
    rewrite setTr_tr, app_nil_r. auto.
  - destruct (zdlRead_escaped_cons w b d (tr s) rest Hw Ha Hk)
      as (tr1 & w1 & E1 & Ha1 & Hw1 & C1).
    destruct (IH w1 (acc ++ [b]) (setTr tr1 s) rest fuel Hw1 Ha1)
      as (tr2 & Ha2 & F2 & C2 & E2).
    { cbn [tr setTr]. lia. }
    { rewrite length_app. cbn [length] in *. lia. }
    exists tr2. split; [exact Ha2|].
    split; [rewrite F2; cbn [tr setTr]; exact (zdlRead_strip _ _ _ E1)|].
    split; [exact C2|].
    cbn [length Nat.add recvSubpacketCRC32_loop].
    rewrite (bind_Ok _ _ _ _ _
               (wrapErr_Ok _ _ _ _ _ (onReader_eq _ _ _ _ E1))).
    cbn [negb Z.eqb].
    assert (G : (Z.of_nat (length acc) >=? maxLen) = false).
    { rewrite Z.geb_leb. apply Z.leb_gt. cbn [length] in Hl. lia. }
    rewrite G, E2, setTr_setTr, <- app_assoc. reflexivity.
Qed.

Lemma endType_nonzero e : is_endType e -> (e =? 0) = false.
Proof. intros [-> | [-> | [-> | ->]]]; reflexivity. Qed.

(** The end marker and the checksum behind it. *)
Lemma recvSubpacketCRC16_loop_end maxLen wc acc e s rest fuel :
  is_endType e ->
  escaped_as (stripXonXoff (tr s)) wc (subpacketCRC false acc e) ->
  avail (tr s) = [ZDLE; e] ++ wc ++ rest -> canCount (tr s) < 4 ->
  exists tr', avail tr' = rest /\ canCount tr' = 0 /\
    recvSubpacketCRC16_loop (S fuel) acc maxLen s
    = (Ok (acc, e), setTr tr' s).
Proof.
  intros He Hw Ha Hk.
  destruct (zdlRead_end (tr s) e (wc ++ rest) Ha Hk He)
    as (tr1 & E1 & Ha1 & C1).
  rewrite <- (zdlRead_strip _ _ _ E1) in Hw.
  unfold subpacketCRC in Hw. cbv zeta in Hw.
  destruct (zdlReadNoEnd_escaped
              "subpacket CRC read"
              "zmodem: unexpected frame end in subpacket CRC"
              wc _ _ (setTr tr1 s) rest Hw Ha1)
    as (tr2 & w2 & E2 & _ & Ha2 & Hw2 & C2).
  { cbn [tr setTr]. lia. }
  destruct (zdlReadNoEnd_escaped
              "subpacket CRC read"
              "zmodem: unexpected frame end in subpacket CRC"
              w2 _ _ (setTr tr2 s) rest Hw2 Ha2)
    as (tr3 & w3 & E3 & _ & Ha3 & Hw3 & C3).
  { cbn [tr setTr]. lia. }
  inversion Hw3; subst.
  exists tr3. split; [exact Ha3|]. split; [exact C3|].
  cbn [recvSubpacketCRC16_loop].
  rewrite (bind_Ok _ _ _ _ _
             (wrapErr_Ok _ _ _ _ _ (onReader_eq _ _ _ _ E1))).
  rewrite (endType_nonzero e He). cbn [negb].
  rewrite (bind_Ok _ _ _ _ _ E2). rewrite setTr_setTr in E3.
  rewrite (bind_Ok _ _ _ _ _ E3). cbv zeta.
  rewrite recombine16 by apply (crc16Finalize_u16 crc laws).
  rewrite Z.eqb_refl. reflexivity.
Qed.

Lemma recvSubpacketCRC32_loop_end maxLen wc acc e s rest fuel :
  is_endType e ->
  escaped_as (stripXonXoff (tr s)) wc (subpacketCRC true acc e) ->
  avail (tr s) = [ZDLE; e] ++ wc ++ rest -> canCount (tr s) < 4 ->
  exists tr', avail tr' = rest /\ canCount tr' = 0 /\
    recvSubpacketCRC32_loop (S fuel) acc maxLen s
    = (Ok (acc, e), setTr tr' s).
Proof.
  intros He Hw Ha Hk.
  destruct (zdlRead_end (tr s) e (wc ++ rest) Ha Hk He)
    as (tr1 & E1 & Ha1 & C1).
  rewrite <- (zdlRead_strip _ _ _ E1) in Hw.
  unfold subpacketCRC in Hw.
  destruct (timesM_escaped
              "subpacket CRC32 read"
              "zmodem: unexpected frame end in subpacket CRC32"
              _ wc (setTr tr1 s) rest Hw Ha1)
    as (tr2 & E2 & _ & Ha2 & C2).
  { cbn [tr setTr]. lia. }
  exists tr2. split; [exact Ha2|]. split; [exact C2|].
  cbn [recvSubpacketCRC32_loop].
  rewrite (bind_Ok _ _ _ _ _
             (wrapErr_Ok _ _ _ _ _ (onReader_eq _ _ _ _ E1))).
  rewrite (endType_nonzero e He). cbn [negb].
  change (length (PutUint32 (crc32Update (crc32Update 0 acc) [e])))
    with 4%nat in E2.
  rewrite (bind_Ok _ _ _ _ _ E2). cbv zeta.
  rewrite Uint32_PutUint32 by apply (crc32Update_u32 crc laws).
  rewrite Z.eqb_refl, setTr_setTr. reflexivity.
Qed.

End Subpacket.

Section SubpacketRoundTrip.
Context {crc : CRC} (laws : CRCLaws crc).

Lemma recvSubpacket_wire rcv maxLen wd wc P e rest :
  is_endType e ->
  escaped_as (stripXonXoff (tr rcv)) wd P ->
  escaped_as (stripXonXoff (tr rcv)) wc (subpacketCRC (useCRC32 rcv) P e) ->
  Z.of_nat (length P) <= maxLen ->
  canCount (tr rcv) < 4 ->
  avail (tr rcv) = wd ++ [ZDLE; e] ++ wc ++ rest ->
  exists tr', recvSubpacket maxLen rcv = (Ok (P, e), setTr tr' rcv)
              /\ avail tr' = rest /\ canCount tr' = 0.
Proof.
  intros He Hd Hc Hl Hk Ha.
  assert (Hfuel : exists fuel,
             S (length (avail (tr rcv))) = (length P + S fuel)%nat).
  { exists (length (avail (tr rcv)) - length P)%nat.
    pose proof (escaped_as_length _ _ _ Hd). rewrite Ha in *.
    rewrite length_app in *. lia. }
  destruct Hfuel as (fuel & Hfuel).
  unfold recvSubpacket. destruct (useCRC32 rcv) eqn:Em.
  - unfold recvSubpacketCRC32. rewrite Hfuel.
    destruct (recvSubpacketCRC32_loop_data maxLen P wd [] rcv _ (S fuel)
                Hd Ha Hk) as (tr1 & Ha1 & F1 & C1 & E1); [cbn [length]; lia|].
    rewrite E1. cbn [app]. rewrite <- F1 in Hc.
    destruct (recvSubpacketCRC32_loop_end laws maxLen wc P e (setTr tr1 rcv)
                rest fuel He Hc Ha1) as (tr2 & Ha2 & C2 & E2);
      [cbn [tr setTr]; lia|].
    exists tr2. rewrite E2, setTr_setTr. auto.
  - unfold recvSubpacketCRC16. rewrite Hfuel.
    destruct (recvSubpacketCRC16_loop_data maxLen P wd [] rcv _ (S fuel)
                Hd Ha Hk) as (tr1 & Ha1 & F1 & C1 & E1); [cbn [length]; lia|].
    rewrite E1. cbn [app]. rewrite <- F1 in Hc.
    destruct (recvSubpacketCRC16_loop_end laws maxLen wc P e (setTr tr1 rcv)
                rest fuel He Hc Ha1) as (tr2 & Ha2 & C2 & E2);
      [cbn [tr setTr]; lia|].
    exists tr2. rewrite E2, setTr_setTr. auto.
Qed.

(** C1.  Whatever the payload [P] (empty, all ZDLE, any octets), the end
    type [E], the escape mode of the sending writer (Standard, All or
    Minimal) and the CRC mode shared by both ends: a receiver whose
    pending input starts with the octets [sendSubpacket P E] has put on
    the wire gets back exactly [(P, E)] from [recvSubpacket], provided
    [maxLen] admits [P] and the CAN counter leaves room for one ZDLE (it
    is 0 after every successful read).  The receiver's reader is the one
    that goes with the sender's mode, as [NewSession] sets it up: for a
    Minimal sender it does not strip XON/XOFF; for the two other modes it
    may or may not.  What follows the subpacket stays in the input; for
    ZCRCW that is the trailing XON. *)
Theorem subpacket_roundtrip (snd rcv : Session) (P : list Z)
        (E maxLen : Z) (rest : list Z) :
  writer_wf (tw snd) -> reads_from (tw snd) (tr rcv) ->
  Forall is_byte P -> is_endType E ->
  useCRC32 rcv = useCRC32 snd ->
  Z.of_nat (length P) <= maxLen ->
  canCount (tr rcv) < 4 ->
  avail (tr rcv) = emitted (tw snd) (tw (sendSubpacket P E snd)) ++ rest ->
  exists tr',
    recvSubpacket maxLen rcv = (Ok (P, E), setTr tr' rcv)
    /\ avail tr' = (if E =? ZCRCW then [XON] else []) ++ rest
    /\ canCount tr' = 0.
Proof.
  intros Hwf Hrd HP HE Hm Hl Hk Ha.
  destruct (sendSubpacket_wire (stripXonXoff (tr rcv)) snd P E
              (writer_for_intro _ _ Hwf Hrd) HP)
    as (wd & wc & Ew & Ad & Ac & _).
  rewrite Ew in Ha. rewrite <- Hm in Ac.
  apply (recvSubpacket_wire rcv maxLen wd wc P E _ HE Ad Ac Hl Hk).
  rewrite Ha, <- !app_assoc. reflexivity.
Qed.

End SubpacketRoundTrip.

(** ** The CRC instance satisfies the laws *)

Lemma testbit_ones_lt (k n : Z) :
  0 <= k -> 0 <= n -> Z.testbit (Z.ones k) n = (n <? k).
Proof.
  intros Hk Hn. rewrite Z.testbit_ones by lia.
  destruct (Z.leb_spec 0 n); [reflexivity | lia].
Qed.

Lemma testbit_u8 (x n : Z) :
  0 <= n -> Z.testbit (u8 x) n = (n <? 8) && Z.testbit x n.
Proof.
  intros Hn. unfold u8. change 256 with (2 ^ 8).
  destruct (Z.ltb_spec n 8).
  - rewrite Z.mod_pow2_bits_low by lia. reflexivity.
  - rewrite Z.mod_pow2_bits_high by lia. reflexivity.
Qed.

Lemma testbit_u16 (x n : Z) :
  0 <= n -> Z.testbit (u16 x) n = (n <? 16) && Z.testbit x n.
Proof.
  intros Hn. unfold u16. change 65536 with (2 ^ 16).
  destruct (Z.ltb_spec n 16).
  - rewrite Z.mod_pow2_bits_low by lia. reflexivity.
  - rewrite Z.mod_pow2_bits_high by lia. reflexivity.
Qed.

Lemma xor_join (k lo hi : Z) :
  0 <= k -> 0 <= lo < 2 ^ k -> 0 <= hi ->
  Z.lxor lo (Z.shiftl hi k) = lo + hi * 2 ^ k.
Proof.
  intros Hk Hlo Hhi. rewrite <- (lor_shiftl_add k lo hi) by assumption.
  apply Z.lxor_lor. apply Z.bits_inj'. intros n Hn.
  rewrite Z.land_spec, Z.bits_0, Z.shiftl_spec by lia.
  destruct (Z.lt_ge_cases n k).
  - rewrite (Z.testbit_neg_r hi) by lia. apply andb_false_r.
  - rewrite (testbit_above lo k n) by lia. reflexivity.
Qed.

Module SpecCRCFacts.
Import SpecCRC.

Lemma crc16Table_u16 i : is_byte i -> 0 <= crc16Table i < 65536.
Proof.
  intros Hi.
  assert (H : ((0 <=? crc16Table i) && (crc16Table i <? 65536)) = true).
  { revert i Hi. apply allBytes_spec. vm_compute. reflexivity. }
  apply andb_true_iff in H. destruct H as [H1 H2].
  apply Z.leb_le in H1. apply Z.ltb_lt in H2. lia.
Qed.

Lemma crc32Table_u32 i : is_byte i -> 0 <= crc32Table i < 4294967296.
Proof.
  intros Hi.
  assert (H : ((0 <=? crc32Table i) && (crc32Table i <? 4294967296)) = true).
  { revert i Hi. apply allBytes_spec. vm_compute. reflexivity. }
  apply andb_true_iff in H. destruct H as [H1 H2].
  apply Z.leb_le in H1. apply Z.ltb_lt in H2. lia.
Qed.

Lemma land_ff_byte x : is_byte (Z.land x 0xff).
Proof. unfold is_byte. change 256 with (2 ^ 8). apply land_below; lia. Qed.

Lemma crc16Step_xor x b : crc16Step x b = Z.lxor (crc16Step x 0) b.
Proof. unfold crc16Step. rewrite Z.lxor_0_r. reflexivity. Qed.

Lemma crc16Step0_u16 x : 0 <= crc16Step x 0 < 65536.
Proof.
  unfold crc16Step. rewrite Z.lxor_0_r. change 65536 with (2 ^ 16).
  apply lxor_below; [lia | apply crc16Table_u16, land_ff_byte |].
  unfold u16. apply Z.mod_pos_bound. lia.
Qed.

Lemma crc16Finalize_u16 c : 0 <= crc16Finalize c < 65536.
Proof. unfold crc16Finalize. cbn [crc16Update fold_left]. apply crc16Step0_u16. Qed.

(** XOR-ing a byte into the low half of the register shows up, shifted,
    in the next step. *)
Lemma crc16Step_low a hi lo :
  is_byte hi ->
  crc16Step (Z.lxor a hi) lo
  = Z.lxor (crc16Step a 0) (Z.lxor (Z.shiftl hi 8) lo).
Proof.
  intros Hhi. unfold crc16Step.
  assert (E1 : Z.shiftr (Z.lxor a hi) 8 = Z.shiftr a 8).
  { rewrite Z.shiftr_lxor.
    rewrite (Z.shiftr_div_pow2 hi 8) by lia.
    rewrite (Z.div_small hi) by (unfold is_byte in Hhi; simpl; lia).
    apply Z.lxor_0_r. }
  assert (E2 : u16 (Z.shiftl (Z.lxor a hi) 8)
               = Z.lxor (u16 (Z.shiftl a 8)) (Z.shiftl hi 8)).
  { apply Z.bits_inj'. intros n Hn.
    rewrite Z.lxor_spec, !testbit_u16, !Z.shiftl_spec, Z.lxor_spec by lia.
    destruct (Z.ltb_spec n 16); [reflexivity|].
    cbn [andb]. rewrite (testbit_above hi 8 (n - 8)); [reflexivity | | lia].
    exact Hhi. }
  rewrite E1, E2, Z.lxor_0_r, !Z.lxor_assoc. reflexivity.
Qed.

Lemma crc16Verify_Calc p :
  crc16Verify (p ++ [u8 (Z.shiftr (crc16Calc p) 8);
                     u8 (Z.land (crc16Calc p) 0xff)]) = true.
Proof.
  unfold crc16Verify, crc16Calc, crc16Finalize, crc16Update.
  rewrite fold_left_app. cbn [fold_left].
  set (s := fold_left crc16Step p 0).
  set (c := crc16Step (crc16Step s 0) 0).
  assert (Hc : 0 <= c < 65536) by apply crc16Step0_u16.
  assert (Hhi : 0 <= c / 256 < 256)
    by (split; [apply Z.div_pos; lia | apply Z.div_lt_upper_bound; lia]).
  assert (Ehi : u8 (Z.shiftr c 8) = c / 256).
  { rewrite Z.shiftr_div_pow2 by lia. apply u8_small. exact Hhi. }
  assert (Elo : u8 (Z.land c 0xff) = c mod 256).
  { change 0xff with (Z.ones 8). rewrite Z.land_ones by lia.
    apply u8_small. apply Z.mod_pos_bound. lia. }
  rewrite Ehi, Elo.
  rewrite (crc16Step_xor s (c / 256)).
  rewrite crc16Step_low by exact Hhi.
  fold c.
  rewrite (Z.lxor_comm (Z.shiftl (c / 256) 8)).
  rewrite xor_join; [| lia | apply Z.mod_pos_bound; lia | lia].
  replace (c mod 256 + c / 256 * 2 ^ 8) with c
    by (change (2 ^ 8) with 256; pose proof (Z.div_mod c 256); lia).
  rewrite Z.lxor_nilpotent. reflexivity.
Qed.

Lemma crc32Step_u32 c b :
  0 <= c < 4294967296 -> 0 <= crc32Step c b < 4294967296.
Proof.
  intros Hc. unfold crc32Step. change 4294967296 with (2 ^ 32).
  apply lxor_below; [lia | apply crc32Table_u32, land_ff_byte |].
  rewrite Z.shiftr_div_pow2 by lia. split.
  - apply Z.div_pos; lia.
  - apply Z.div_lt_upper_bound; lia.
Qed.

Lemma crc32_fold_u32 d : forall c,
  0 <= c < 4294967296 -> 0 <= fold_left crc32Step d c < 4294967296.
Proof.
  induction d as [|b d IH]; intros c Hc; [exact Hc|].
  cbn [fold_left]. apply IH, crc32Step_u32, Hc.
Qed.

Lemma xor_M32_u32 c : 0 <= c < 4294967296 -> 0 <= Z.lxor c M32 < 4294967296.
Proof.
  intros Hc. change 4294967296 with (2 ^ 32).
  apply lxor_below; [lia | exact Hc | unfold M32; lia].
Qed.

Lemma crc32Update_u32 c d : 0 <= crc32Update c d < 4294967296.
Proof.
  unfold crc32Update. apply xor_M32_u32, crc32_fold_u32, xor_M32_u32.
  unfold u32. apply Z.mod_pos_bound. lia.
Qed.

(** Feeding the complement of the register back, byte by byte, makes every
    table index independent of the register. *)
Lemma crc32Step_feedback t r k :
  0 <= k -> k + 8 <= 32 ->
  crc32Step (Z.lxor t (Z.shiftr r k)) (u8 (Z.shiftr (Z.lxor r M32) k))
  = Z.lxor (crc32Step t 0xff) (Z.shiftr r (k + 8)).
Proof.
  intros Hk Hk8. unfold crc32Step.
  assert (E1 : Z.land (Z.lxor (Z.lxor t (Z.shiftr r k))
                              (u8 (Z.shiftr (Z.lxor r M32) k))) 0xff
               = Z.land (Z.lxor t 0xff) 0xff).
  { apply Z.bits_inj'. intros n Hn.
    rewrite !Z.land_spec, !Z.lxor_spec, testbit_u8, !Z.shiftr_spec,
      Z.lxor_spec by lia.
    change 0xff with (Z.ones 8). rewrite testbit_ones_lt by lia.
    destruct (Z.ltb_spec n 8); [|rewrite !andb_false_r; reflexivity].
    unfold M32. change 0xFFFFFFFF with (Z.ones 32).
    rewrite testbit_ones_lt by lia.
    destruct (Z.ltb_spec (n + k) 32); [|lia].
    destruct (Z.testbit t n), (Z.testbit r (n + k)); reflexivity. }
  rewrite E1, !Z.shiftr_lxor, Z.shiftr_shiftr by lia.
  rewrite Z.lxor_assoc. reflexivity.
Qed.

Lemma crc32_residue r :
  0 <= r < 4294967296 ->
  fold_left crc32Step (PutUint32 (Z.lxor r M32)) r
  = fold_left crc32Step [0xff; 0xff; 0xff; 0xff] 0.
Proof.
  intros Hr. unfold PutUint32. cbn [fold_left].
  assert (E0 : crc32Step r (u8 (Z.lxor r M32))
               = Z.lxor (crc32Step 0 0xff) (Z.shiftr r 8)).
  { pose proof (crc32Step_feedback 0 r 0) as H.
    rewrite !Z.shiftr_0_r, Z.lxor_0_l in H. apply H; lia. }
  rewrite E0.
  rewrite (crc32Step_feedback _ r 8) by lia. change (8 + 8) with 16.
  rewrite (crc32Step_feedback _ r 16) by lia. change (16 + 8) with 24.
  rewrite (crc32Step_feedback _ r 24) by lia. change (24 + 8) with 32.
  rewrite (Z.shiftr_div_pow2 r 32) by lia.
  rewrite Z.div_small by (change (2 ^ 32) with 4294967296; lia).
  apply Z.lxor_0_r.
Qed.

Lemma crc32Verify_Calc p :
  crc32Verify (p ++ PutUint32 (crc32Calc p)) = true.
Proof.
  unfold crc32Verify, crc32Calc, crc32Update.
  rewrite fold_left_app. fold M32.
  set (r := fold_left crc32Step p (Z.lxor (u32 0) M32)).
  assert (Hr : 0 <= r < 4294967296).
  { subst r. apply crc32_fold_u32. vm_compute. split; [discriminate | reflexivity]. }
  rewrite (crc32_residue r Hr). vm_compute. reflexivity.
Qed.

End SpecCRCFacts.

Lemma specCRC_laws : CRCLaws specCRC.
Proof.
  constructor.
  - exact SpecCRCFacts.crc16Finalize_u16.
  - exact SpecCRCFacts.crc32Update_u32.
  - intros p _. exact (SpecCRCFacts.crc16Verify_Calc p).
  - intros p _. exact (SpecCRCFacts.crc32Verify_Calc p).
Qed.

(** A sender and a receiver in Minimal mode.  The payload is a ZDLE, a CR
    after an at-sign, an XON, an XOFF, 0x7f and 0xff, ended by ZCRCW; only
    the ZDLE goes out escaped. *)
Lemma subpacket_roundtrip_witness :
  let cfgMin := Config.mk 0 0 EscapeMinimal false [] 0 0 0 0 0 0 in
  let snd := NewSession [] false (mkHandler [] []) (Some cfgMin) in
  let P := [0x18; 0x40; 0x0d; 0x11; 0x13; 0x7f; 0xff] in
  let wire := emitted (tw snd) (tw (sendSubpacket P ZCRCW snd)) in
  let rcv := NewSession wire false (mkHandler [] []) (Some cfgMin) in
  firstn 10 wire = [ZDLE; 0x58; 0x40; 0x0d; 0x11; 0x13; 0x7f; 0xff; ZDLE; ZCRCW]
  /\ exists tr',
       recvSubpacket 1024 rcv = (Ok (P, ZCRCW), setTr tr' rcv)
       /\ avail tr' = [XON] /\ canCount tr' = 0.
Proof.
  intros cfgMin snd P wire rcv.
  split; [vm_compute; reflexivity|].
  apply (subpacket_roundtrip specCRC_laws snd rcv P ZCRCW 1024 []).
  - reflexivity.
  - intros _. reflexivity.
  - subst P. all_bytes.
  - right; right; right; reflexivity.
  - reflexivity.
  - vm_compute. discriminate.
  - vm_compute. reflexivity.
  - vm_compute. reflexivity.
Defined.

(** ** Frame discovery *)

Tactic Notation "read_byte" constr(Ha) "as"
       ident(tr') ident(E) ident(Ha') ident(C) :=
  match goal with
  | |- context [bind readByte _ ?t] =>
      destruct (readByte_cons t _ _ Ha) as (tr' & E & Ha' & C);
      rewrite (bind_Ok _ _ _ _ _ E)
  end.

Lemma scanForPad_start tr pads enc rest :
  pads = [] \/ pads = [ZPAD] ->
  supportedEncb enc = true ->
  avail tr = ZPAD :: pads ++ ZDLE :: enc :: rest ->
  exists tr', scanForPad tr = (Ok enc, tr') /\ avail tr' = rest /\
              canCount tr' = 0 /\ garbageCount tr' = 0.
Proof.
  intros Hp Henc Ha. unfold scanForPad.
  assert (Ha0 : avail (setCanCount 0 tr) = ZPAD :: pads ++ ZDLE :: enc :: rest)
    by exact Ha.
  generalize (length (avail tr)). intros fuel.
  cbn [scanForPad_loop].
  read_byte Ha0 as t1 E1 A1 C1.
  change (ZPAD =? CAN) with false. cbv iota.
  unfold bind at 1. unfold modify at 1.
  change (negb (ZPAD =? ZPAD)) with false. cbv iota.
  assert (A1' : avail (setCanCount 0 t1) = pads ++ ZDLE :: enc :: rest)
    by exact A1.
  assert (Hd : exists t3, avail t3 = enc :: rest /\ canCount t3 = 0 /\
     forall k : Z -> RM Z,
     (b <- readByte ;;
      b0 <- (if b =? ZPAD then readByte else ret b) ;; k b0)
       (setCanCount 0 t1) = k ZDLE t3).
  { destruct Hp as [-> | ->]; cbn [app] in A1'.
    - destruct (readByte_cons _ _ _ A1') as (t2 & E2 & A2 & (C2 & _)).
      exists t2. split; [exact A2|]. split; [rewrite C2; reflexivity|].
      intros k. rewrite (bind_Ok _ _ _ _ _ E2).
      change (ZDLE =? ZPAD) with false. cbv iota. reflexivity.
    - destruct (readByte_cons _ _ _ A1') as (t2 & E2 & A2 & (C2 & _)).
      destruct (readByte_cons _ _ _ A2) as (t3 & E3 & A3 & (C3 & _)).
      exists t3. split; [exact A3|].
      split; [rewrite C3, C2; reflexivity|].
      intros k. rewrite (bind_Ok _ _ _ _ _ E2).
      change (ZPAD =? ZPAD) with true. cbv iota.
      rewrite (bind_Ok _ _ _ _ _ E3). reflexivity. }
  destruct Hd as (t3 & A3 & C3 & Hk). rewrite Hk.
  change (negb (ZDLE =? ZDLE)) with false. cbv iota.
  read_byte A3 as t4 E4 A4 C4.
  unfold supportedEncb in Henc. rewrite Henc.
  eexists. split; [reflexivity|].
  cbn [avail setGarbageCount r_buf r_src canCount garbageCount].
  split; [exact A4|]. split; [|reflexivity].
  destruct C4 as (-> & _). exact C3.
Qed.

(** ** Hex headers *)

Lemma unhex_hexOf b :
  is_byte b -> unhex (nth 0 (hexOf b) 0) (nth 1 (hexOf b) 0) = Some b.
Proof.
  intros Hb.
  assert (H : (match unhex (nth 0 (hexOf b) 0) (nth 1 (hexOf b) 0) with
               | Some v => v =? b
               | None => false
               end) = true).
  { revert b Hb. apply allBytes_spec. vm_compute. reflexivity. }
  destruct (unhex _ _); [|discriminate]. apply Z.eqb_eq in H. congruence.
Qed.

Lemma readHex_pair tr hi lo rest :
  avail tr = hi :: lo :: rest ->
  exists tr', avail tr' = rest /\ same_counters tr tr' /\
    readHex tr = (match unhex hi lo with
                  | Some v => Ok v
                  | None => Err (ErrMsg "zmodem: invalid hex digits")
                  end, tr').
Proof.
  intros Ha. unfold readHex.
  destruct (readByte_cons _ _ _ Ha) as (t1 & E1 & A1 & (C1 & C1' & C1'')).
  destruct (readByte_cons _ _ _ A1) as (t2 & E2 & A2 & (C2 & C2' & C2'')).
  exists t2. split; [exact A2|].
  split; [unfold same_counters; repeat split; congruence|].
  rewrite (bind_Ok _ _ _ _ _ E1), (bind_Ok _ _ _ _ _ E2).
  unfold unhex. cbv zeta.
  destruct (hexVal (Z.land hi 0x7f)); [|reflexivity].
  destruct (hexVal (Z.land lo 0x7f)); reflexivity.
Qed.

Lemma readHex_hexOf tr b rest :
  is_byte b -> avail tr = hexOf b ++ rest ->
  exists tr', readHex tr = (Ok b, tr') /\ avail tr' = rest /\
              same_counters tr tr'.
Proof.
  intros Hb Ha.
  destruct (readHex_pair tr _ _ rest Ha) as (tr' & A & C & E).
  exists tr'. rewrite E.
  change (unhex _ _) with (unhex (nth 0 (hexOf b) 0) (nth 1 (hexOf b) 0)).
  rewrite (unhex_hexOf b Hb). auto.
Qed.

Lemma timesM_readHex bs : forall s rest,
  Forall is_byte bs -> avail (tr s) = hexWire bs ++ rest ->
  exists tr', timesM (length bs) (onReader readHex) s = (Ok bs, setTr tr' s)
              /\ avail tr' = rest /\ same_counters (tr s) tr'.
Proof.
  induction bs as [|b bs IH]; intros s rest Hb Ha.
  - exists (tr s). rewrite setTr_tr. unfold same_counters. auto.
  - inversion Hb as [|? ? Hb1 Hb2]; subst.
    unfold hexWire in Ha. cbn [flat_map] in Ha. rewrite <- app_assoc in Ha.
    destruct (readHex_hexOf (tr s) b _ Hb1 Ha) as (t1 & E1 & A1 & (C1 & C1' & C1'')).
    destruct (IH (setTr t1 s) rest Hb2 A1) as (t2 & E2 & A2 & (C2 & C2' & C2'')).
    exists t2. cbn [length timesM].
    rewrite (bind_Ok _ _ _ _ _ (onReader_eq _ _ _ _ E1)).
    rewrite (bind_Ok _ _ _ _ _ E2). rewrite setTr_setTr.
    split; [reflexivity|]. split; [exact A2|].
    cbn [tr setTr] in *. unfold same_counters. repeat split; congruence.
Qed.

Lemma writeHex_fold bs : forall s,
  w_out (tw (fold_left (fun s b => onWriter (writeHex b) s) bs s))
  = w_out (tw s) ++ hexWire bs
  /\ table (tw (fold_left (fun s b => onWriter (writeHex b) s) bs s))
     = table (tw s).
Proof.
  induction bs as [|b bs IH]; intros s.
  - cbn. rewrite app_nil_r. auto.
  - cbn [fold_left]. destruct (IH (onWriter (writeHex b) s)) as [-> ->].
    cbn [onWriter setTw tw writeHex w_out table].
    unfold hexWire. cbn [flat_map]. rewrite <- app_assoc. auto.
Qed.

Section HexHeader.
Context {crc : CRC} (laws : CRCLaws crc).

Lemma sendHexHeader_out hdr s :
  w_out (tw (sendHexHeader hdr s))
  = w_out (tw s)
    ++ [ZPAD; ZPAD; ZDLE; ZHEX] ++ hexWire (hexBody (Type_ hdr) (Data hdr))
    ++ [0x0d; 0x0a]
    ++ (if negb (Type_ hdr =? ZACK) && negb (Type_ hdr =? ZFIN)
        then [XON] else []).
Proof.
  unfold sendHexHeader. cbv zeta.
  set (payload := Type_ hdr :: dataBytes (Data hdr)).
  set (s1 := onWriter (writeRaw [ZPAD; ZPAD; ZDLE; ZHEX]) s).
  destruct (writeHex_fold payload s1) as [E _].
  set (s2 := fold_left _ payload s1) in *.
  assert (E3 : w_out (tw (onWriter (writeByte 0x0a)
                  (onWriter (writeByte 0x0d)
                     (onWriter (writeHex (u8 (Z.land (crc16Calc payload) 0xff)))
                        (onWriter (writeHex (u8 (Z.shiftr (crc16Calc payload) 8)))
                           s2)))))
               = w_out (tw s) ++ [ZPAD; ZPAD; ZDLE; ZHEX]
                 ++ hexWire (hexBody (Type_ hdr) (Data hdr))
                 ++ [0x0d; 0x0a]).
  { cbn [onWriter setTw tw writeByte writeHex w_out]. rewrite E.
    subst s1. cbn [onWriter setTw tw writeRaw w_out].
    unfold hexBody. cbv zeta. fold payload.
    unfold hexWire. rewrite flat_map_app. cbn [flat_map hexOf app].
    rewrite <- !app_assoc. reflexivity. }
  destruct (negb (Type_ hdr =? ZACK) && negb (Type_ hdr =? ZFIN)).
  - cbn [onWriter setTw tw Flush writeByte w_out] in *. rewrite E3.
    rewrite <- !app_assoc. reflexivity.
  - cbn [onWriter setTw tw Flush writeByte w_out] in *. rewrite E3.
    rewrite app_nil_r. reflexivity.
Qed.

Lemma sendHexHeader_wire hdr s :
  emitted (tw s) (tw (sendHexHeader hdr s))
  = [ZPAD; ZPAD; ZDLE; ZHEX] ++ hexWire (hexBody (Type_ hdr) (Data hdr))
    ++ [0x0d; 0x0a]
    ++ (if negb (Type_ hdr =? ZACK) && negb (Type_ hdr =? ZFIN)
        then [XON] else []).
Proof. apply emitted_app. apply sendHexHeader_out. Qed.

(** [sendHexHeader] touches nothing of the session but its writer. *)
Lemma sendHexHeader_onlyTw hdr s :
  sendHexHeader hdr s = setTw (tw (sendHexHeader hdr s)) s.
Proof.
  unfold sendHexHeader. cbv zeta.
  assert (H : forall bs s0,
             fold_left (fun s b => onWriter (writeHex b) s) bs s0
             = setTw (tw (fold_left (fun s b => onWriter (writeHex b) s)
                                    bs s0)) s0).
  { induction bs as [|b bs IH]; intros s0; [destruct s0; reflexivity|].
    cbn [fold_left]. rewrite IH at 1. destruct s0; reflexivity. }
  destruct (negb (Type_ hdr =? ZACK) && negb (Type_ hdr =? ZFIN));
    cbn [onWriter setTw tw]; rewrite H at 1; destruct s; reflexivity.
Qed.

Lemma recvHexHeader_eq :
  recvHexHeader
  = (raw <- wrapErr "hex header read" (timesM 7 (onReader readHex)) ;;
     let hdr := mkHeader ZHEX (nth 0 raw 0)
                  (mkData (nth 1 raw 0) (nth 2 raw 0) (nth 3 raw 0)
                          (nth 4 raw 0)) in
     if negb (crc16Verify raw) then
       fail (ErrMsg "zmodem: hex header CRC error")
     else hexTerminator hdr).
Proof. reflexivity. Qed.

(** Fourteen digits carrying a type, four data bytes and their CRC bring
    [recvHexHeader] to the terminator. *)
Lemma recvHexHeader_body s T D rest :
  is_byte T -> Forall is_byte (dataBytes D) ->
  avail (tr s) = hexWire (hexBody T D) ++ rest ->
  exists tr1, avail tr1 = rest /\ same_counters (tr s) tr1 /\
    recvHexHeader s = hexTerminator (mkHeader ZHEX T D) (setTr tr1 s).
Proof.
  intros HT HD Ha.
  assert (Hb : Forall is_byte (hexBody T D)).
  { unfold hexBody. cbv zeta. apply Forall_app. split.
    - constructor; assumption.
    - repeat (apply Forall_cons; [apply u8_byte|]). constructor. }
  destruct (timesM_readHex (hexBody T D) s rest Hb Ha) as (t1 & E1 & A1 & C1).
  exists t1. split; [exact A1|]. split; [exact C1|].
  rewrite recvHexHeader_eq.
  change (length (hexBody T D)) with 7%nat in E1.
  rewrite (bind_Ok _ _ _ _ _ (wrapErr_Ok _ _ _ _ _ E1)). cbv zeta.
  unfold hexBody at 1. cbv zeta.
  rewrite (crc16Verify_Calc crc laws) by (constructor; assumption).
  cbn [negb]. destruct D. reflexivity.
Qed.

End HexHeader.


Lemma hexTerminator_CR_LF hdr s cr lf rest :
  avail (tr s) = cr :: lf :: rest ->
  Z.land cr 0x7f = 0x0d -> Z.land lf 0x7f = 0x0a ->
  exists tr',
    hexTerminator hdr s = (Ok hdr, setTr tr' s) /\
    (avail tr' = rest \/
     exists x, rest = x :: avail tr' /\ Z.land x 0x7f = XON /\
               Type_ hdr <> ZACK /\ Type_ hdr <> ZFIN).
Proof.
  intros Ha Hcr Hlf. unfold hexTerminator.
  destruct (readByte_cons _ _ _ Ha) as (t1 & E1 & A1 & _).
  rewrite (bind_Ok _ _ _ _ _ (onReader_eq _ _ _ _ E1)).
  rewrite Hcr. change (negb (0x0d =? 0x0d)) with false. cbv iota.
  assert (A1' : avail (tr (setTr t1 s)) = lf :: rest) by exact A1.
  destruct (readByte_cons _ _ _ A1') as (t2 & E2 & A2 & _).
  rewrite (bind_Ok _ _ _ _ _ (onReader_eq _ _ _ _ E2)).
  rewrite Hlf. change (negb (0x0a =? 0x0a)) with false. cbv iota.
  rewrite setTr_setTr. unfold bind at 1. unfold get at 1.
  cbn [tr setTr].
  destruct (negb (Type_ hdr =? ZACK) && negb (Type_ hdr =? ZFIN)
            && (Buffered t2 >? 0)) eqn:Hc.
  - apply andb_true_iff in Hc. destruct Hc as [Hc Hbuf].
    apply andb_true_iff in Hc. destruct Hc as [HA HF].
    apply negb_true_iff, Z.eqb_neq in HA, HF.
    unfold Peek, Buffered in *.
    destruct (r_buf t2) as [|p buf] eqn:Eb; [discriminate Hbuf|].
    cbn [length]. 
    replace (1 <=? Z.of_nat (S (length buf))) with true
      by (symmetry; apply Z.leb_le; lia).
    change (firstn (Z.to_nat 1) (p :: buf)) with [p]. cbv beta iota.
    destruct (Z.land p 0x7f =? XON) eqn:Hx.
    + assert (A2' : avail (tr (setTr t2 s)) = p :: buf ++ r_src t2)
        by (cbn [tr setTr]; unfold avail; rewrite Eb; reflexivity).
      destruct (readByte_cons _ _ _ A2') as (t3 & E3 & A3 & _).
      exists t3. unfold bind.
      rewrite (onReader_eq _ _ _ _ E3). cbn [snd ret]. rewrite setTr_setTr.
      split; [reflexivity|]. right. exists p.
      apply Z.eqb_eq in Hx. rewrite A3. repeat split; try assumption.
      rewrite <- A2. unfold avail. rewrite Eb. reflexivity.
    + exists t2. split; [reflexivity | left; exact A2].
  - exists t2. split; [reflexivity | left; exact A2].
Qed.



(** ** Binary headers *)

Section BinHeader.
Context {crc : CRC} (laws : CRCLaws crc).

Lemma binCRC_bytes m p : Forall is_byte (binCRC m p).
Proof.
  unfold binCRC. destruct m; [apply PutUint32_bytes|].
  repeat (apply Forall_cons; [apply u8_byte|]). constructor.
Qed.

Lemma sendBinHeader_wire st hdr s :
  writer_for st (tw s) -> is_byte (Type_ hdr) -> header_bytes hdr ->
  exists wp wc,
    emitted (tw s) (tw (sendBinHeader hdr s))
    = [ZPAD; ZDLE; if useCRC32 s then ZBIN32 else ZBIN] ++ wp ++ wc
    /\ escaped_as st wp (Type_ hdr :: dataBytes (Data hdr))
    /\ escaped_as st wc (binCRC (useCRC32 s)
                                (Type_ hdr :: dataBytes (Data hdr))).
Proof.
  intros Hwf HT HD.
  set (payload := Type_ hdr :: dataBytes (Data hdr)).
  assert (Hp : Forall is_byte payload) by (constructor; assumption).
  set (enc := if useCRC32 s then ZBIN32 else ZBIN).
  set (t0 := writeRaw [ZPAD; ZDLE; enc] (tw s)).
  assert (W0 : writer_for st t0) by exact Hwf.
  destruct (writeEscaped_spec st payload t0 W0 Hp) as (wp & Ep & Ap & Wp).
  pose proof (binCRC_bytes (useCRC32 s) payload) as Hc.
  assert (H2 : exists wc,
             w_out (tw (sendBinHeader hdr s))
             = w_out (writeEscaped payload t0) ++ wc
             /\ escaped_as st wc (binCRC (useCRC32 s) payload)).
  { unfold binCRC in *. unfold sendBinHeader. cbv zeta.
    fold payload. fold enc.
    cbn [onWriter setTw tw useCRC32 Flush]. fold t0.
    destruct (useCRC32 s) eqn:Em.
    - destruct (writeEscaped_spec st _ _ Wp Hc) as (wc & Ec & Ac & _).
      exists wc. cbn [onWriter setTw tw]. split; [exact Ec | exact Ac].
    - destruct (writeEscapedByte_spec st
                  _ (u8 (Z.shiftr (crc16Calc payload) 8)) Wp (u8_byte _))
        as (wh & Eh & Ah & Wh).
      destruct (writeEscapedByte_spec st
                  _ (u8 (Z.land (crc16Calc payload) 0xff)) Wh (u8_byte _))
        as (wl & El & Al & _).
      exists (wh ++ wl). cbn [onWriter setTw tw].
      split; [unfold Flush; fold t0; rewrite El, Eh, app_assoc; reflexivity|].
      exact (escaped_as_app _ _ _ _ _ Ah Al). }
  destruct H2 as (wc & Ec & Ac).
  exists wp, wc. split; [|split; [exact Ap | exact Ac]].
  apply emitted_app. rewrite Ec, Ep. subst t0.
  cbn [writeRaw w_out]. rewrite <- !app_assoc. reflexivity.
Qed.

Lemma recvBinHeader_wire m s T D wp wc rest :
  escaped_as (stripXonXoff (tr s)) wp (T :: dataBytes D) ->
  escaped_as (stripXonXoff (tr s)) wc (binCRC m (T :: dataBytes D)) ->
  is_byte T -> Forall is_byte (dataBytes D) ->
  avail (tr s) = wp ++ wc ++ rest -> canCount (tr s) < 4 ->
  exists tr', recvBinHeader m s
              = (Ok (mkHeader (if m then ZBIN32 else ZBIN) T D), setTr tr' s)
              /\ avail tr' = rest /\ canCount tr' = 0.
Proof.
  intros Ap Ac HT HD Ha Hk.
  assert (Hp : Forall is_byte (T :: dataBytes D)) by (constructor; assumption).
  destruct (timesM_escaped "bin header read"
              "zmodem: unexpected frame end in header"
              _ wp s (wc ++ rest) Ap Ha Hk) as (t1 & E1 & F1 & A1 & C1).
  change (length (T :: dataBytes D)) with 5%nat in E1.
  unfold recvBinHeader. rewrite (bind_Ok _ _ _ _ _ E1).
  cbn [dataBytes] in C1. rewrite <- F1 in Ac.
  unfold binCRC in Ac. destruct m.
  - destruct (timesM_escaped "bin32 header CRC read"
                "zmodem: unexpected frame end in CRC"
                _ wc (setTr t1 s) rest Ac A1) as (t2 & E2 & _ & A2 & C2).
    { cbn [tr setTr]. lia. }
    change (length (PutUint32 _)) with 4%nat in E2.
    rewrite (bind_Ok _ _ _ _ _ E2).
    rewrite (crc32Verify_Calc crc laws) by exact Hp.
    cbn [negb]. exists t2. rewrite setTr_setTr. destruct D.
    split; [reflexivity|]. split; [exact A2 | exact C2].
  - destruct (timesM_escaped "bin header CRC read"
                "zmodem: unexpected frame end in CRC"
                _ wc (setTr t1 s) rest Ac A1) as (t2 & E2 & _ & A2 & C2).
    { cbn [tr setTr]. lia. }
    change (length [_; _]) with 2%nat in E2.
    rewrite (bind_Ok _ _ _ _ _ E2).
    rewrite (crc16Verify_Calc crc laws) by exact Hp.
    cbn [negb]. exists t2. rewrite setTr_setTr. destruct D.
    split; [reflexivity|]. split; [exact A2 | exact C2].
Qed.

End BinHeader.

(** ** Header round trip *)

Section HeaderRoundTrip.
Context {crc : CRC} (laws : CRCLaws crc).

Lemma recvHeader_after_scan s enc tr1 :
  scanForPad (tr s) = (Ok enc, tr1) ->
  recvHeader s
  = (hdr <- (if enc =? ZHEX then recvHexHeader
             else if enc =? ZBIN then recvBinHeader false
             else if enc =? ZBIN32 then recvBinHeader true
             else fail (ErrWrap "%w: 0x%02x" errUnsupportedEnc)) ;;
     modify (fun s => setTr (resetGarbage (tr s)) s) ;;;
     ret hdr) (setTr tr1 s).
Proof.
  intros E. unfold recvHeader.
  rewrite (bind_Ok _ _ _ _ _ (onReader_eq _ _ _ _ E)). reflexivity.
Qed.

Lemma recvHeader_hex rcv T D rest :
  is_byte T -> Forall is_byte (dataBytes D) ->
  avail (tr rcv)
  = [ZPAD; ZPAD; ZDLE; ZHEX] ++ hexWire (hexBody T D) ++ [0x0d; 0x0a]
    ++ rest ->
  exists s', recvHeader rcv = (Ok (mkHeader ZHEX T D), s').
Proof.
  intros HT HD Ha.
  destruct (scanForPad_start (tr rcv) [ZPAD] ZHEX
              (hexWire (hexBody T D) ++ [0x0d; 0x0a] ++ rest))
    as (t1 & E1 & A1 & _); [right; reflexivity | reflexivity | exact Ha |].
  rewrite (recvHeader_after_scan rcv ZHEX t1 E1).
  change (ZHEX =? ZHEX) with true. cbv iota.
  destruct (recvHexHeader_body laws (setTr t1 rcv) T D _ HT HD A1)
    as (t2 & A2 & _ & E2).
  destruct (hexTerminator_CR_LF (mkHeader ZHEX T D) (setTr t2 (setTr t1 rcv))
              0x0d 0x0a rest A2)
    as (t3 & E3 & _); [reflexivity | reflexivity |].
  rewrite E3 in E2. rewrite (bind_Ok _ _ _ _ _ E2).
  eexists. reflexivity.
Qed.

Lemma recvHeader_bin rcv m T D wp wc rest :
  escaped_as (stripXonXoff (tr rcv)) wp (T :: dataBytes D) ->
  escaped_as (stripXonXoff (tr rcv)) wc (binCRC m (T :: dataBytes D)) ->
  is_byte T -> Forall is_byte (dataBytes D) ->
  avail (tr rcv)
  = [ZPAD; ZDLE; if m then ZBIN32 else ZBIN] ++ wp ++ wc ++ rest ->
  exists s', recvHeader rcv
             = (Ok (mkHeader (if m then ZBIN32 else ZBIN) T D), s')
             /\ avail (tr s') = rest /\ canCount (tr s') = 0.
Proof.
  intros Ap Ac HT HD Ha.
  destruct (scanForPad_start (tr rcv) [] (if m then ZBIN32 else ZBIN)
              (wp ++ wc ++ rest))
    as (t1 & E1 & A1 & C1 & _);
    [left; reflexivity | destruct m; reflexivity | exact Ha |].
  rewrite (recvHeader_after_scan rcv _ t1 E1).
  rewrite <- (scanForPad_strip _ _ _ E1) in Ap, Ac.
  destruct (recvBinHeader_wire laws m (setTr t1 rcv) T D wp wc rest
              Ap Ac HT HD A1) as (t2 & E2 & A2 & C2);
    [cbn [tr setTr]; lia|].
  destruct m.
  - change (ZBIN32 =? ZHEX) with false. change (ZBIN32 =? ZBIN) with false.
    change (ZBIN32 =? ZBIN32) with true. cbv iota.
    rewrite (bind_Ok _ _ _ _ _ E2).
    eexists. split; [reflexivity|]. split; [exact A2 | exact C2].
  - change (ZBIN =? ZHEX) with false. change (ZBIN =? ZBIN) with true.
    cbv iota. rewrite (bind_Ok _ _ _ _ _ E2).
    eexists. split; [reflexivity|]. split; [exact A2 | exact C2].
Qed.

(** C2.  For every frame type [T] and data [D]: a receiver whose pending
    input starts with what [sendHexHeader] wrote for [(T, D)] decodes a
    header of type [T], data [D] and encoding ZHEX; one whose input starts
    with what [sendBinHeader] wrote decodes [(T, D)] with encoding ZBIN
    when the sender is in CRC-16 mode and ZBIN32 when it is in CRC-32
    mode.  This holds in each of the three escape modes of the sender; a
    binary header sent in Minimal mode is read by the reader that goes
    with that mode ([reads_from]), the hex header by any reader. *)
Theorem header_roundtrip (snd rcv : Session) (e0 T : Z) (D : Data4)
        (rest : list Z) :
  writer_wf (tw snd) -> is_byte T -> Forall is_byte (dataBytes D) ->
  (avail (tr rcv)
   = emitted (tw snd) (tw (sendHexHeader (mkHeader e0 T D) snd)) ++ rest ->
   exists s', recvHeader rcv = (Ok (mkHeader ZHEX T D), s'))
  /\
  (reads_from (tw snd) (tr rcv) ->
   avail (tr rcv)
   = emitted (tw snd) (tw (sendBinHeader (mkHeader e0 T D) snd)) ++ rest ->
   exists s',
     recvHeader rcv
     = (Ok (mkHeader (if useCRC32 snd then ZBIN32 else ZBIN) T D), s')
     /\ avail (tr s') = rest).
Proof.
  intros Hwf HT HD. split; [intros Ha | intros Hrd Ha].
  - rewrite sendHexHeader_wire in Ha. cbn [Type_ Data] in Ha.
    rewrite <- !app_assoc in Ha.
    apply (recvHeader_hex rcv T D _ HT HD Ha).
  - destruct (sendBinHeader_wire (stripXonXoff (tr rcv)) (mkHeader e0 T D)
                snd (writer_for_intro _ _ Hwf Hrd) HT HD)
      as (wp & wc & Ew & Ap & Ac).
    rewrite Ew in Ha. cbn [Type_ Data] in Ap, Ac.
    rewrite <- !app_assoc in Ha.
    destruct (recvHeader_bin rcv (useCRC32 snd) T D wp wc rest Ap Ac HT HD Ha)
      as (s' & E & A & _).
    exists s'. auto.
Qed.


End HeaderRoundTrip.

(** A ZRPOS at 0x12345678 sent in hex, in binary with CRC-16 and, by a
    sender that has negotiated CRC-32, in binary with CRC-32; and a
    ZFREECNT (type 0x11, the XON octet) with an XOFF among its data, sent
    in binary between two sessions in Minimal mode. *)
Lemma header_roundtrip_witness :
  let snd := NewSession [] false (mkHandler [] []) None in
  let snd32 := mkSession (handler snd) (cfg snd) (tw snd) (tr snd) true
                         0 false [] 0 false in
  let D := mkData 0x78 0x56 0x34 0x12 in
  let hdr := mkHeader 0 ZRPOS D in
  let rcvOf wire := NewSession wire false (mkHandler [] []) None in
  let cfgMin := Config.mk 0 0 EscapeMinimal false [] 0 0 0 0 0 0 in
  let sndMin := NewSession [] false (mkHandler [] []) (Some cfgMin) in
  let rcvMin wire := NewSession wire false (mkHandler [] []) (Some cfgMin) in
  let Dx := mkData 0x13 0x18 0 0x91 in
  (exists s',
      recvHeader (rcvOf (emitted (tw snd) (tw (sendHexHeader hdr snd))))
      = (Ok (mkHeader ZHEX ZRPOS D), s'))
  /\ (exists s',
         recvHeader (rcvOf (emitted (tw snd) (tw (sendBinHeader hdr snd))))
         = (Ok (mkHeader ZBIN ZRPOS D), s') /\ avail (tr s') = [])
  /\ (exists s',
         recvHeader (rcvOf (emitted (tw snd32) (tw (sendBinHeader hdr snd32))))
         = (Ok (mkHeader ZBIN32 ZRPOS D), s') /\ avail (tr s') = [])
  /\ (exists s',
         recvHeader
           (rcvMin (emitted (tw sndMin)
                            (tw (sendBinHeader (mkHeader 0 ZFREECNT Dx)
                                               sndMin))))
         = (Ok (mkHeader ZBIN ZFREECNT Dx), s') /\ avail (tr s') = []).
Proof.
  intros snd snd32 D hdr rcvOf cfgMin sndMin rcvMin Dx.
  assert (HT : is_byte ZRPOS) by (unfold is_byte, ZRPOS; lia).
  assert (HD : Forall is_byte (dataBytes D)).
  { subst D. all_bytes. }
  assert (HTx : is_byte ZFREECNT) by (unfold is_byte, ZFREECNT; lia).
  assert (HDx : Forall is_byte (dataBytes Dx)).
  { subst Dx. all_bytes. }
  split; [|split; [|split]].
  - apply (proj1 (header_roundtrip specCRC_laws snd _ 0 ZRPOS D []
                    (newTransportWriter_wf EscapeStandard) HT HD)).
    vm_compute. reflexivity.
  - apply (proj2 (header_roundtrip specCRC_laws snd _ 0 ZRPOS D []
                    (newTransportWriter_wf EscapeStandard) HT HD)).
    + intros H. discriminate H.
    + vm_compute. reflexivity.
  - apply (proj2 (header_roundtrip specCRC_laws snd32 _ 0 ZRPOS D []
                    (newTransportWriter_wf EscapeStandard) HT HD)).
    + intros H. discriminate H.
    + vm_compute. reflexivity.
  - apply (proj2 (header_roundtrip specCRC_laws sndMin _ 0 ZFREECNT Dx []
                    (newTransportWriter_wf EscapeMinimal) HTx HDx)).
    + intros _. reflexivity.
    + vm_compute. reflexivity.
Defined.



(** ** Reader: totality and the CAN counter *)

Lemma avail_setCanCount c tr : avail (setCanCount c tr) = avail tr.
Proof. reflexivity. Qed.

Lemma same_counters_trans a b c :
  same_counters a b -> same_counters b c -> same_counters a c.
Proof.
  unfold same_counters. intros (A1 & A2 & A3) (B1 & B2 & B3).
  repeat split; congruence.
Qed.

Lemma readByte_inv tr :
  exists tr', same_counters tr tr' /\
    ((readByte tr = (Err ErrRead, tr') /\ avail tr = [] /\ avail tr' = [])
     \/ exists b, readByte tr = (Ok b, tr') /\ avail tr = b :: avail tr').
Proof.
  destruct (avail tr) as [|b rest] eqn:Ea.
  - destruct (readByte_nil tr Ea) as (tr' & E & A & C).
    exists tr'. split; [exact C|]. left. auto.
  - destruct (readByte_cons tr b rest Ea) as (tr' & E & A & C).
    exists tr'. split; [exact C|]. right. exists b. rewrite A. auto.
Qed.

Lemma readByteStrip_loop_inv fuel : forall tr,
  (length (avail tr) < fuel)%nat ->
  exists tr', same_counters tr tr' /\
    ((readByteStrip_loop fuel tr = (Err ErrRead, tr') /\ avail tr' = [])
     \/ exists b, readByteStrip_loop fuel tr = (Ok b, tr')
                  /\ stripXonXoff tr && strippedb b = false
                  /\ (length (avail tr') < length (avail tr))%nat).
Proof.
  induction fuel as [|fuel IH]; intros tr Hf; [lia|].
  cbn [readByteStrip_loop].
  destruct (readByte_inv tr) as (t1 & C1 & [(E & A & A') | (b & E & A)]).
  - exists t1. split; [exact C1|]. left.
    rewrite (bind_Err _ _ _ _ _ E). auto.
  - rewrite (bind_Ok _ _ _ _ _ E). cbv [bind get].
    pose proof (readByte_strip tr) as F. rewrite E in F. cbn [snd] in F.
    rewrite F. fold (strippedb b).
    destruct (stripXonXoff tr && strippedb b) eqn:Hs.
    + destruct (IH t1) as (t2 & C2 & H); [rewrite A in Hf; simpl in Hf; lia|].
      exists t2. split; [exact (same_counters_trans _ _ _ C1 C2)|].
      destruct H as [(E2 & A2) | (b2 & E2 & S2 & L2)].
      * left. auto.
      * right. exists b2. rewrite A, <- F. simpl. repeat split; auto; lia.
    + exists t1. split; [exact C1|]. right. exists b.
      rewrite A. simpl. repeat split; auto.
Qed.

Lemma readByteStrip_inv tr :
  exists tr', same_counters tr tr' /\
    ((readByteStrip tr = (Err ErrRead, tr') /\ avail tr' = [])
     \/ exists b, readByteStrip tr = (Ok b, tr')
                  /\ stripXonXoff tr && strippedb b = false
                  /\ (length (avail tr') < length (avail tr))%nat).
Proof. apply readByteStrip_loop_inv. lia. Qed.

(** [readByteStrip] always returns. *)
Lemma readByteStrip_total tr : fst (readByteStrip tr) <> Stuck.
Proof.
  destruct (readByteStrip_inv tr) as (t & _ & [(E & _) | (b & E & _)]);
    rewrite E; discriminate.
Qed.

Lemma zdlRead_loop_inv fuel : forall tr,
  (length (avail tr) < fuel)%nat -> zdlRead_post tr (zdlRead_loop fuel tr).
Proof.
  induction fuel as [|fuel IH]; intros tr Hf; [lia|].
  cbn [zdlRead_loop].
  destruct (readByteStrip_inv tr) as (t1 & C1 & [(E & A) | (b & E & S1 & L1)]).
  { rewrite (bind_Err _ _ _ _ _ E). left. reflexivity. }
  rewrite (bind_Ok _ _ _ _ _ E).
  destruct (b =? ZDLE).
  2:{ cbv [bind modify ret zdlRead_post]. cbn [canCount setCanCount].
      rewrite avail_setCanCount. auto. }
  cbv [bind modify get]. cbn [canCount setCanCount].
  destruct (canCount t1 + 1 >=? 5); [right; reflexivity|].
  rewrite zdlEscape_body_eq.
  set (t2 := setCanCount (canCount t1 + 1) t1).
  destruct (readByteStrip_inv t2) as (t3 & C3 & [(E3 & A3) | (c & E3 & S3 & L3)]).
  { rewrite (bind_Err _ _ _ _ _ E3). left. reflexivity. }
  rewrite (bind_Ok _ _ _ _ _ E3).
  assert (L : (length (avail t3) < length (avail tr))%nat)
    by (subst t2; rewrite avail_setCanCount in L3; lia).
  unfold afterZDLE.
  destruct ((c =? ZCRCE) || (c =? ZCRCG) || (c =? ZCRCQ) || (c =? ZCRCW))
           eqn:Hend.
  { cbv [bind modify ret zdlRead_post]. cbn [canCount setCanCount].
    rewrite avail_setCanCount. split; [reflexivity|]. split; [exact L|].
    right. unfold is_endType.
    repeat (apply orb_true_iff in Hend; destruct Hend as [Hend | Hend]);
      apply Z.eqb_eq in Hend; auto. }
  destruct (c =? ZRUB0).
  { cbv [bind modify ret zdlRead_post]. cbn [canCount setCanCount].
    rewrite avail_setCanCount. auto. }
  destruct (c =? ZRUB1).
  { cbv [bind modify ret zdlRead_post]. cbn [canCount setCanCount].
    rewrite avail_setCanCount. auto. }
  destruct (c >=? 0x40).
  { cbv [bind modify ret zdlRead_post]. cbn [canCount setCanCount].
    rewrite avail_setCanCount. auto. }
  assert (Hrec : forall t4, avail t4 = avail t3 ->
                            zdlRead_post tr (zdlRead_loop fuel t4)).
  { intros t4 A4. specialize (IH t4). rewrite A4 in IH.
    assert (Hlt : (length (avail t3) < fuel)%nat) by lia.
    specialize (IH Hlt). unfold zdlRead_post in *.
    destruct (zdlRead_loop fuel t4) as [[[b' fe]|e|] t5]; auto.
    destruct IH as (I1 & I2 & I3). rewrite A4 in I2.
    repeat split; auto. lia. }
  destruct (c =? CAN).
  - cbv [bind modify get]. cbn [canCount setCanCount].
    destruct (canCount t3 + 1 >=? 5); [right; reflexivity|].
    cbv [ret]. apply Hrec. reflexivity.
  - cbv [bind ret]. apply Hrec. reflexivity.
Qed.

Lemma zdlRead_inv tr : zdlRead_post tr (zdlRead tr).
Proof. apply zdlRead_loop_inv. lia. Qed.

(** [zdlRead] always returns; whenever it returns an octet or an end
    marker, the CAN counter is back at 0 and input has been consumed. *)
Lemma zdlRead_total tr : fst (zdlRead tr) <> Stuck.
Proof.
  pose proof (zdlRead_inv tr) as H. unfold zdlRead_post in H.
  destruct (zdlRead tr) as [[[b fe]|e|] t]; [discriminate | discriminate |].
  destruct H.
Qed.

Lemma zdlRead_Ok tr b fe tr' :
  zdlRead tr = (Ok (b, fe), tr') ->
  canCount tr' = 0 /\ (length (avail tr') < length (avail tr))%nat
  /\ (fe = 0 \/ is_endType fe).
Proof.
  intros E. pose proof (zdlRead_inv tr) as H. rewrite E in H. exact H.
Qed.



Lemma gtb_false a b : a <= b -> (a >? b) = false.
Proof. intros. rewrite Z.gtb_ltb. apply Z.ltb_ge. assumption. Qed.


(** One pass over an octet that is neither CAN nor ZPAD: the CAN counter is
    reset and the octet counts as garbage. *)
Lemma scanForPad_loop_garbage fuel tr b rest :
  avail tr = b :: rest -> b <> CAN -> b <> ZPAD ->
  exists t1,
    avail t1 = rest /\ canCount t1 = 0 /\
    garbageCount t1 = garbageCount tr + 1 /\ garbageMax t1 = garbageMax tr /\
    scanForPad_loop (S fuel) tr
    = if garbageCount t1 >? garbageMax t1 then (Err errGarbageOverflow, t1)
      else scanForPad_loop fuel t1.
Proof.
  intros Ha Hc Hp. cbn [scanForPad_loop].
  destruct (readByte_cons tr _ _ Ha) as (t0 & E & A & (C1 & C2 & C3)).
  rewrite (bind_Ok _ _ _ _ _ E).
  apply Z.eqb_neq in Hc, Hp. rewrite Hc.
  exists (setGarbageCount (garbageCount t0 + 1) (setCanCount 0 t0)).
  cbn [avail canCount garbageCount garbageMax setCanCount setGarbageCount
       r_buf r_src].
  split; [exact A|]. split; [reflexivity|].
  split; [rewrite C2; reflexivity|]. split; [exact C3|].
  cbv [bind modify get countGarbage fail ret].
  cbn [canCount garbageCount garbageMax setCanCount setGarbageCount].
  rewrite Hp. cbn [negb]. cbv beta.
  cbn [garbageCount garbageMax setCanCount setGarbageCount].
  destruct (garbageCount t0 + 1 >? garbageMax t0); reflexivity.
Qed.


Lemma scanForPad_loop_skip pre : forall fuel tr rest,
  Forall (fun b => b <> CAN /\ b <> ZPAD) pre ->
  garbageCount tr + Z.of_nat (length pre) <= garbageMax tr ->
  avail tr = pre ++ rest ->
  exists tr',
    scanForPad_loop (length pre + fuel) tr = scanForPad_loop fuel tr'
    /\ avail tr' = rest
    /\ canCount tr' = match pre with [] => canCount tr | _ => 0 end
    /\ garbageCount tr' = garbageCount tr + Z.of_nat (length pre)
    /\ garbageMax tr' = garbageMax tr.
Proof.
  induction pre as [|b pre IH]; intros fuel tr rest Hp Hg Ha.
  - exists tr. cbn [length Nat.add]. rewrite Z.add_0_r. auto.
  - inversion Hp as [|? ? [Hc Hz] Hp']; subst.
    cbn [length Nat.add app] in *.
    destruct (scanForPad_loop_garbage (length pre + fuel) tr b _ Ha Hc Hz)
      as (t1 & A1 & C1 & G1 & M1 & E).
    rewrite E, gtb_false by lia.
    destruct (IH fuel t1 rest Hp') as (t2 & E2 & A2 & C2 & G2 & M2);
      [lia | exact A1 |].
    exists t2. split; [exact E2|]. split; [exact A2|].
    split; [destruct pre; congruence|]. split; [lia | congruence].
Qed.

Lemma scanForPad_loop_inv fuel : forall tr n,
  (length (avail tr) < fuel)%nat -> (length (avail tr) <= n)%nat ->
  scanForPad_post n (scanForPad_loop fuel tr).
Proof.
  induction fuel as [|fuel IH]; intros tr n Hf Hn; [lia|].
  cbn [scanForPad_loop].
  destruct (readByte_inv tr) as (t1 & C1 & [(E & A & A') | (b & E & A)]).
  { rewrite (bind_Err _ _ _ _ _ E). exact I. }
  rewrite (bind_Ok _ _ _ _ _ E).
  assert (L1 : (length (avail t1) < fuel)%nat)
    by (rewrite A in Hf; simpl in Hf; lia).
  assert (N1 : (length (avail t1) < n)%nat)
    by (rewrite A in Hn; simpl in Hn; lia).
  assert (Hrec : forall t, (length (avail t) <= length (avail t1))%nat ->
                           scanForPad_post n
                             ((countGarbage ;;; scanForPad_loop fuel) t)).
  { intros t Ht. cbv [bind countGarbage modify get fail ret].
    cbn [garbageCount garbageMax setGarbageCount].
    destruct (garbageCount t + 1 >? garbageMax t); [exact I|].
    apply IH; change (avail (setGarbageCount (garbageCount t + 1) t))
                with (avail t); lia. }
  destruct (b =? CAN).
  { unfold bind at 1. unfold modify at 1. unfold bind at 1. unfold get at 1.
    cbn [canCount setCanCount].
    destruct (canCount t1 + 1 >=? 5); [exact I|].
    apply Hrec. apply Nat.le_refl. }
  unfold bind at 1. unfold modify at 1.
  destruct (b =? ZPAD); cbn [negb]; [|apply Hrec; apply Nat.le_refl].
  set (t2 := setCanCount 0 t1).
  destruct (readByte_inv t2) as (t3 & C3 & [(E3 & A3 & A3') | (b3 & E3 & A3)]).
  { rewrite (bind_Err _ _ _ _ _ E3). exact I. }
  rewrite (bind_Ok _ _ _ _ _ E3).
  assert (L3 : (length (avail t3) < length (avail t1))%nat).
  { change (avail t2) with (avail t1) in A3. rewrite A3. simpl. lia. }
  assert (K3 : canCount t3 = 0) by (destruct C3 as (-> & _); reflexivity).
  assert (Htail : forall b0 t,
             (length (avail t) <= length (avail t1))%nat -> canCount t = 0 ->
             scanForPad_post n
               ((if negb (b0 =? ZDLE)
                 then countGarbage ;;; scanForPad_loop fuel
                 else
                   enc <- readByte ;;
                   (if (enc =? ZBIN) || (enc =? ZHEX) || (enc =? ZBIN32)
                    then modify (setGarbageCount 0) ;;; ret enc
                    else
                      if (enc =? ZBINR32) || (enc =? ZVBIN) || (enc =? ZVHEX)
                         || (enc =? ZVBIN32) || (enc =? ZVBINR32)
                      then fail (ErrWrap "%w: 0x%02x" errUnsupportedEnc)
                      else countGarbage ;;; scanForPad_loop fuel)) t)).
  { intros b0 t Lt Kt.
    destruct (negb (b0 =? ZDLE)); [apply Hrec; exact Lt|].
    destruct (readByte_inv t) as (t5 & C5 & [(E5 & A5 & A5') | (enc & E5 & A5)]).
    { rewrite (bind_Err _ _ _ _ _ E5). exact I. }
    rewrite (bind_Ok _ _ _ _ _ E5).
    assert (L5 : (length (avail t5) < length (avail t1))%nat)
      by (rewrite A5 in Lt; simpl in Lt; lia).
    destruct ((enc =? ZBIN) || (enc =? ZHEX) || (enc =? ZBIN32)) eqn:Henc.
    { cbv [bind modify ret scanForPad_post].
      cbn [canCount garbageCount setGarbageCount].
      change (avail (setGarbageCount 0 t5)) with (avail t5).
      destruct C5 as (-> & _). repeat split; auto. lia. }
    destruct ((enc =? ZBINR32) || (enc =? ZVBIN) || (enc =? ZVHEX)
              || (enc =? ZVBIN32) || (enc =? ZVBINR32)); [exact I|].
    apply Hrec. lia. }
  destruct (b3 =? ZPAD).
  - destruct (readByte_inv t3) as (t4 & C4 & [(E4 & A4 & A4') | (b4 & E4 & A4)]).
    { rewrite (bind_Err _ _ _ _ _ E4). exact I. }
    rewrite (bind_Ok _ _ _ _ _ E4). apply Htail.
    + rewrite A4 in L3. simpl in L3. lia.
    + destruct C4 as (-> & _). exact K3.
  - unfold bind at 1. unfold ret at 1. apply Htail; [lia | exact K3].
Qed.

Lemma scanForPad_inv tr :
  scanForPad_post (length (avail tr)) (scanForPad tr).
Proof.
  unfold scanForPad.
  apply scanForPad_loop_inv; change (avail (setCanCount 0 tr)) with (avail tr);
    lia.
Qed.

(** [scanForPad] always returns, and a frame start leaves both counters
    at 0. *)
Lemma scanForPad_total tr : fst (scanForPad tr) <> Stuck.
Proof.
  pose proof (scanForPad_inv tr) as H. unfold scanForPad_post in H.
  destruct (scanForPad tr) as [[enc|e|] t]; [discriminate | discriminate |].
  destruct H.
Qed.







(** ** Configuration defaults *)

Lemma if_mk (b : bool) a1 a2 a3 a4 a5 a6 a7 a8 a9 a10 a11
      b1 b2 b3 b4 b5 b6 b7 b8 b9 b10 b11 :
  (if b then Config.mk a1 a2 a3 a4 a5 a6 a7 a8 a9 a10 a11
   else Config.mk b1 b2 b3 b4 b5 b6 b7 b8 b9 b10 b11)
  = Config.mk (if b then a1 else b1) (if b then a2 else b2)
              (if b then a3 else b3) (if b then a4 else b4)
              (if b then a5 else b5) (if b then a6 else b6)
              (if b then a7 else b7) (if b then a8 else b8)
              (if b then a9 else b9) (if b then a10 else b10)
              (if b then a11 else b11).
Proof. destruct b; reflexivity. Qed.

Lemma if_same {A} (b : bool) (x : A) : (if b then x else x) = x.
Proof. destruct b; reflexivity. Qed.

(** One assignment of [defaults] at a time: the conditional is pushed
    into the fields before the value is passed on to the next test. *)
Ltac defaults_step :=
  lazymatch goal with
  | |- (let c := ?v in @?f c) = ?r =>
      let v' := eval cbn [Config.MaxBlockSize Config.WindowSize
                          Config.EscapeMode Config.Use32BitCRC
                          Config.AttnSequence Config.RecvTimeout
                          Config.Capabilities Config.MaxFileSize
                          Config.MaxRetries Config.GarbageThreshold
                          Config.Znulls] in v in
      change (f v' = r); rewrite if_mk, ?if_same; cbv beta
  end.

(** [defaults], field by field. *)
Lemma defaults_fields mbs ws em u32 attn rt caps mfs mr gt zn :
  Config.defaults (Config.mk mbs ws em u32 attn rt caps mfs mr gt zn)
  = Config.mk (if mbs <=? 0 then 1024 else if mbs >? 8192 then 8192 else mbs)
              ws em u32 attn (if rt <? 0 then 0 else rt) caps mfs
              (if mr <=? 0 then 10 else mr) (if gt <=? 0 then 1200 else gt)
              zn.
Proof.
  cbv delta [Config.defaults]; cbv beta.
  do 4 defaults_step.
  cbn [Config.MaxBlockSize Config.WindowSize Config.EscapeMode
       Config.Use32BitCRC Config.AttnSequence Config.RecvTimeout
       Config.Capabilities Config.MaxFileSize Config.MaxRetries
       Config.GarbageThreshold Config.Znulls].
  rewrite if_mk, ?if_same.
  f_equal. destruct (mbs <=? 0); reflexivity.
Qed.

(** ** Read deadlines *)

Lemma quiet_refl tr : quiet tr tr.
Proof. unfold quiet. auto. Qed.

Lemma quiet_trans a b c : quiet a b -> quiet b c -> quiet a c.
Proof.
  unfold quiet. intros (A1 & A2 & A3) (B1 & B2 & B3).
  repeat split; congruence.
Qed.

Section QuietRules.
Context {St : Type} (rd : St -> transportReader).

Lemma quietM_ret {A} (a : A) : quietM rd (ret a).
Proof. intros s _. apply quiet_refl. Qed.

Lemma quietM_fail {A} e : quietM rd (@fail St A e).
Proof. intros s _. apply quiet_refl. Qed.

Lemma quietM_stuck {A} : quietM rd (@stuck St A).
Proof. intros s _. apply quiet_refl. Qed.

Lemma quietM_get : quietM rd (@get St).
Proof. intros s _. apply quiet_refl. Qed.

Lemma quietM_modify (f : St -> St) :
  (forall s, quiet (rd s) (rd (f s))) -> quietM rd (modify f).
Proof. intros H s _. apply H. Qed.

Lemma quietM_bind {A B} (m : M St A) (k : A -> M St B) :
  quietM rd m -> (forall a, quietM rd (k a)) -> quietM rd (bind m k).
Proof.
  intros Hm Hk s Hs. unfold bind. specialize (Hm s Hs).
  destruct (m s) as [[a|e|] s']; cbn [snd] in *; try exact Hm.
  apply (quiet_trans _ _ _ Hm). apply Hk.
  destruct Hm as (-> & _). exact Hs.
Qed.

Lemma quietM_wrapErr {A} msg (m : M St A) :
  quietM rd m -> quietM rd (wrapErr msg m).
Proof.
  intros Hm s Hs. unfold wrapErr. specialize (Hm s Hs).
  destruct (m s) as [[a|e|] s']; exact Hm.
Qed.

Lemma quietM_timesM {A} n (m : M St A) :
  quietM rd m -> quietM rd (timesM n m).
Proof.
  intros Hm. induction n as [|n IH]; cbn [timesM].
  - apply quietM_ret.
  - apply quietM_bind; [exact Hm|]. intros a.
    apply quietM_bind; [exact IH|]. intros l. apply quietM_ret.
Qed.
End QuietRules.

(** Breaks a monadic term down to its reads. *)
Ltac quiet_step :=
  match goal with
  | |- quietM _ (bind _ _) => apply quietM_bind; [|intro]
  | |- quietM _ (ret _) => apply quietM_ret
  | |- quietM _ (fail _) => apply quietM_fail
  | |- quietM _ stuck => apply quietM_stuck
  | |- quietM _ get => apply quietM_get
  | |- quietM _ (wrapErr _ _) => apply quietM_wrapErr
  | |- quietM _ (timesM _ _) => apply quietM_timesM
  | |- quietM _ (modify _) =>
      apply quietM_modify; intro; unfold quiet, id, resetGarbage;
      cbn [timeout ds deadlines setCanCount setGarbageCount tr setTr]; auto
  | |- quietM _ (if ?c then _ else _) => destruct c
  | |- quietM _ (match ?x with _ => _ end) => destruct x
  end.

Lemma readByte_quiet : quietM id readByte.
Proof.
  intros tr Ht. unfold id, readByte.
  assert (G : (timeout tr >? 0) = false) by (apply gtb_false; exact Ht).
  rewrite G, andb_false_r. unfold ReadByte.
  destruct (r_buf tr); [destruct (r_src tr)|]; unfold quiet;
    cbn [snd timeout ds deadlines setInput]; auto.
Qed.

Lemma clearDeadline_quiet tr : timeout tr <= 0 -> clearDeadline tr = tr.
Proof.
  intros Ht. unfold clearDeadline.
  rewrite (gtb_false _ _ Ht), andb_false_r. reflexivity.
Qed.

Lemma readByteStrip_loop_quiet fuel : quietM id (readByteStrip_loop fuel).
Proof.
  induction fuel as [|fuel IH]; cbn [readByteStrip_loop].
  - apply quietM_stuck.
  - repeat first [exact IH | exact readByte_quiet | quiet_step].
Qed.

Lemma readByteStrip_quiet : quietM id readByteStrip.
Proof. intros tr. apply readByteStrip_loop_quiet. Qed.

Lemma zdlRead_loop_quiet fuel : quietM id (zdlRead_loop fuel).
Proof.
  induction fuel as [|fuel IH]; cbn [zdlRead_loop].
  - apply quietM_stuck.
  - unfold zdlEscape_body.
    repeat first [exact IH | exact readByteStrip_quiet | quiet_step].
Qed.

Lemma zdlRead_quiet : quietM id zdlRead.
Proof. intros tr. apply zdlRead_loop_quiet. Qed.

Lemma readHex_quiet : quietM id readHex.
Proof.
  unfold readHex. repeat first [exact readByte_quiet | quiet_step].
Qed.

Lemma countGarbage_quiet : quietM id countGarbage.
Proof. unfold countGarbage. repeat quiet_step. Qed.

Lemma scanForPad_loop_quiet fuel : quietM id (scanForPad_loop fuel).
Proof.
  induction fuel as [|fuel IH]; cbn [scanForPad_loop].
  - apply quietM_stuck.
  - repeat first [exact IH | exact readByte_quiet | exact countGarbage_quiet
                 | quiet_step].
Qed.

Lemma scanForPad_quiet : quietM id scanForPad.
Proof.
  intros tr Ht. unfold scanForPad.
  apply (scanForPad_loop_quiet _ (setCanCount 0 tr) Ht).
Qed.

Lemma onReader_quiet {A} (m : RM A) : quietM id m -> quietM tr (onReader m).
Proof.
  intros Hm s Hs. unfold onReader. specialize (Hm (tr s) Hs). unfold id in Hm.
  destruct (m (tr s)) as [r t']. exact Hm.
Qed.

Section QuietSession.
Context {crc : CRC}.

Lemma zdlReadNoEnd_quiet m1 m2 : quietM tr (zdlReadNoEnd m1 m2).
Proof.
  unfold zdlReadNoEnd.
  repeat first [apply onReader_quiet; exact zdlRead_quiet | quiet_step].
Qed.

Lemma recvSubpacketCRC16_loop_quiet fuel : forall data maxLen,
  quietM tr (recvSubpacketCRC16_loop fuel data maxLen).
Proof.
  induction fuel as [|fuel IH]; intros data maxLen;
    cbn [recvSubpacketCRC16_loop].
  - apply quietM_stuck.
  - repeat first [apply IH | apply zdlReadNoEnd_quiet
                 | apply onReader_quiet; exact zdlRead_quiet | quiet_step].
Qed.

Lemma recvSubpacketCRC32_loop_quiet fuel : forall data maxLen,
  quietM tr (recvSubpacketCRC32_loop fuel data maxLen).
Proof.
  induction fuel as [|fuel IH]; intros data maxLen;
    cbn [recvSubpacketCRC32_loop].
  - apply quietM_stuck.
  - repeat first [apply IH | apply zdlReadNoEnd_quiet
                 | apply onReader_quiet; exact zdlRead_quiet | quiet_step].
Qed.

Lemma recvSubpacket_quiet maxLen : quietM tr (recvSubpacket maxLen).
Proof.
  intros s Hs. unfold recvSubpacket, recvSubpacketCRC32, recvSubpacketCRC16.
  destruct (useCRC32 s).
  - apply recvSubpacketCRC32_loop_quiet. exact Hs.
  - apply recvSubpacketCRC16_loop_quiet. exact Hs.
Qed.

Lemma recvHexHeader_quiet : quietM tr recvHexHeader.
Proof.
  unfold recvHexHeader.
  repeat first [apply onReader_quiet; exact readHex_quiet
               | apply onReader_quiet; exact readByte_quiet
               | quiet_step].
  all: try (intros s0 Hs0; cbn [snd];
            pose proof (onReader_quiet readByte readByte_quiet s0 Hs0) as H;
            exact H).
Qed.

Lemma recvBinHeader_quiet m : quietM tr (recvBinHeader m).
Proof.
  unfold recvBinHeader.
  repeat first [apply zdlReadNoEnd_quiet | quiet_step].
Qed.

Lemma recvHeader_quiet : quietM tr recvHeader.
Proof.
  unfold recvHeader.
  repeat first [apply onReader_quiet; exact scanForPad_quiet
               | exact recvHexHeader_quiet | apply recvBinHeader_quiet
               | quiet_step].
Qed.

(** C10.  [NewSession] gives the reader the 10 s timeout exactly when the
    Config pointer is nil; with a Config the timeout is its RecvTimeout, a
    negative one having been set to 0 by [defaults].  A reader whose
    timeout is 0 never touches the transport's deadline: neither a raw
    read, nor [clearDeadline], nor a whole [recvHeader] or
    [recvSubpacket]. *)
Theorem recvTimeout_default_only_for_nil (src : list Z) (hasDeadline : bool)
        (h : FileHandler) :
  timeout (tr (NewSession src hasDeadline h None)) = 10 * second
  /\ (forall c,
         let s := NewSession src hasDeadline h (Some c) in
         timeout (tr s) = Z.max 0 (Config.RecvTimeout c)
         /\ Config.RecvTimeout (cfg s) = Z.max 0 (Config.RecvTimeout c)
         /\ deadlines (tr s) = [])
  /\ (forall c, Config.RecvTimeout c <= 0 ->
                timeout (tr (NewSession src hasDeadline h (Some c))) = 0)
  /\ (forall s : Session,
         timeout (tr s) <= 0 ->
         quiet (tr s) (snd (readByte (tr s)))
         /\ clearDeadline (tr s) = tr s
         /\ quiet (tr s) (tr (snd (recvHeader s)))
         /\ forall maxLen, quiet (tr s) (tr (snd (recvSubpacket maxLen s)))).
Proof.
  assert (H2 : forall c,
             timeout (tr (NewSession src hasDeadline h (Some c)))
             = Z.max 0 (Config.RecvTimeout c)
             /\ Config.RecvTimeout (cfg (NewSession src hasDeadline h (Some c)))
                = Z.max 0 (Config.RecvTimeout c)).
  { intros [mbs ws em u32c attn rt caps mfs mr gt zn]. unfold NewSession.
    rewrite defaults_fields.
    cbn [tr cfg timeout newTransportReader Config.RecvTimeout].
    destruct (Z.ltb_spec rt 0); lia. }
  split; [reflexivity|]. split; [|split].
  - intros c s. destruct (H2 c) as [A B]. auto.
  - intros c Hc. destruct (H2 c) as [A _]. rewrite A. lia.
  - intros s Hs. split; [exact (readByte_quiet (tr s) Hs)|].
    split; [exact (clearDeadline_quiet (tr s) Hs)|].
    split; [exact (recvHeader_quiet s Hs)|].
    intros maxLen. exact (recvSubpacket_quiet maxLen s Hs).
Qed.

End QuietSession.

(** A Config with RecvTimeout 0, one with a negative RecvTimeout and the
    nil Config, on a transport that supports deadlines. *)
Lemma recvTimeout_default_only_for_nil_witness :
  let c0 := Config.mk 1024 0 EscapeStandard false [] 0 0 0 0 0 0 in
  let cneg := Config.mk 1024 0 EscapeStandard false [] (-5) 0 0 0 0 0 in
  let h := mkHandler [] [] in
  let s0 := NewSession [ZPAD; ZPAD; ZDLE; ZHEX] true h (Some c0) in
  timeout (tr s0) = 0
  /\ timeout (tr (NewSession [] true h (Some cneg))) = 0
  /\ timeout (tr (NewSession [] true h None)) = 10000000000
  /\ deadlines (tr (snd (recvHeader s0))) = []
  /\ deadlines (tr (snd (recvHeader (NewSession [ZPAD] true h None))))
     = [DeadlineIn 10000000000; DeadlineIn 10000000000].
Proof.
  intros c0 cneg h s0.
  destruct (recvTimeout_default_only_for_nil [ZPAD; ZPAD; ZDLE; ZHEX] true h)
    as (_ & _ & H0 & Hq).
  destruct (recvTimeout_default_only_for_nil [] true h) as (Hnil & _ & Hneg & _).
  split; [apply H0; cbn; lia|].
  split; [apply Hneg; cbn; lia|].
  split; [exact Hnil|].
  split.
  - assert (Hs : timeout (tr s0) <= 0) by (vm_compute; discriminate).
    destruct (Hq s0 Hs) as (_ & _ & (_ & _ & Hd) & _). rewrite Hd. reflexivity.
  - vm_compute. reflexivity.
Defined.

(** ** File metadata *)

Lemma indexNUL_spec data : forall i,
  0 <= i ->
  (In 0 data /\ indexNUL data i = i + Z.of_nat (length (beforeNUL data)))
  \/ (~ In 0 data /\ indexNUL data i = -1).
Proof.
  induction data as [|b data IH]; intros i Hi.
  - right. split; [intros []| reflexivity].
  - cbn [indexNUL beforeNUL]. destruct (Z.eqb_spec b 0) as [-> | Hb].
    + left. split; [left; reflexivity | cbn [length]; lia].
    + destruct (IH (i + 1)) as [(H1 & H2) | (H1 & H2)]; [lia | |].
      * left. split; [right; exact H1|]. rewrite H2. cbn [length]. lia.
      * right. split; [|exact H2]. intros [E | E]; [congruence | auto].
Qed.

Lemma firstn_beforeNUL data :
  In 0 data -> firstn (length (beforeNUL data)) data = beforeNUL data.
Proof.
  induction data as [|b data IH]; intros H; [destruct H|].
  cbn [beforeNUL]. destruct (Z.eqb_spec b 0) as [-> | Hb]; [reflexivity|].
  cbn [length firstn]. f_equal. apply IH.
  destruct H as [E | E]; [congruence | exact E].
Qed.

Lemma skipn_afterNUL data :
  In 0 data -> skipn (S (length (beforeNUL data))) data = afterNUL data.
Proof.
  induction data as [|b data IH]; intros H; [destruct H|].
  cbn [beforeNUL afterNUL]. destruct (Z.eqb_spec b 0) as [-> | Hb];
    [reflexivity|].
  cbn [length skipn]. apply IH.
  destruct H as [E | E]; [congruence | exact E].
Qed.

Section ParseFileInfoFacts.
Context {go : GoStrings}.

(** C9.  [parseFileInfo] fails exactly on inputs without a NUL.  On any
    other input it succeeds with the octets before the first NUL as the
    name, and a field that the library parser rejects leaves its FileInfo
    member at the zero value (0, or the zero time). *)
Theorem parseFileInfo_error_iff_no_NUL (data : list Z) :
  ((exists e, parseFileInfo data = Err e) <-> ~ In 0 data)
  /\
  (In 0 data ->
   exists info,
     parseFileInfo data = Ok info
     /\ FileInfo.Name info = beforeNUL data
     /\ let fields := Fields (trimTrailingNUL (afterNUL data)) in
        (ParseInt (nth 0 fields []) 10 64 = None -> FileInfo.Size info = 0)
        /\ (ParseInt (nth 1 fields []) 8 64 = None ->
            FileInfo.ModTime info = None)
        /\ (ParseUint (nth 2 fields []) 8 32 = None ->
            FileInfo.Mode info = 0)
        /\ (Atoi (nth 4 fields []) = None ->
            FileInfo.FilesRemaining info = 0)
        /\ (ParseInt (nth 5 fields []) 10 64 = None ->
            FileInfo.BytesRemaining info = 0)).
Proof.
  assert (Hok : In 0 data ->
     exists info,
       parseFileInfo data = Ok info
       /\ FileInfo.Name info = beforeNUL data
       /\ let fields := Fields (trimTrailingNUL (afterNUL data)) in
          (ParseInt (nth 0 fields []) 10 64 = None -> FileInfo.Size info = 0)
          /\ (ParseInt (nth 1 fields []) 8 64 = None ->
              FileInfo.ModTime info = None)
          /\ (ParseUint (nth 2 fields []) 8 32 = None ->
              FileInfo.Mode info = 0)
          /\ (Atoi (nth 4 fields []) = None ->
              FileInfo.FilesRemaining info = 0)
          /\ (ParseInt (nth 5 fields []) 10 64 = None ->
              FileInfo.BytesRemaining info = 0)).
  { intros Hin. unfold parseFileInfo. cbv zeta.
    destruct (indexNUL_spec data 0) as [(_ & E) | (Hn & _)];
      [lia | | contradiction].
    rewrite E. rewrite Z.add_0_l.
    assert (G : (Z.of_nat (length (beforeNUL data)) <? 0) = false)
      by (apply Z.ltb_ge; lia).
    rewrite G. rewrite Nat2Z.id.
    replace (Z.to_nat (Z.of_nat (length (beforeNUL data)) + 1))
      with (S (length (beforeNUL data))) by lia.
    rewrite (firstn_beforeNUL data Hin), (skipn_afterNUL data Hin).
    destruct (Z.of_nat (length (trimTrailingNUL (afterNUL data))) =? 0).
    - eexists. split; [reflexivity|]. split; [reflexivity|].
      cbn [FileInfo.Size FileInfo.ModTime FileInfo.Mode
           FileInfo.FilesRemaining FileInfo.BytesRemaining]. auto 10.
    - eexists. split; [reflexivity|]. split; [reflexivity|].
      cbn [FileInfo.Size FileInfo.ModTime FileInfo.Mode
           FileInfo.FilesRemaining FileInfo.BytesRemaining].
      repeat split; intros ->;
        match goal with |- context [if ?c then _ else _] => destruct c end;
        reflexivity. }
  split; [|exact Hok]. split.
  - intros (e & He) Hin. destruct (Hok Hin) as (info & E & _). congruence.
  - intros Hn. unfold parseFileInfo. cbv zeta.
    destruct (indexNUL_spec data 0) as [(Hin & _) | (_ & E)];
      [lia | contradiction |].
    rewrite E. eexists. reflexivity.
Qed.

End ParseFileInfoFacts.

(** "f.bin", NUL, then a size that is not decimal, an mtime that is not
    octal, a mode, a serial and a files-remaining hint that is not
    decimal. *)
Lemma parseFileInfo_error_iff_no_NUL_witness :
  let data := [0x66; 0x2e; 0x62; 0x69; 0x6e; 0;
               0x31; 0x32; 0x61; 0x20; 0x39; 0x20; 0x36; 0x34; 0x34; 0x20;
               0x30; 0x20; 0x78; 0] in
  In 0 data
  /\ parseFileInfo data
     = Ok (FileInfo.mk [0x66; 0x2e; 0x62; 0x69; 0x6e] 0 None 420 0 0)
  /\ (exists e, parseFileInfo [0x66; 0x2e; 0x62; 0x69; 0x6e] = Err e).
Proof.
  intros data.
  assert (Hin : In 0 data) by (subst data; cbn; tauto).
  split; [exact Hin|].
  destruct (parseFileInfo_error_iff_no_NUL (go := asciiStrings) data)
    as (_ & H).
  destruct (H Hin) as (info & E & _).
  split.
  - rewrite E. vm_compute in E. injection E as <-. reflexivity.
  - apply (proj1 (parseFileInfo_error_iff_no_NUL
                    (go := asciiStrings) [0x66; 0x2e; 0x62; 0x69; 0x6e])).
    cbn. intros H0. repeat (destruct H0 as [H0 | H0]; [discriminate|]).
    exact H0.
Defined.

(** ** Sender: per-file state *)

(** C4, as the code has it.  When [NextFile] hands out an offer, the
    NextFile state sets file offset, bytes sent, both retry counters and the
    good-block counter to 0 and the zcrcw-next flag to false, and moves on
    to the state that sends ZFILE without having written anything.  The
    block size, good-needed and the unreliable flag are left as they are;
    256, 8 and false are their values when the loop is entered. *)
Theorem nextFile_resets (s : Session) (v : senderVars) (o : FileOffer.t)
        (h' : FileHandler) :
  NextFile (handler s) = (Some o, h') ->
  let '(s', v') := stepNextFile s v in
  state v' = stxFileInfo /\ curOffer v' = Some o /\ handler s' = h'
  /\ tw s' = tw s
  /\ fileOffset v' = 0 /\ bytesSent v' = 0 /\ retries v' = 0
  /\ goodBlocks v' = 0 /\ zcrcwNext v' = false /\ zcrcwRetries v' = 0
  /\ blockSize v' = blockSize v /\ goodNeeded v' = goodNeeded v
  /\ unreliable v' = unreliable v
  /\ blockSize senderVars0 = 256 /\ goodNeeded senderVars0 = 8
  /\ unreliable senderVars0 = false.
Proof.
  intros E. unfold stepNextFile. rewrite E. cbn. repeat split.
Qed.

Lemma nextFile_resets_witness :
  let o := FileOffer.mk [0x61] 3 None 420 (mkFileReader [1; 2; 3] 0 true) in
  let s := NewSession [] false (mkHandler [o] []) None in
  let v := setState stxNextFile senderVars0 in
  NextFile (handler s) = (Some o, mkHandler [] [])
  /\ fileOffset (snd (stepNextFile s v)) = 0
  /\ blockSize (snd (stepNextFile s v)) = 256
  /\ state (snd (stepNextFile s v)) = stxFileInfo.
Proof.
  intros o s v.
  assert (E : NextFile (handler s) = (Some o, mkHandler [] [])) by reflexivity.
  pose proof (nextFile_resets s v o _ E) as H.
  destruct (stepNextFile s v) as [s' v'].
  destruct H as (H1 & _ & _ & _ & H2 & _ & _ & _ & _ & _ & H3 & _).
  cbn [snd]. rewrite H1, H2, H3. repeat split.
Defined.

(** C4 as stated fails: a file that follows one during which a ZRPOS was
    handled starts with the reduced block size and with the unreliable
    flag still set, so that 16 good blocks are needed, not 8. *)
Lemma nextFile_keeps_blockSize :
  let o := FileOffer.mk [0x61] 3 None 420 (mkFileReader [1; 2; 3] 0 true) in
  let s := NewSession [] false (mkHandler [o] []) None in
  let v := setState stxNextFile (zrposRecovery o 0 senderVars0) in
  let v' := snd (stepNextFile s v) in
  state v' = stxFileInfo /\ blockSize v' = 64 /\ unreliable v' = true
  /\ adaptNeeded v' = 16.
Proof. vm_compute. repeat split. Qed.

(** ** Sender: ZRPOS on the reverse channel *)



Lemma Position_makePosHeader T pos : Position (makePosHeader T pos) = u32 pos.
Proof.
  unfold makePosHeader, SetPosition, Position. cbn [Data d0 d1 d2 d3].
  apply (Uint32_PutUint32 (u32 pos)).
  unfold u32. apply Z.mod_pos_bound. lia.
Qed.

Section SenderFacts.
Context {crc : CRC}.


End SenderFacts.



(** ** Receiver: dispatch on the end type *)

Section ReceiverFacts.
Context {crc : CRC} (laws : CRCLaws crc).

Lemma zdlReadNoEnd_inv m1 m2 s r s' :
  zdlReadNoEnd m1 m2 s = (r, s') -> r <> Stuck.
Proof.
  unfold zdlReadNoEnd, bind, wrapErr, onReader. intros E.
  pose proof (zdlRead_total (tr s)) as Ht.
  destruct (zdlRead (tr s)) as [[[b fe]|e|] t]; cbn [fst] in Ht;
    [| injection E as <- _; discriminate | congruence].
  destruct (negb (fe =? 0)); injection E as <- _; discriminate.
Qed.

Lemma recvSubpacketCRC16_loop_endType fuel : forall acc maxLen s d e s',
  recvSubpacketCRC16_loop fuel acc maxLen s = (Ok (d, e), s') ->
  is_endType e.
Proof.
  induction fuel as [|fuel IH]; intros acc maxLen s d e s' E;
    [discriminate E|].
  cbn [recvSubpacketCRC16_loop] in E.
  unfold bind at 1 in E. unfold wrapErr, onReader in E.
  destruct (zdlRead (tr s)) as [[[b fe]|err|] t] eqn:Ez;
    [| discriminate E | discriminate E].
  destruct (zdlRead_Ok _ _ _ _ Ez) as (_ & _ & Hfe).
  destruct (Z.eqb_spec fe 0) as [-> | Hne]; cbn [negb] in E.
  - destruct (_ >=? _); [discriminate E|]. exact (IH _ _ _ _ _ _ E).
  - destruct Hfe as [-> | Hfe]; [congruence|].
    unfold bind in E.
    destruct (zdlReadNoEnd _ _ _) as [[hi|?|] s1]; try discriminate E.
    destruct (zdlReadNoEnd _ _ _) as [[lo|?|] s2]; try discriminate E.
    destruct (negb _); [discriminate E|].
    injection E as _ <- _. exact Hfe.
Qed.

Lemma recvSubpacketCRC32_loop_endType fuel : forall acc maxLen s d e s',
  recvSubpacketCRC32_loop fuel acc maxLen s = (Ok (d, e), s') ->
  is_endType e.
Proof.
  induction fuel as [|fuel IH]; intros acc maxLen s d e s' E;
    [discriminate E|].
  cbn [recvSubpacketCRC32_loop] in E.
  unfold bind at 1 in E. unfold wrapErr, onReader in E.
  destruct (zdlRead (tr s)) as [[[b fe]|err|] t] eqn:Ez;
    [| discriminate E | discriminate E].
  destruct (zdlRead_Ok _ _ _ _ Ez) as (_ & _ & Hfe).
  destruct (Z.eqb_spec fe 0) as [-> | Hne]; cbn [negb] in E.
  - destruct (_ >=? _); [discriminate E|]. exact (IH _ _ _ _ _ _ E).
  - destruct Hfe as [-> | Hfe]; [congruence|].
    unfold bind in E.
    destruct (timesM _ _ _) as [[crcBuf|?|] s1]; try discriminate E.
    destruct (negb _); [discriminate E|].
    injection E as _ <- _. exact Hfe.
Qed.

(** Whatever [recvSubpacket] returns as end type is one of the four
    markers. *)
Lemma recvSubpacket_endType maxLen s d e s' :
  recvSubpacket maxLen s = (Ok (d, e), s') -> is_endType e.
Proof.
  unfold recvSubpacket, recvSubpacketCRC16, recvSubpacketCRC32.
  destruct (useCRC32 s); intros E.
  - exact (recvSubpacketCRC32_loop_endType _ _ _ _ _ _ _ E).
  - exact (recvSubpacketCRC16_loop_endType _ _ _ _ _ _ _ E).
Qed.

(** C7.  In a pass of the data-subpacket loop in which the context is
    live, [recvSubpacket] returns [(data, endType)] and the sink accepts
    the write: the payload is appended to the sink and the offset
    advanced by its length; the end type is one of the four markers, and
    ZCRCG continues the loop without output, ZCRCQ continues it after a
    ZACK hex header at the new offset, ZCRCW returns nil after the same
    ZACK, and ZCRCE returns nil without output.  The ZACK is what the
    writer receives after everything written before: ZPAD ZPAD ZDLE 'B',
    the fourteen hex digits of the type ZACK, the four octets of the new
    offset (low octet first) and their CRC-16, then CR LF and no XON; the
    rest of the session is as it was, and a peer whose input starts with
    these octets decodes a ZACK header holding that offset. *)
Theorem data_subpacket_dispatch (s s1 : Session) (v : rxVars)
        (data : list Z) (endType : Z) :
  recvSubpacket (Config.MaxBlockSize (cfg s) + 256) s
  = (Ok (data, endType), s1) ->
  broken (sink v) = false ->
  let '(s2, v2) := afterWrite s1 v data in
  let hdr := makePosHeader ZACK (offset v2) in
  let ack := sendHexHeader hdr s2 in
  written (sink v2) = written (sink v) ++ data
  /\ offset v2 = offset v + Z.of_nat (length data)
  /\ tw s2 = tw s1
  /\ Type_ hdr = ZACK
  /\ Position hdr = u32 (offset v2)
  /\ w_out (tw ack)
     = w_out (tw s2) ++ [ZPAD; ZPAD; ZDLE; ZHEX]
       ++ hexWire (hexBody ZACK (Data hdr)) ++ [0x0d; 0x0a]
  /\ ack = setTw (tw ack) s2
  /\ (forall (rcv : Session) (rest : list Z),
         avail (tr rcv) = emitted (tw s2) (tw ack) ++ rest ->
         exists s', recvHeader rcv = (Ok (mkHeader ZHEX ZACK (Data hdr)), s'))
  /\ is_endType endType
  /\ (endType = ZCRCG ->
      receiveDataSubpackets_body None s v = (Again, s2, v2))
  /\ (endType = ZCRCQ ->
      receiveDataSubpackets_body None s v = (Again, ack, v2))
  /\ (endType = ZCRCW ->
      receiveDataSubpackets_body None s v = (Return None, ack, v2))
  /\ (endType = ZCRCE ->
      receiveDataSubpackets_body None s v = (Return None, s2, v2)).
Proof.
  intros Hrecv Hsink.
  pose proof (recvSubpacket_endType _ _ _ _ _ Hrecv) as Hend.
  assert (Hbody :
    receiveDataSubpackets_body None s v
    = let '(s2, v2) := afterWrite s1 v data in
      if endType =? ZCRCG then (Again, s2, v2)
      else if endType =? ZCRCQ then
        (Again, sendHexHeader (makePosHeader ZACK (offset v2)) s2, v2)
      else if endType =? ZCRCW then
        (Return None, sendHexHeader (makePosHeader ZACK (offset v2)) s2, v2)
      else if endType =? ZCRCE then (Return None, s2, v2)
      else (Again, s2, v2)).
  { unfold receiveDataSubpackets_body. rewrite Hrecv.
    unfold afterWrite, Write. rewrite Hsink.
    destruct data as [|b data]; [reflexivity|].
    replace (Z.of_nat (length (b :: data)) >? 0) with true
      by (symmetry; apply Z.gtb_lt; cbn [length]; lia).
    reflexivity. }
  destruct (afterWrite s1 v data) as [s2 v2] eqn:Ew.
  assert (Hv : written (sink v2) = written (sink v) ++ data
               /\ offset v2 = offset v + Z.of_nat (length data)
               /\ tw s2 = tw s1).
  { unfold afterWrite in Ew. destruct data as [|b data].
    - injection Ew as <- <-. rewrite app_nil_r. cbn [length]. 
      split; [reflexivity|]. split; [lia | reflexivity].
    - injection Ew as <- <-. cbn [sink written offset tw setHandler].
      auto. }
  destruct Hv as (Hw & Ho & Htw).
  cbv zeta.
  set (hdr := makePosHeader ZACK (offset v2)).
  assert (Hout : w_out (tw (sendHexHeader hdr s2))
                 = w_out (tw s2) ++ [ZPAD; ZPAD; ZDLE; ZHEX]
                   ++ hexWire (hexBody ZACK (Data hdr)) ++ [0x0d; 0x0a]).
  { rewrite sendHexHeader_out. change (Type_ hdr) with ZACK.
    change (negb (ZACK =? ZACK) && negb (ZACK =? ZFIN)) with false.
    cbv iota. rewrite app_nil_r. reflexivity. }
  split; [exact Hw|]. split; [exact Ho|]. split; [exact Htw|].
  split; [reflexivity|]. split; [apply Position_makePosHeader|].
  split; [exact Hout|]. split; [apply sendHexHeader_onlyTw|].
  split.
  { intros rcv rest Ha. rewrite (emitted_app _ _ _ Hout) in Ha.
    rewrite <- !app_assoc in Ha.
    apply (recvHeader_hex laws rcv ZACK (Data hdr) rest);
      [unfold is_byte, ZACK; lia | | exact Ha].
    subst hdr. unfold makePosHeader, SetPosition. cbn [Data dataBytes].
    repeat (apply Forall_cons; [apply u8_byte|]). constructor. }
  split; [exact Hend|].
  rewrite Hbody. repeat split; intros ->; reflexivity.
Qed.

End ReceiverFacts.

(** A ZDATA frame of two subpackets: "abc" ended by ZCRCQ is acknowledged
    at offset 3 and the loop goes on; "de" ended by ZCRCW is acknowledged
    at offset 5 and the loop returns nil.  The two acknowledgements on the
    wire are the headers "**" ZDLE "B0303000000750e" CR LF and
    "**" ZDLE "B03050000005297" CR LF. *)
Lemma data_subpacket_dispatch_witness :
  let peer := NewSession [] false (mkHandler [] []) None in
  let wire := w_out (tw (sendSubpacket [0x64; 0x65] ZCRCW
                           (sendSubpacket [0x61; 0x62; 0x63] ZCRCQ peer))) in
  let s := NewSession wire false (mkHandler [] []) None in
  let v := mkRx (mkSink [] false) FileInfo.zero 0 0 0 in
  let ack3 := [0x2a; 0x2a; 0x18; 0x42; 0x30; 0x33; 0x30; 0x33; 0x30; 0x30;
               0x30; 0x30; 0x30; 0x30; 0x37; 0x35; 0x30; 0x65; 0x0d; 0x0a] in
  let ack5 := [0x2a; 0x2a; 0x18; 0x42; 0x30; 0x33; 0x30; 0x35; 0x30; 0x30;
               0x30; 0x30; 0x30; 0x30; 0x35; 0x32; 0x39; 0x37; 0x0d; 0x0a] in
  (exists s2 v2,
      receiveDataSubpackets_body None s v = (Again, s2, v2)
      /\ offset v2 = 3 /\ written (sink v2) = [0x61; 0x62; 0x63]
      /\ w_out (tw s2) = ack3
      /\ exists s', recvHeader (NewSession (w_out (tw s2)) false
                                           (mkHandler [] []) None)
                    = (Ok (mkHeader ZHEX ZACK (mkData 3 0 0 0)), s'))
  /\ (let '(r, s3, v3) := receiveDataSubpackets (fun _ => None) s v in
      r = Ok tt /\ offset v3 = 5
      /\ written (sink v3) = [0x61; 0x62; 0x63; 0x64; 0x65]
      /\ w_out (tw s3) = ack3 ++ ack5).
Proof.
  intros peer wire s v ack3 ack5. split.
  - assert (Hr : recvSubpacket (Config.MaxBlockSize (cfg s) + 256) s
                 = (Ok ([0x61; 0x62; 0x63], ZCRCQ),
                    snd (recvSubpacket (Config.MaxBlockSize (cfg s) + 256) s)))
      by (vm_compute; reflexivity).
    pose proof (data_subpacket_dispatch specCRC_laws s _ v _ _ Hr eq_refl)
      as H.
    destruct (afterWrite _ v [0x61; 0x62; 0x63]) as [s2 v2] eqn:Ew.
    destruct H as (Hw & Ho & _ & _ & _ & Hout & _ & Hdec & _ & _ & HQ & _).
    eexists _, v2. split; [apply HQ; reflexivity|].
    split; [rewrite Ho; reflexivity|]. split; [rewrite Hw; reflexivity|].
    vm_compute in Ew. injection Ew as <- <-.
    split; [vm_compute; reflexivity|].
    vm_compute. eexists. reflexivity.
  - vm_compute. repeat split.
Defined.

(** ** Totality of the session-level reads *)

Section TameRules.
Context {St : Type} (rd : St -> transportReader).

Lemma tameM_ret {A} (a : A) : tameM rd (ret a).
Proof. intros s. cbn. apply Nat.le_refl. Qed.

Lemma tameM_fail {A} e : tameM rd (@fail St A e).
Proof. intros s. exact I. Qed.

Lemma tameM_get : tameM rd (@get St).
Proof. intros s. cbn. apply Nat.le_refl. Qed.

Lemma tameM_modify (f : St -> St) :
  (forall s, avail (rd (f s)) = avail (rd s)) -> tameM rd (modify f).
Proof. intros H s. cbn. rewrite H. apply Nat.le_refl. Qed.

Lemma tameM_bind {A B} (m : M St A) (k : A -> M St B) :
  tameM rd m -> (forall a, tameM rd (k a)) -> tameM rd (bind m k).
Proof.
  intros Hm Hk s. unfold bind. specialize (Hm s).
  destruct (m s) as [[a|e|] s']; [|exact I | exact Hm].
  specialize (Hk a s'). destruct (k a s') as [[b|e|] s'']; [|exact I | exact Hk].
  lia.
Qed.

Lemma tameM_wrapErr {A} msg (m : M St A) :
  tameM rd m -> tameM rd (wrapErr msg m).
Proof.
  intros Hm s. unfold wrapErr. specialize (Hm s).
  destruct (m s) as [[a|e|] s']; [exact Hm | exact I | exact Hm].
Qed.

Lemma tameM_timesM {A} n (m : M St A) :
  tameM rd m -> tameM rd (timesM n m).
Proof.
  intros Hm. induction n as [|n IH]; cbn [timesM].
  - apply tameM_ret.
  - apply tameM_bind; [exact Hm|]. intros a.
    apply tameM_bind; [exact IH|]. intros l. apply tameM_ret.
Qed.
End TameRules.

Ltac tame_step :=
  match goal with
  | |- tameM _ (bind _ _) => apply tameM_bind; [|intro]
  | |- tameM _ (ret _) => apply tameM_ret
  | |- tameM _ (fail _) => apply tameM_fail
  | |- tameM _ get => apply tameM_get
  | |- tameM _ (wrapErr _ _) => apply tameM_wrapErr
  | |- tameM _ (timesM _ _) => apply tameM_timesM
  | |- tameM _ (modify _) => apply tameM_modify; intro; reflexivity
  | |- tameM _ (if ?c then _ else _) => destruct c
  | |- tameM _ (match ?x with _ => _ end) => destruct x
  end.

Lemma readByte_tame : tameM id readByte.
Proof.
  intros tr. unfold id.
  destruct (readByte_inv tr) as (t & _ & [(E & _ & _) | (b & E & A)]);
    rewrite E; [exact I|]. rewrite A. simpl. lia.
Qed.

Lemma zdlRead_tame : tameM id zdlRead.
Proof.
  intros tr. unfold id. pose proof (zdlRead_inv tr) as H.
  unfold zdlRead_post in H.
  destruct (zdlRead tr) as [[[b fe]|e|] t]; [|exact I | exact H].
  destruct H as (_ & H & _). lia.
Qed.

Lemma scanForPad_tame : tameM id scanForPad.
Proof.
  intros tr. unfold id. pose proof (scanForPad_inv tr) as H.
  unfold scanForPad_post in H.
  destruct (scanForPad tr) as [[enc|e|] t]; [|exact I | exact H].
  destruct H as (_ & _ & _ & H). lia.
Qed.

Lemma readHex_tame : tameM id readHex.
Proof. unfold readHex. repeat first [exact readByte_tame | tame_step]. Qed.

Lemma onReader_tame {A} (m : RM A) : tameM id m -> tameM tr (onReader m).
Proof.
  intros Hm s. unfold onReader. specialize (Hm (tr s)). unfold id in Hm.
  destruct (m (tr s)) as [[a|e|] t']; exact Hm.
Qed.

Section TameSession.
Context {crc : CRC}.

Lemma zdlReadNoEnd_tame m1 m2 : tameM tr (zdlReadNoEnd m1 m2).
Proof.
  unfold zdlReadNoEnd.
  repeat first [apply onReader_tame; exact zdlRead_tame | tame_step].
Qed.

Lemma discardByte_tame :
  tameM tr (fun s => (Ok tt, snd (onReader readByte s))).
Proof.
  intros s0. unfold onReader.
  destruct (readByte_inv (tr s0)) as (t9 & _ & [(E & A & A') | (b' & E & A)]);
    rewrite E; cbn [snd tr setTr]; rewrite A; [rewrite A'|]; simpl; lia.
Qed.

Lemma recvHexHeader_tame : tameM tr recvHexHeader.
Proof.
  unfold recvHexHeader.
  repeat first [apply onReader_tame; exact readHex_tame
               | apply onReader_tame; exact readByte_tame
               | exact discardByte_tame
               | tame_step].
Qed.

Lemma recvBinHeader_tame m : tameM tr (recvBinHeader m).
Proof.
  unfold recvBinHeader. repeat first [apply zdlReadNoEnd_tame | tame_step].
Qed.

(** [recvHeader] always returns. *)
Lemma recvHeader_tame : tameM tr recvHeader.
Proof.
  unfold recvHeader.
  repeat first [apply onReader_tame; exact scanForPad_tame
               | exact recvHexHeader_tame | apply recvBinHeader_tame
               | tame_step].
Qed.

Lemma recvHeader_total s : fst (recvHeader s) <> Stuck.
Proof.
  pose proof (recvHeader_tame s) as H.
  destruct (recvHeader s) as [[h|e|] s']; [discriminate | discriminate |].
  destruct H.
Qed.

Lemma consumes_then {B} s s1 (k : M Session B) :
  (length (avail (tr s1)) < length (avail (tr s)))%nat ->
  tameM tr k -> consumes s (k s1).
Proof.
  intros L Hk. specialize (Hk s1). unfold consumes.
  destruct (k s1) as [[b|e|] s2]; [lia | exact I | exact Hk].
Qed.

Lemma recvSubpacketCRC16_loop_consumes fuel : forall acc maxLen s0 s,
  (length (avail (tr s)) < fuel)%nat ->
  (length (avail (tr s)) <= length (avail (tr s0)))%nat ->
  consumes s0 (recvSubpacketCRC16_loop fuel acc maxLen s)
  \/ (fuel = 0%nat).
Proof.
  induction fuel as [|fuel IH]; intros acc maxLen s0 s Hf Hs; [lia|]. left.
  cbn [recvSubpacketCRC16_loop]. unfold bind at 1. unfold wrapErr, onReader.
  pose proof (zdlRead_inv (tr s)) as Hz. unfold zdlRead_post in Hz.
  destruct (zdlRead (tr s)) as [[[b fe]|e|] t]; [|exact I | exact Hz].
  destruct Hz as (_ & L & _).
  destruct (negb (fe =? 0)).
  - apply consumes_then.
    + cbn [tr setTr]. lia.
    + repeat first [apply zdlReadNoEnd_tame | tame_step].
  - destruct (_ >=? _); [exact I|].
    destruct (IH (acc ++ [b]) maxLen s0 (setTr t s)) as [H | H];
      cbn [tr setTr]; try lia. exact H.
Qed.

Lemma recvSubpacketCRC32_loop_consumes fuel : forall acc maxLen s0 s,
  (length (avail (tr s)) < fuel)%nat ->
  (length (avail (tr s)) <= length (avail (tr s0)))%nat ->
  consumes s0 (recvSubpacketCRC32_loop fuel acc maxLen s)
  \/ (fuel = 0%nat).
Proof.
  induction fuel as [|fuel IH]; intros acc maxLen s0 s Hf Hs; [lia|]. left.
  cbn [recvSubpacketCRC32_loop]. unfold bind at 1. unfold wrapErr, onReader.
  pose proof (zdlRead_inv (tr s)) as Hz. unfold zdlRead_post in Hz.
  destruct (zdlRead (tr s)) as [[[b fe]|e|] t]; [|exact I | exact Hz].
  destruct Hz as (_ & L & _).
  destruct (negb (fe =? 0)).
  - apply consumes_then.
    + cbn [tr setTr]. lia.
    + repeat first [apply zdlReadNoEnd_tame | tame_step].
  - destruct (_ >=? _); [exact I|].
    destruct (IH (acc ++ [b]) maxLen s0 (setTr t s)) as [H | H];
      cbn [tr setTr]; try lia. exact H.
Qed.

(** [recvSubpacket] always returns, and returns a subpacket only after
    having consumed input. *)
Lemma recvSubpacket_consumes maxLen s : consumes s (recvSubpacket maxLen s).
Proof.
  unfold recvSubpacket, recvSubpacketCRC16, recvSubpacketCRC32.
  destruct (useCRC32 s).
  - destruct (recvSubpacketCRC32_loop_consumes
                (S (length (avail (tr s)))) [] maxLen s s) as [H | H];
      [lia | lia | exact H | discriminate H].
  - destruct (recvSubpacketCRC16_loop_consumes
                (S (length (avail (tr s)))) [] maxLen s s) as [H | H];
      [lia | lia | exact H | discriminate H].
Qed.

Lemma recvSubpacket_total maxLen s : fst (recvSubpacket maxLen s) <> Stuck.
Proof.
  pose proof (recvSubpacket_consumes maxLen s) as H. unfold consumes in H.
  destruct (recvSubpacket maxLen s) as [[x|e|] s'];
    [discriminate | discriminate | destruct H].
Qed.

Lemma tr_sendHexHeader hdr s : tr (sendHexHeader hdr s) = tr s.
Proof.
  unfold sendHexHeader. cbv zeta.
  set (payload := Type_ hdr :: dataBytes (Data hdr)).
  assert (H : forall bs s0,
             tr (fold_left (fun s b => onWriter (writeHex b) s) bs s0) = tr s0).
  { induction bs as [|b bs IH]; intros s0; [reflexivity|].
    cbn [fold_left]. rewrite IH. reflexivity. }
  destruct (negb (Type_ hdr =? ZACK) && negb (Type_ hdr =? ZFIN));
    cbn [onWriter setTw tr]; rewrite H; reflexivity.
Qed.

(** The data-subpacket loop always returns. *)
Lemma receiveDataSubpackets_loop_total fuel : forall ctx n s v,
  (length (avail (tr s)) < fuel)%nat ->
  fst (fst (receiveDataSubpackets_loop fuel ctx n s v)) <> Stuck.
Proof.
  induction fuel as [|fuel IH]; intros ctx n s v Hf; [lia|].
  cbn [receiveDataSubpackets_loop]. unfold receiveDataSubpackets_body.
  destruct (ctx n); [discriminate|].
  pose proof (recvSubpacket_consumes (Config.MaxBlockSize (cfg s) + 256) s)
    as Hc. unfold consumes in Hc.
  destruct (recvSubpacket _ s) as [[[data e]|err|] s1];
    [| discriminate | destruct Hc].
  assert (Hgo : forall s2 v2, tr s2 = tr s1 ->
            fst (fst (receiveDataSubpackets_loop fuel ctx (S n) s2 v2))
            <> Stuck).
  { intros s2 v2 E. apply IH. rewrite E. lia. }
  destruct (Z.of_nat (length data) >? 0).
  - unfold Write. destruct (broken (sink v)); [discriminate|].
    destruct (e =? ZCRCG); [apply Hgo; reflexivity|].
    destruct (e =? ZCRCQ);
      [apply Hgo; rewrite tr_sendHexHeader; reflexivity|].
    destruct (e =? ZCRCW); [discriminate|].
    destruct (e =? ZCRCE); [discriminate | apply Hgo; reflexivity].
  - destruct (e =? ZCRCG); [apply Hgo; reflexivity|].
    destruct (e =? ZCRCQ);
      [apply Hgo; rewrite tr_sendHexHeader; reflexivity|].
    destruct (e =? ZCRCW); [discriminate|].
    destruct (e =? ZCRCE); [discriminate | apply Hgo; reflexivity].
Qed.

Lemma receiveDataSubpackets_total ctx s v :
  fst (fst (receiveDataSubpackets ctx s v)) <> Stuck.
Proof. apply receiveDataSubpackets_loop_total. lia. Qed.

End TameSession.

(** * Further properties *)

(** ** Writer: what an escaped stream contains *)

Lemma byte_wire_ok mode b : is_byte b -> byte_wire_okb mode b = true.
Proof.
  intros Hb.
  assert (H : allBytes (byte_wire_okb mode) = true)
    by (destruct mode; vm_compute; reflexivity).
  exact (allBytes_spec _ H b Hb).
Qed.

Lemma writeEscapedByte_clean tw b :
  writer_wf tw -> is_byte b ->
  exists w, w_out (writeEscapedByte b tw) = w_out tw ++ w
            /\ forallb (wire_okb (escapeMode tw)) w = true
            /\ writer_wf (writeEscapedByte b tw)
            /\ escapeMode (writeEscapedByte b tw) = escapeMode tw.
Proof.
  intros Hwf Hb. pose proof (byte_wire_ok (escapeMode tw) b Hb) as H.
  unfold byte_wire_okb in H. cbv zeta in H. rewrite <- Hwf in H.
  unfold writeEscapedByte, escapeRequired. cbv zeta.
  destruct (tget (table tw) b =? escMust).
  - apply andb_true_iff in H. destruct H as [H1 H2].
    exists [ZDLE; Z.lxor b 0x40]. cbn [escapeByte w_out forallb escapeMode].
    rewrite H1, H2. repeat split. exact Hwf.
  - destruct (tget (table tw) b =? escIfAtCR).
    + apply andb_true_iff in H. destruct H as [H H3].
      apply andb_true_iff in H. destruct H as [H1 H2].
      destruct ((lastSent tw =? 0x40) || (lastSent tw =? 0xc0)).
      * exists [ZDLE; Z.lxor b 0x40].
        cbn [escapeByte w_out forallb escapeMode].
        rewrite H1, H2. repeat split. exact Hwf.
      * exists [b]. cbn [w_out forallb escapeMode]. rewrite H3.
        repeat split. exact Hwf.
    + exists [b]. cbn [w_out forallb escapeMode]. rewrite H.
      repeat split. exact Hwf.
Qed.

Lemma writeEscaped_clean data : forall tw,
  writer_wf tw -> Forall is_byte data ->
  exists w, w_out (writeEscaped data tw) = w_out tw ++ w
            /\ forallb (wire_okb (escapeMode tw)) w = true.
Proof.
  induction data as [|b data IH]; intros tw Hwf Hd.
  - exists []. cbn. rewrite app_nil_r. auto.
  - inversion Hd as [|? ? Hb Hd']; subst.
    destruct (writeEscapedByte_clean tw b Hwf Hb) as (w1 & E1 & C1 & Hwf1 & Ea).
    destruct (IH _ Hwf1 Hd') as (w2 & E2 & C2).
    exists (w1 ++ w2). split.
    + change (writeEscaped (b :: data) tw)
        with (writeEscaped data (writeEscapedByte b tw)).
      rewrite E2, E1, app_assoc. reflexivity.
    + rewrite forallb_app, C1. rewrite Ea in C2. rewrite C2. reflexivity.
Qed.

(** X1.  Whatever payload [writeEscaped] is given in Standard or All mode,
    no octet it hands to the transport is DLE, XON or XOFF (with or
    without the eighth bit) or 0x98; in All mode no octet is a control
    character at all, ZDLE itself and CR apart.  (Minimal mode escapes
    ZDLE only and makes no such promise.) *)
Theorem writeEscaped_wire_clean (tw : transportWriter) (data : list Z) :
  writer_wf tw -> Forall is_byte data ->
  forallb (wire_okb (escapeMode tw)) (emitted tw (writeEscaped data tw))
  = true.
Proof.
  intros Hwf Hd. destruct (writeEscaped_clean data tw Hwf Hd) as (w & E & C).
  rewrite (emitted_app _ _ _ E). exact C.
Qed.

Lemma writeEscaped_wire_clean_witness :
  let tw := newTransportWriter EscapeAll in
  let data := [0x11; 0x0d; 0x00; 0x7f; 0x18] in
  writer_wf tw /\ Forall is_byte data
  /\ forallb (wire_okb EscapeAll) (emitted tw (writeEscaped data tw)) = true.
Proof.
  intros tw data.
  assert (Hwf : writer_wf tw) by apply newTransportWriter_wf.
  assert (Hd : Forall is_byte data) by (subst data; all_bytes).
  split; [exact Hwf|]. split; [exact Hd|].
  exact (writeEscaped_wire_clean tw data Hwf Hd).
Defined.

Lemma last_nonempty (y : Z) (w : list Z) (d1 d2 : Z) :
  last (y :: w) d1 = last (y :: w) d2.
Proof.
  revert y. induction w as [|z w IH]; intros y; [reflexivity|].
  change (last (z :: w) d1 = last (z :: w) d2). apply IH.
Qed.

Lemma atCRb_app w1 : forall prev w2,
  atCRb prev (w1 ++ w2) = atCRb prev w1 || atCRb (last w1 prev) w2.
Proof.
  induction w1 as [|y w1 IH]; intros prev w2; [reflexivity|].
  cbn [app atCRb]. rewrite IH, orb_assoc.
  destruct w1 as [|z w1]; [reflexivity|].
  change (last (y :: z :: w1) prev) with (last (z :: w1) prev).
  rewrite (last_nonempty z w1 prev y). reflexivity.
Qed.

Lemma table_CR ea :
  tget (buildEscapeTable ea) 0x0d = escIfAtCR
  /\ tget (buildEscapeTable ea) 0x8d = escIfAtCR.
Proof. destruct ea; split; vm_compute; reflexivity. Qed.

(** The table of a writer that is not in Minimal mode. *)
Lemma table_CR_mode tw :
  writer_wf tw -> escapeMode tw <> EscapeMinimal ->
  tget (table tw) 0x0d = escIfAtCR /\ tget (table tw) 0x8d = escIfAtCR.
Proof.
  intros Hwf Hm. rewrite Hwf.
  destruct (escapeMode tw); [apply table_CR | apply table_CR | congruence].
Qed.

Lemma writeEscapedByte_atCR tw b :
  writer_wf tw -> escapeMode tw <> EscapeMinimal ->
  exists w, w_out (writeEscapedByte b tw) = w_out tw ++ w
            /\ atCRb (lastSent tw) w = false
            /\ lastSent (writeEscapedByte b tw) = last w (lastSent tw)
            /\ writer_wf (writeEscapedByte b tw)
            /\ escapeMode (writeEscapedByte b tw) = escapeMode tw.
Proof.
  intros Hwf Hm. destruct (table_CR_mode tw Hwf Hm) as [T1 T2].
  unfold writeEscapedByte.
  destruct (escapeRequired (table tw) b (lastSent tw)) eqn:Er.
  - exists [ZDLE; Z.lxor b 0x40].
    cbn [escapeByte w_out lastSent last atCRb].
    split; [reflexivity|].
    split; [|split; [reflexivity | split; [exact Hwf | reflexivity]]].
    change ((ZDLE =? 0x0d) || (ZDLE =? 0x8d)) with false.
    change ((ZDLE =? 0x40) || (ZDLE =? 0xc0)) with false.
    rewrite andb_false_r. reflexivity.
  - exists [b]. cbn [w_out lastSent last atCRb].
    split; [reflexivity|].
    split; [|split; [reflexivity | split; [exact Hwf | reflexivity]]].
    rewrite orb_false_r.
    destruct ((b =? 0x0d) || (b =? 0x8d)) eqn:Eb; [|apply andb_false_r].
    rewrite andb_true_r.
    unfold escapeRequired in Er. cbv zeta in Er.
    apply orb_true_iff in Eb.
    destruct Eb as [Eb | Eb]; apply Z.eqb_eq in Eb; subst b.
    + rewrite T1 in Er. exact Er.
    + rewrite T2 in Er. exact Er.
Qed.

Lemma writeEscaped_atCR data : forall tw,
  writer_wf tw -> escapeMode tw <> EscapeMinimal ->
  exists w, w_out (writeEscaped data tw) = w_out tw ++ w
            /\ atCRb (lastSent tw) w = false
            /\ lastSent (writeEscaped data tw) = last w (lastSent tw).
Proof.
  induction data as [|b data IH]; intros tw Hwf Hm.
  - exists []. cbn. rewrite app_nil_r. auto.
  - destruct (writeEscapedByte_atCR tw b Hwf Hm)
      as (w1 & E1 & C1 & L1 & Hwf1 & Em1).
    destruct (IH _ Hwf1) as (w2 & E2 & C2 & L2); [rewrite Em1; exact Hm|].
    change (writeEscaped (b :: data) tw)
      with (writeEscaped data (writeEscapedByte b tw)).
    exists (w1 ++ w2). split; [rewrite E2, E1, app_assoc; reflexivity|].
    split.
    + rewrite atCRb_app, C1, <- L1, C2. reflexivity.
    + rewrite L2, L1. clear. revert w1.
      induction w2 as [|y w2 IH] using rev_ind; intros w1;
        [rewrite app_nil_r; reflexivity|].
      rewrite app_assoc, !last_last. reflexivity.
Qed.

(** X2.  Telenet protection: in what [writeEscaped] emits in Standard or
    All mode, and across the boundary with the octet sent just before it,
    a CR (0x0d or 0x8d) never follows an at sign (0x40 or 0xc0), whatever
    the payload. *)
Theorem writeEscaped_no_at_CR (tw : transportWriter) (data : list Z) :
  writer_wf tw -> escapeMode tw <> EscapeMinimal ->
  atCRb (lastSent tw) (emitted tw (writeEscaped data tw)) = false.
Proof.
  intros Hwf Hm.
  destruct (writeEscaped_atCR data tw Hwf Hm) as (w & E & C & _).
  rewrite (emitted_app _ _ _ E). exact C.
Qed.

Lemma writeEscaped_no_at_CR_witness :
  let tw := writeByte 0x40 (newTransportWriter EscapeStandard) in
  let data := [0x0d; 0x00; 0x40; 0x0d; 0xc0; 0x8d] in
  writer_wf tw /\ escapeMode tw <> EscapeMinimal
  /\ emitted tw (writeEscaped data tw)
     = [ZDLE; 0x4d; 0x00; 0x40; ZDLE; 0x4d; 0xc0; ZDLE; 0xcd]
  /\ atCRb 0x40 (emitted tw (writeEscaped data tw)) = false.
Proof.
  intros tw data.
  assert (Hwf : writer_wf tw) by reflexivity.
  assert (Hm : escapeMode tw <> EscapeMinimal) by discriminate.
  split; [exact Hwf|]. split; [exact Hm|].
  split; [vm_compute; reflexivity|].
  exact (writeEscaped_no_at_CR tw data Hwf Hm).
Defined.

Lemma escapeRequired_escapes ea b l :
  escapeRequired (buildEscapeTable ea) b l
  = escapes ea b ((l =? 0x40) || (l =? 0xc0)).
Proof.
  unfold escapeRequired, escapes. cbv zeta.
  destruct (tget (buildEscapeTable ea) b =? escMust); [reflexivity|].
  destruct (tget (buildEscapeTable ea) b =? escIfAtCR); reflexivity.
Qed.

(** X3.  The two escape tables, octet by octet: whatever standard mode
    escapes, escape-all mode escapes too; escape-all mode escapes every
    control character (bits 5 and 6 clear) other than CR, which stays
    escaped only after an at sign; DEL and 0xff are never escaped. *)
Theorem escape_modes_compared (b l : Z) :
  is_byte b ->
  (escapeRequired (buildEscapeTable false) b l = true ->
   escapeRequired (buildEscapeTable true) b l = true)
  /\ (controlb b = true -> b <> 0x0d -> b <> 0x8d ->
      escapeRequired (buildEscapeTable true) b l = true)
  /\ (b = 0x0d \/ b = 0x8d ->
      forall ea, escapeRequired (buildEscapeTable ea) b l
                 = ((l =? 0x40) || (l =? 0xc0)))
  /\ (b = 0x7f \/ b = 0xff ->
      forall ea, escapeRequired (buildEscapeTable ea) b l = false).
Proof.
  intros Hb. rewrite !escapeRequired_escapes.
  set (c := (l =? 0x40) || (l =? 0xc0)).
  assert (H : allBytes (fun b =>
                (implb (escapes false b c) (escapes true b c))
                && implb (controlb b && negb (b =? 0x0d) && negb (b =? 0x8d))
                         (escapes true b c)) = true)
    by (destruct c; vm_compute; reflexivity).
  pose proof (allBytes_spec _ H b Hb) as Hc. cbv beta in Hc.
  apply andb_true_iff in Hc. destruct Hc as [H1 H2].
  split; [|split; [|split]].
  - intros E. rewrite E in H1. exact H1.
  - intros Ec N1 N2. rewrite Ec in H2.
    apply Z.eqb_neq in N1, N2. rewrite N1, N2 in H2. exact H2.
  - intros [-> | ->] ea; rewrite escapeRequired_escapes; fold c;
      destruct ea, c; vm_compute; reflexivity.
  - intros [-> | ->] ea; rewrite escapeRequired_escapes; fold c;
      destruct ea, c; vm_compute; reflexivity.
Qed.

Lemma escape_modes_compared_witness :
  is_byte 0x01
  /\ escapeRequired (buildEscapeTable true) 0x01 0x40 = true
  /\ escapeRequired (buildEscapeTable false) 0x7f 0x40 = false.
Proof.
  assert (H1 : is_byte 0x01) by (unfold is_byte; lia).
  assert (H7 : is_byte 0x7f) by (unfold is_byte; lia).
  split; [exact H1|]. split.
  - destruct (escape_modes_compared 0x01 0x40 H1) as (_ & H & _).
    apply H; [reflexivity | discriminate | discriminate].
  - destruct (escape_modes_compared 0x7f 0x40 H7) as (_ & _ & _ & H).
    apply H. left. reflexivity.
Defined.

(** ** Hex headers on the wire, hex digits on receipt *)

Lemma hexOf_digits b :
  is_byte b -> Forall (fun d => In d hexDigits) (hexOf b).
Proof.
  intros Hb. unfold is_byte in Hb. unfold hexOf.
  assert (H1 : 0 <= Z.shiftr b 4 < 16).
  { rewrite Z.shiftr_div_pow2 by lia. change (2 ^ 4) with 16.
    split; [apply Z.div_pos; lia | apply Z.div_lt_upper_bound; lia]. }
  assert (H2 : 0 <= Z.land b 0x0f < 16)
    by (apply (land_below 4); lia).
  repeat apply Forall_cons; try apply Forall_nil.
  - apply nth_In. change (length hexDigits) with 16%nat.
    generalize dependent (Z.shiftr b 4). intros. lia.
  - apply nth_In. change (length hexDigits) with 16%nat.
    generalize dependent (Z.land b 15). intros. lia.
Qed.

Lemma hexWire_digits bs :
  Forall is_byte bs ->
  length (hexWire bs) = (2 * length bs)%nat
  /\ Forall (fun d => In d hexDigits) (hexWire bs).
Proof.
  induction 1 as [|b bs Hb _ [IH1 IH2]]; [split; [reflexivity | constructor]|].
  unfold hexWire in *. cbn [flat_map]. split.
  - rewrite length_app, IH1. cbn [hexOf length]. lia.
  - apply Forall_app. split; [apply hexOf_digits; exact Hb | exact IH2].
Qed.

Section HexFormat.
Context {crc : CRC}.

(** X4.  A hex header on the wire is ZPAD ZPAD ZDLE 'B', fourteen
    lower-case hex digits, CR, LF, and an XON unless the frame is a ZACK
    or a ZFIN: 20 or 21 octets, whatever the CRC functions compute. *)
Theorem sendHexHeader_format (hdr : Header) (s : Session) :
  is_byte (Type_ hdr) -> header_bytes hdr ->
  exists digits,
    emitted (tw s) (tw (sendHexHeader hdr s))
    = [ZPAD; ZPAD; ZDLE; ZHEX] ++ digits ++ [0x0d; 0x0a]
      ++ (if (Type_ hdr =? ZACK) || (Type_ hdr =? ZFIN) then [] else [XON])
    /\ length digits = 14%nat
    /\ Forall (fun d => In d hexDigits) digits.
Proof.
  intros HT HD. exists (hexWire (hexBody (Type_ hdr) (Data hdr))).
  assert (Hb : Forall is_byte (hexBody (Type_ hdr) (Data hdr))).
  { unfold hexBody. cbv zeta. apply Forall_app. split.
    - apply Forall_cons; [exact HT | exact HD].
    - repeat apply Forall_cons; try apply Forall_nil; apply u8_byte. }
  destruct (hexWire_digits _ Hb) as [L F].
  split; [|split; [exact L | exact F]].
  rewrite sendHexHeader_wire.
  destruct (Type_ hdr =? ZACK), (Type_ hdr =? ZFIN); reflexivity.
Qed.

End HexFormat.

Lemma sendHexHeader_format_witness :
  let hdr := makePosHeader ZRPOS 0x12345678 in
  let s := NewSession [] false (mkHandler [] []) None in
  is_byte (Type_ hdr) /\ header_bytes hdr
  /\ length (emitted (tw s) (tw (sendHexHeader (crc := specCRC) hdr s)))
     = 21%nat.
Proof.
  intros hdr s.
  assert (HT : is_byte (Type_ hdr))
    by (vm_compute; split; [discriminate | reflexivity]).
  assert (HD : header_bytes hdr)
    by (unfold header_bytes; subst hdr; vm_compute;
        repeat (apply Forall_cons; [split; [discriminate | reflexivity]|]);
        apply Forall_nil).
  split; [exact HT|]. split; [exact HD|].
  destruct (sendHexHeader_format (crc := specCRC) hdr s HT HD)
    as (digits & E & L & _).
  rewrite E. rewrite !length_app, L. reflexivity.
Defined.

Lemma digitForms_hexVal h f :
  0 <= h < 16 -> In f (digitForms h) -> hexVal (Z.land f 0x7f) = Some h.
Proof.
  intros Hh Hf.
  assert (C : forallb (fun h =>
                forallb (fun f => match hexVal (Z.land f 0x7f) with
                                  | Some v => v =? h
                                  | None => false
                                  end) (digitForms h))
                (map Z.of_nat (seq 0 16)) = true)
    by (vm_compute; reflexivity).
  rewrite forallb_forall in C.
  assert (Hin : In h (map Z.of_nat (seq 0 16))).
  { rewrite in_map_iff. exists (Z.to_nat h).
    split; [apply Z2Nat.id; lia | apply in_seq; lia]. }
  specialize (C h Hin). rewrite forallb_forall in C. specialize (C f Hf).
  destruct (hexVal (Z.land f 0x7f)) as [v|]; [|discriminate].
  apply Z.eqb_eq in C. congruence.
Qed.

(** X5.  [readHex] is lenient: each of the two digits may be in lower or
    upper case and may carry the eighth bit; the value is the same.  An
    octet that is no hex digit once the eighth bit is stripped makes it
    fail after both octets have been consumed. *)
Theorem readHex_lenient (tr : transportReader) (h l hi lo : Z)
        (rest : list Z) :
  avail tr = hi :: lo :: rest ->
  (0 <= h < 16 -> 0 <= l < 16 ->
   In hi (digitForms h) -> In lo (digitForms l) ->
   exists tr', readHex tr = (Ok (16 * h + l), tr') /\ avail tr' = rest)
  /\ (hexVal (Z.land hi 0x7f) = None \/ hexVal (Z.land lo 0x7f) = None ->
      exists tr', readHex tr = (Err (ErrMsg "zmodem: invalid hex digits"), tr')
                  /\ avail tr' = rest).
Proof.
  intros Ha. destruct (readHex_pair tr hi lo rest Ha) as (tr' & A & _ & E).
  split.
  - intros Hh Hl Fh Fl. exists tr'. split; [|exact A]. rewrite E.
    unfold unhex. rewrite (digitForms_hexVal h hi Hh Fh).
    rewrite (digitForms_hexVal l lo Hl Fl).
    assert (S4 : Z.shiftl h 4 = h * 16)
      by (rewrite Z.shiftl_mul_pow2 by lia; reflexivity).
    unfold u8. rewrite S4, Z.mod_small by lia.
    rewrite Z.lor_comm, <- S4.
    rewrite (lor_shiftl_add 4 l h) by (change (2 ^ 4) with 16; lia).
    change (2 ^ 4) with 16. f_equal. f_equal. lia.
  - intros Hn. exists tr'. split; [|exact A]. rewrite E. unfold unhex.
    destruct Hn as [Hn | Hn]; rewrite Hn; [reflexivity|].
    destruct (hexVal (Z.land hi 0x7f)); reflexivity.
Qed.

Lemma readHex_lenient_witness :
  let tr := newTransportReader [0xc1; 0x66; 0x0d] false 1200 0 true in
  avail tr = [0xc1; 0x66; 0x0d]
  /\ fst (readHex tr) = Ok 0xaf
  /\ avail (snd (readHex tr)) = [0x0d].
Proof.
  intros tr.
  assert (Ha : avail tr = [0xc1; 0x66; 0x0d]) by reflexivity.
  split; [exact Ha|].
  destruct (readHex_lenient tr 10 15 0xc1 0x66 [0x0d] Ha) as [H _].
  destruct H as (tr' & E & A);
    [lia | lia | right; right; right; left; reflexivity
     | left; reflexivity |].
  rewrite E. split; [reflexivity | exact A].
Defined.

(** ** Flow control on receipt *)

Lemma strippedb_ZDLE : strippedb ZDLE = false.
Proof. reflexivity. Qed.

Lemma zdlRead_skip_ZDLE tr pre mid c rest :
  stripXonXoff tr = true ->
  forallb strippedb pre = true -> forallb strippedb mid = true ->
  strippedb c = false -> canCount tr < 4 ->
  avail tr = pre ++ ZDLE :: mid ++ c :: rest ->
  exists tr1,
    zdlRead tr = afterZDLE (zdlRead_loop (length (avail tr))) c tr1 /\
    avail tr1 = rest /\ canCount tr1 = canCount tr + 1.
Proof.
  intros Hst Hp Hm Hs Hk Ha.
  destruct (readByteStrip_skip tr pre ZDLE _ Ha Hst Hp strippedb_ZDLE)
    as (tr1 & E & Ha1 & (C1 & _)).
  assert (Hst1 : stripXonXoff tr1 = true).
  { pose proof (readByteStrip_steady tr) as F. rewrite E in F.
    cbn [snd] in F. congruence. }
  unfold zdlRead. cbn [zdlRead_loop].
  rewrite (bind_Ok _ _ _ _ _ E). rewrite Z.eqb_refl.
  cbv [bind modify get]. cbn [canCount setCanCount].
  assert (G : (canCount tr1 + 1 >=? 5) = false)
    by (rewrite Z.geb_leb; apply Z.leb_gt; lia).
  rewrite G.
  set (tr2 := setCanCount (canCount tr1 + 1) tr1).
  assert (Ha2 : avail tr2 = mid ++ c :: rest) by exact Ha1.
  destruct (readByteStrip_skip tr2 mid c rest Ha2 Hst1 Hm Hs)
    as (tr3 & E3 & Ha3 & (D1 & _)).
  exists tr3. split; [|split; [exact Ha3|]].
  - rewrite zdlEscape_body_eq. rewrite (bind_Ok _ _ _ _ _ E3). reflexivity.
  - rewrite D1. subst tr2. cbn [canCount setCanCount]. lia.
Qed.

(** X6.  XON and XOFF octets (with or without the eighth bit) that the
    link inserts are invisible to the [zdlRead] of a reader that strips
    them: before an octet, and between a ZDLE and the octet it escapes or
    the end marker it announces, any run of them is skipped and the
    decoded result is the same. *)
Theorem zdlRead_ignores_flow_control (tr : transportReader)
        (pre mid rest : list Z) (b : Z) :
  stripXonXoff tr = true ->
  forallb strippedb pre = true -> forallb strippedb mid = true ->
  canCount tr < 4 ->
  (raw_okb true b = true -> avail tr = pre ++ b :: rest ->
   exists tr', zdlRead tr = (Ok (b, 0), tr') /\ avail tr' = rest
               /\ canCount tr' = 0)
  /\ (esc_okb b = true ->
      avail tr = pre ++ ZDLE :: mid ++ Z.lxor b 0x40 :: rest ->
      exists tr', zdlRead tr = (Ok (b, 0), tr') /\ avail tr' = rest
                  /\ canCount tr' = 0)
  /\ (is_endType b -> avail tr = pre ++ ZDLE :: mid ++ b :: rest ->
      exists tr', zdlRead tr = (Ok (0, b), tr') /\ avail tr' = rest
                  /\ canCount tr' = 0).
Proof.
  intros Hst Hp Hm Hk. split; [|split].
  - intros Hb Ha. unfold raw_okb in Hb.
    apply andb_true_iff in Hb. destruct Hb as [Hz Hs].
    apply negb_true_iff in Hz, Hs. cbn [andb] in Hs.
    destruct (readByteStrip_skip tr pre b rest Ha Hst Hp Hs)
      as (tr1 & E & Ha1 & _).
    unfold zdlRead. cbn [zdlRead_loop].
    rewrite (bind_Ok _ _ _ _ _ E). rewrite Hz.
    eexists. split; [reflexivity|]. split; [exact Ha1 | reflexivity].
  - intros Hb Ha. unfold esc_okb in Hb. cbv zeta in Hb.
    repeat (apply andb_true_iff in Hb; destruct Hb as [Hb ?]).
    repeat match goal with H : negb _ = true |- _ =>
                           apply negb_true_iff in H end.
    destruct (zdlRead_skip_ZDLE tr pre mid _ rest Hst Hp Hm Hb Hk Ha)
      as (tr1 & E & Ha1 & _).
    rewrite E. unfold afterZDLE.
    match goal with H : endTypeb _ = false |- _ =>
                    unfold endTypeb in H; rewrite H end.
    repeat match goal with H : _ = _ |- _ => rewrite H end.
    match goal with H : (_ =? b) = true |- _ =>
                    apply Z.eqb_eq in H; rewrite H end.
    eexists. split; [reflexivity|]. split; [exact Ha1 | reflexivity].
  - intros He Ha.
    assert (Hs : strippedb b = false /\ endTypeb b = true)
      by (destruct He as [-> | [-> | [-> | ->]]]; split; reflexivity).
    destruct Hs as [Hs Hend].
    destruct (zdlRead_skip_ZDLE tr pre mid _ rest Hst Hp Hm Hs Hk Ha)
      as (tr1 & E & Ha1 & _).
    rewrite E. unfold afterZDLE. unfold endTypeb in Hend. rewrite Hend.
    eexists. split; [reflexivity|]. split; [exact Ha1 | reflexivity].
Qed.

Lemma zdlRead_ignores_flow_control_witness :
  let tr := newTransportReader [XON; 0x93; ZDLE; XOFF; 0x51; 0x41]
                               false 1200 0 true in
  canCount tr < 4
  /\ fst (zdlRead tr) = Ok (0x11, 0)
  /\ avail (snd (zdlRead tr)) = [0x41].
Proof.
  intros tr.
  assert (Hk : canCount tr < 4) by (cbn; lia).
  split; [exact Hk|].
  destruct (zdlRead_ignores_flow_control tr [XON; 0x93] [XOFF] [0x41] 0x11
              eq_refl eq_refl eq_refl Hk) as (_ & H & _).
  destruct (H eq_refl eq_refl) as (tr' & E & A & _).
  rewrite E. split; [reflexivity | exact A].
Defined.

(** ** Frame discovery: garbage, thresholds, refusals *)

(** One pass of the scanning loop over ZPAD [ZPAD] ZDLE enc. *)
Lemma scanForPad_loop_frame fuel tr pads enc rest :
  pads = [] \/ pads = [ZPAD] ->
  avail tr = ZPAD :: pads ++ ZDLE :: enc :: rest ->
  exists t4,
    avail t4 = rest /\ canCount t4 = 0
    /\ garbageCount t4 = garbageCount tr /\ garbageMax t4 = garbageMax tr
    /\ scanForPad_loop (S fuel) tr
       = if supportedEncb enc then (Ok enc, setGarbageCount 0 t4)
         else if unsupportedEncb enc
              then (Err (ErrWrap "%w: 0x%02x" errUnsupportedEnc), t4)
              else (countGarbage ;;; scanForPad_loop fuel) t4.
Proof.
  intros Hp Ha. cbn [scanForPad_loop].
  read_byte Ha as t1 E1 A1 C1.
  change (ZPAD =? CAN) with false. cbv iota.
  unfold bind at 1. unfold modify at 1.
  change (negb (ZPAD =? ZPAD)) with false. cbv iota.
  assert (A1' : avail (setCanCount 0 t1) = pads ++ ZDLE :: enc :: rest)
    by exact A1.
  assert (Hd : exists t3, avail t3 = enc :: rest /\ canCount t3 = 0 /\
     garbageCount t3 = garbageCount tr /\ garbageMax t3 = garbageMax tr /\
     forall k : Z -> RM Z,
     (b <- readByte ;;
      b0 <- (if b =? ZPAD then readByte else ret b) ;; k b0)
       (setCanCount 0 t1) = k ZDLE t3).
  { destruct C1 as (_ & G1 & M1).
    destruct Hp as [-> | ->]; cbn [app] in A1'.
    - destruct (readByte_cons _ _ _ A1') as (t2 & E2 & A2 & (C2 & G2 & M2)).
      exists t2. split; [exact A2|]. split; [rewrite C2; reflexivity|].
      split; [rewrite G2; exact G1|]. split; [rewrite M2; exact M1|].
      intros k. rewrite (bind_Ok _ _ _ _ _ E2).
      change (ZDLE =? ZPAD) with false. cbv iota. reflexivity.
    - destruct (readByte_cons _ _ _ A1') as (t2 & E2 & A2 & (C2 & G2 & M2)).
      destruct (readByte_cons _ _ _ A2) as (t3 & E3 & A3 & (C3 & G3 & M3)).
      exists t3. split; [exact A3|].
      split; [rewrite C3, C2; reflexivity|].
      split; [rewrite G3, G2; exact G1|].
      split; [rewrite M3, M2; exact M1|].
      intros k. rewrite (bind_Ok _ _ _ _ _ E2).
      change (ZPAD =? ZPAD) with true. cbv iota.
      rewrite (bind_Ok _ _ _ _ _ E3). reflexivity. }
  destruct Hd as (t3 & A3 & C3 & G3 & M3 & Hk). rewrite Hk.
  change (negb (ZDLE =? ZDLE)) with false. cbv iota.
  read_byte A3 as t4 E4 A4 C4.
  destruct C4 as (C4 & G4 & M4).
  exists t4. split; [exact A4|]. split; [rewrite C4; exact C3|].
  split; [rewrite G4; exact G3|]. split; [rewrite M4; exact M3|].
  unfold supportedEncb, unsupportedEncb.
  destruct ((enc =? ZBIN) || (enc =? ZHEX) || (enc =? ZBIN32)); [reflexivity|].
  destruct ((enc =? ZBINR32) || (enc =? ZVBIN) || (enc =? ZVHEX)
            || (enc =? ZVBIN32) || (enc =? ZVBINR32)); reflexivity.
Qed.

(** Garbage within the budget, then a frame start. *)
Lemma scanForPad_after_garbage tr g pads enc rest :
  Forall (fun b => b <> CAN /\ b <> ZPAD) g ->
  garbageCount tr + Z.of_nat (length g) <= garbageMax tr ->
  pads = [] \/ pads = [ZPAD] ->
  avail tr = g ++ ZPAD :: pads ++ ZDLE :: enc :: rest ->
  exists t4,
    avail t4 = rest /\ canCount t4 = 0
    /\ garbageMax t4 = garbageMax tr
    /\ garbageCount t4 = garbageCount tr + Z.of_nat (length g)
    /\ scanForPad tr
       = if supportedEncb enc then (Ok enc, setGarbageCount 0 t4)
         else if unsupportedEncb enc
              then (Err (ErrWrap "%w: 0x%02x" errUnsupportedEnc), t4)
              else (countGarbage ;;;
                    scanForPad_loop
                      (S (length (pads ++ ZDLE :: enc :: rest)))) t4.
Proof.
  intros Hg Hb Hp Ha. unfold scanForPad.
  set (fl := length (pads ++ ZDLE :: enc :: rest)).
  assert (Hf : S (length (avail tr)) = (length g + S (S fl))%nat).
  { rewrite Ha, length_app. cbn [length]. subst fl. lia. }
  rewrite Hf.
  destruct (scanForPad_loop_skip g (S (S fl)) (setCanCount 0 tr)
              (ZPAD :: pads ++ ZDLE :: enc :: rest) Hg Hb Ha)
    as (t1 & E1 & A1 & _ & G1 & M1).
  rewrite E1.
  destruct (scanForPad_loop_frame (S fl) t1 pads enc rest Hp A1)
    as (t4 & A4 & C4 & G4 & M4 & E4).
  exists t4. split; [exact A4|]. split; [exact C4|].
  split; [rewrite M4; exact M1|]. split; [rewrite G4; exact G1|].
  rewrite E4.
  reflexivity.
Qed.

Lemma scanForPad_outcome_loop fuel : forall tr n,
  (length (avail tr) < fuel)%nat -> (length (avail tr) <= n)%nat ->
  scanForPad_outcome n (scanForPad_loop fuel tr).
Proof.
  induction fuel as [|fuel IH]; intros tr n Hf Hn; [lia|].
  cbn [scanForPad_loop].
  destruct (readByte_inv tr) as (t1 & C1 & [(E & A & A') | (b & E & A)]).
  { rewrite (bind_Err _ _ _ _ _ E). left. auto. }
  rewrite (bind_Ok _ _ _ _ _ E).
  assert (L1 : (length (avail t1) < fuel)%nat)
    by (rewrite A in Hf; simpl in Hf; lia).
  assert (N1 : (length (avail t1) < n)%nat)
    by (rewrite A in Hn; simpl in Hn; lia).
  assert (Hrec : forall t, (length (avail t) <= length (avail t1))%nat ->
                           scanForPad_outcome n
                             ((countGarbage ;;; scanForPad_loop fuel) t)).
  { intros t Ht. cbv [bind countGarbage modify get fail ret].
    cbn [garbageCount garbageMax setGarbageCount].
    destruct (garbageCount t + 1 >? garbageMax t) eqn:G.
    - right. right. left. split; [reflexivity|].
      cbn [garbageCount garbageMax setGarbageCount].
      apply Z.gtb_lt in G. lia.
    - apply IH; change (avail (setGarbageCount (garbageCount t + 1) t))
                  with (avail t); lia. }
  destruct (b =? CAN).
  { unfold bind at 1. unfold modify at 1. unfold bind at 1. unfold get at 1.
    cbn [canCount setCanCount].
    destruct (canCount t1 + 1 >=? 5) eqn:G.
    - right. left. split; [reflexivity|]. cbn [canCount setCanCount].
      rewrite Z.geb_leb in G. apply Z.leb_le in G. lia.
    - apply Hrec. apply Nat.le_refl. }
  unfold bind at 1. unfold modify at 1.
  destruct (b =? ZPAD); cbn [negb]; [|apply Hrec; apply Nat.le_refl].
  set (t2 := setCanCount 0 t1).
  destruct (readByte_inv t2) as (t3 & C3 & [(E3 & A3 & A3') | (b3 & E3 & A3)]).
  { rewrite (bind_Err _ _ _ _ _ E3). left. auto. }
  rewrite (bind_Ok _ _ _ _ _ E3).
  assert (L3 : (length (avail t3) < length (avail t1))%nat).
  { change (avail t2) with (avail t1) in A3. rewrite A3. simpl. lia. }
  assert (K3 : canCount t3 = 0) by (destruct C3 as (-> & _); reflexivity).
  assert (Htail : forall b0 t,
             (length (avail t) < length (avail t1))%nat -> canCount t = 0 ->
             scanForPad_outcome n
               ((if negb (b0 =? ZDLE)
                 then countGarbage ;;; scanForPad_loop fuel
                 else
                   enc <- readByte ;;
                   (if (enc =? ZBIN) || (enc =? ZHEX) || (enc =? ZBIN32)
                    then modify (setGarbageCount 0) ;;; ret enc
                    else
                      if (enc =? ZBINR32) || (enc =? ZVBIN) || (enc =? ZVHEX)
                         || (enc =? ZVBIN32) || (enc =? ZVBINR32)
                      then fail (ErrWrap "%w: 0x%02x" errUnsupportedEnc)
                      else countGarbage ;;; scanForPad_loop fuel)) t)).
  { intros b0 t Lt Kt.
    destruct (negb (b0 =? ZDLE)); [apply Hrec; lia|].
    destruct (readByte_inv t) as (t5 & C5 & [(E5 & A5 & A5') | (enc & E5 & A5)]).
    { rewrite (bind_Err _ _ _ _ _ E5). left. auto. }
    rewrite (bind_Ok _ _ _ _ _ E5).
    assert (L5 : (length (avail t5) + 1 < length (avail t1))%nat)
      by (rewrite A5 in Lt; simpl in Lt; lia).
    destruct ((enc =? ZBIN) || (enc =? ZHEX) || (enc =? ZBIN32)) eqn:Henc.
    { cbv [bind modify ret scanForPad_outcome].
      cbn [canCount garbageCount setGarbageCount].
      change (avail (setGarbageCount 0 t5)) with (avail t5).
      destruct C5 as (-> & _). repeat split; auto. lia. }
    destruct ((enc =? ZBINR32) || (enc =? ZVBIN) || (enc =? ZVHEX)
              || (enc =? ZVBIN32) || (enc =? ZVBINR32)).
    { right. right. right. reflexivity. }
    apply Hrec. lia. }
  destruct (b3 =? ZPAD).
  - destruct (readByte_inv t3) as (t4 & C4 & [(E4 & A4 & A4') | (b4 & E4 & A4)]).
    { rewrite (bind_Err _ _ _ _ _ E4). left. auto. }
    rewrite (bind_Ok _ _ _ _ _ E4). apply Htail.
    + rewrite A4 in L3. simpl in L3. lia.
    + destruct C4 as (-> & _). exact K3.
  - unfold bind at 1. unfold ret at 1. apply Htail; [lia | exact K3].
Qed.

(** X7.  [scanForPad] returns on every finite input.  It returns only
    ZBIN, ZHEX or ZBIN32, then with both counters at 0 and at least three
    octets consumed; it fails only with the read error at the end of the
    input, the abort error with the CAN counter at five or more, the
    garbage error with the garbage counter above the threshold, or the
    unsupported-encoding error. *)
Theorem scanForPad_outcomes (tr : transportReader) :
  scanForPad_outcome (length (avail tr)) (scanForPad tr).
Proof.
  unfold scanForPad.
  apply scanForPad_outcome_loop;
    change (avail (setCanCount 0 tr)) with (avail tr); lia.
Qed.

Lemma scanForPad_overflow tr g x rest :
  Forall (fun b => b <> CAN /\ b <> ZPAD) g -> x <> CAN -> x <> ZPAD ->
  garbageCount tr + Z.of_nat (length g) = garbageMax tr ->
  avail tr = g ++ x :: rest ->
  exists tr', scanForPad tr = (Err errGarbageOverflow, tr')
              /\ avail tr' = rest
              /\ garbageCount tr' = garbageMax tr + 1.
Proof.
  intros Hg Hx1 Hx2 Hb Ha. unfold scanForPad.
  assert (Hf : S (length (avail tr))
               = (length g + S (S (length rest)))%nat).
  { rewrite Ha, length_app. cbn [length]. lia. }
  rewrite Hf.
  destruct (scanForPad_loop_skip g (S (S (length rest))) (setCanCount 0 tr)
              (x :: rest) Hg) as (t1 & E1 & A1 & _ & G1 & M1);
    [cbn [garbageCount garbageMax setCanCount]; lia | exact Ha |].
  rewrite E1.
  destruct (scanForPad_loop_garbage (S (length rest)) t1 x rest A1 Hx1 Hx2)
    as (t2 & A2 & _ & G2 & M2 & E2).
  rewrite E2.
  cbn [garbageCount garbageMax setCanCount] in G1, M1.
  assert (G : (garbageCount t2 >? garbageMax t2) = true)
    by (apply Z.gtb_lt; lia).
  rewrite G. exists t2. split; [reflexivity|]. split; [exact A2 | lia].
Qed.

Lemma repeat_zero_garbage n :
  Forall (fun b => b <> CAN /\ b <> ZPAD) (repeat 0 n).
Proof.
  induction n as [|n IH]; [constructor|].
  cbn [repeat]. constructor; [split; discriminate | exact IH].
Qed.

(** X8.  The garbage threshold is exact.  With [garbageMax - garbageCount]
    octets of line noise (no CAN, no ZPAD) before it, a frame start is
    still found, and the garbage counter is reset; one octet more and
    [scanForPad] fails with [errGarbageOverflow] on that octet, leaving
    what follows unread. *)
Theorem scanForPad_threshold (tr : transportReader) (g rest : list Z)
        (x enc : Z) :
  Forall (fun b => b <> CAN /\ b <> ZPAD) g -> x <> CAN -> x <> ZPAD ->
  garbageCount tr + Z.of_nat (length g) = garbageMax tr ->
  supportedEncb enc = true ->
  (avail tr = g ++ ZPAD :: ZDLE :: enc :: rest ->
   exists tr', scanForPad tr = (Ok enc, tr') /\ avail tr' = rest
               /\ garbageCount tr' = 0)
  /\ (avail tr = g ++ x :: rest ->
      exists tr', scanForPad tr = (Err errGarbageOverflow, tr')
                  /\ avail tr' = rest
                  /\ garbageCount tr' = garbageMax tr + 1).
Proof.
  intros Hg Hx1 Hx2 Hb Henc. split; intros Ha.
  - destruct (scanForPad_after_garbage tr g [] enc rest Hg) as
        (t4 & A4 & _ & _ & _ & E); [lia | left; reflexivity | exact Ha |].
    rewrite E, Henc. eexists. split; [reflexivity|].
    split; [exact A4 | reflexivity].
  - exact (scanForPad_overflow tr g x rest Hg Hx1 Hx2 Hb Ha).
Qed.

Lemma scanForPad_threshold_witness :
  let tr := newTransportReader [0x41; 0x42; 0x43; 0x44] false 2 0 true in
  garbageCount tr + Z.of_nat (length [0x41; 0x42]) = garbageMax tr
  /\ fst (scanForPad tr) = Err errGarbageOverflow
  /\ avail (snd (scanForPad tr)) = [0x44].
Proof.
  intros tr.
  assert (Hb : garbageCount tr + Z.of_nat (length [0x41; 0x42])
               = garbageMax tr) by reflexivity.
  split; [exact Hb|].
  assert (Hg : Forall (fun b => b <> CAN /\ b <> ZPAD) [0x41; 0x42])
    by (repeat (apply Forall_cons; [split; discriminate|]); apply Forall_nil).
  destruct (scanForPad_threshold tr [0x41; 0x42] [0x44] 0x43 ZHEX Hg)
    as [_ H]; [discriminate | discriminate | exact Hb | reflexivity |].
  destruct (H eq_refl) as (tr' & E & A & _).
  rewrite E. split; [reflexivity | exact A].
Defined.

(** X9.  A frame announced with one of the five encodings the
    implementation knows but does not support (ZBINR32 and the four
    variable-length ones) is refused with [errUnsupportedEnc], after one
    or two ZPADs and any noise within the garbage budget; [recvHeader]
    passes the error on and reads nothing further. *)
Theorem recvHeader_unsupported_encoding {crc : CRC} (s : Session)
        (g pads rest : list Z) (enc : Z) :
  Forall (fun b => b <> CAN /\ b <> ZPAD) g ->
  garbageCount (tr s) + Z.of_nat (length g) <= garbageMax (tr s) ->
  pads = [] \/ pads = [ZPAD] ->
  unsupportedEncb enc = true ->
  avail (tr s) = g ++ ZPAD :: pads ++ ZDLE :: enc :: rest ->
  exists tr',
    scanForPad (tr s) = (Err (ErrWrap "%w: 0x%02x" errUnsupportedEnc), tr')
    /\ recvHeader s
       = (Err (ErrWrap "%w: 0x%02x" errUnsupportedEnc), setTr tr' s)
    /\ avail tr' = rest.
Proof.
  intros Hg Hb Hp Henc Ha.
  destruct (scanForPad_after_garbage (tr s) g pads enc rest Hg Hb Hp Ha)
    as (t4 & A4 & _ & _ & _ & E).
  assert (Hs : supportedEncb enc = false).
  { unfold unsupportedEncb in Henc. unfold supportedEncb.
    repeat (apply orb_true_iff in Henc; destruct Henc as [Henc | Henc]);
      apply Z.eqb_eq in Henc; subst enc; reflexivity. }
  rewrite Hs, Henc in E. exists t4. split; [exact E|]. split; [|exact A4].
  unfold recvHeader.
  rewrite (bind_Err _ _ _ _ _ (onReader_eq _ _ _ _ E)). reflexivity.
Qed.

Lemma recvHeader_unsupported_encoding_witness :
  let s := NewSession [0x00; ZPAD; ZPAD; ZDLE; ZVHEX; 0x30] false
                      (mkHandler [] []) None in
  unsupportedEncb ZVHEX = true
  /\ fst (recvHeader (crc := specCRC) s)
     = Err (ErrWrap "%w: 0x%02x" errUnsupportedEnc).
Proof.
  intros s. split; [reflexivity|].
  assert (Hg : Forall (fun b => b <> CAN /\ b <> ZPAD) [0x00])
    by (repeat (apply Forall_cons; [split; discriminate|]); apply Forall_nil).
  destruct (recvHeader_unsupported_encoding (crc := specCRC) s [0x00] [ZPAD]
              [0x30] ZVHEX Hg) as (tr' & _ & E & _);
    [vm_compute; discriminate | right; reflexivity | reflexivity
     | reflexivity |].
  rewrite E. reflexivity.
Defined.

(** X10.  [zdlRead] returns on every finite input.  It fails only with
    the read error or the abort error; when it returns it has consumed at
    least one octet, the CAN counter is 0, and the frame-end value is 0 or
    one of the four end markers. *)
Theorem zdlRead_outcomes (tr : transportReader) :
  exists out tr',
    zdlRead tr = (out, tr')
    /\ (out = Err ErrRead \/ out = Err errAbortReceived
        \/ exists b fe,
             out = Ok (b, fe) /\ canCount tr' = 0
             /\ (length (avail tr') < length (avail tr))%nat
             /\ (fe = 0 \/ is_endType fe)).
Proof.
  pose proof (zdlRead_inv tr) as H. unfold zdlRead_post in H.
  destruct (zdlRead tr) as [[[b fe]|e|] t]; [| |destruct H].
  - exists (Ok (b, fe)), t. split; [reflexivity|]. right. right.
    exists b, fe. split; [reflexivity | exact H].
  - exists (Err e), t. split; [reflexivity|].
    destruct H as [-> | ->]; auto.
Qed.

(** ** Configuration defaults *)

(** X11.  [defaults] puts every tunable in range (block size between 1
    and 8192, timeout not negative, retries and garbage threshold at least
    1), leaves the other fields alone, keeps values that were already in
    range, and applying it twice changes nothing more. *)
Theorem defaults_in_range (c : Config.t) :
  let c' := Config.defaults c in
  1 <= Config.MaxBlockSize c' <= 8192
  /\ 0 <= Config.RecvTimeout c'
  /\ 1 <= Config.MaxRetries c'
  /\ 1 <= Config.GarbageThreshold c'
  /\ (1 <= Config.MaxBlockSize c <= 8192 ->
      Config.MaxBlockSize c' = Config.MaxBlockSize c)
  /\ (0 <= Config.RecvTimeout c -> Config.RecvTimeout c' = Config.RecvTimeout c)
  /\ (1 <= Config.MaxRetries c -> Config.MaxRetries c' = Config.MaxRetries c)
  /\ (1 <= Config.GarbageThreshold c ->
      Config.GarbageThreshold c' = Config.GarbageThreshold c)
  /\ (Config.WindowSize c', Config.EscapeMode c', Config.Use32BitCRC c',
      Config.AttnSequence c', Config.Capabilities c', Config.MaxFileSize c',
      Config.Znulls c')
     = (Config.WindowSize c, Config.EscapeMode c, Config.Use32BitCRC c,
        Config.AttnSequence c, Config.Capabilities c, Config.MaxFileSize c,
        Config.Znulls c)
  /\ Config.defaults c' = c'.
Proof.
  destruct c as [mbs ws em u32 attn rt caps mfs mr gt zn].
  cbv zeta. rewrite !defaults_fields.
  cbn [Config.MaxBlockSize Config.WindowSize Config.EscapeMode
       Config.Use32BitCRC Config.AttnSequence Config.RecvTimeout
       Config.Capabilities Config.MaxFileSize Config.MaxRetries
       Config.GarbageThreshold Config.Znulls].
  rewrite !Z.gtb_ltb.
  destruct (Z.leb_spec mbs 0) as [H1|H1];
    destruct (Z.ltb_spec 8192 mbs) as [H2|H2];
    destruct (Z.ltb_spec rt 0) as [H3|H3];
    destruct (Z.leb_spec mr 0) as [H4|H4];
    destruct (Z.leb_spec gt 0) as [H5|H5];
    repeat match goal with
           | |- _ /\ _ => split
           | |- _ -> _ => intro
           end;
    try lia; try reflexivity;
    repeat match goal with
           | |- context [?a <=? ?b] =>
               destruct (Z.leb_spec a b); try lia
           | |- context [?a <? ?b] =>
               destruct (Z.ltb_spec a b); try lia
           end;
    reflexivity.
Qed.

(** ** What a session-level read touches *)

Lemma onlyTr_ret {A} (a : A) : onlyTr (ret a).
Proof. intros s. cbn. destruct s; reflexivity. Qed.

Lemma onlyTr_fail {A} e : onlyTr (@fail Session A e).
Proof. intros s. cbn. destruct s; reflexivity. Qed.

Lemma onlyTr_get : onlyTr (@get Session).
Proof. intros s. cbn. destruct s; reflexivity. Qed.

Lemma onlyTr_onReader {A} (m : RM A) : onlyTr (onReader m).
Proof.
  intros s. unfold onReader. destruct (m (tr s)) as [r t]. reflexivity.
Qed.

Lemma onlyTr_bind {A B} (m : SM A) (k : A -> SM B) :
  onlyTr m -> (forall a, onlyTr (k a)) -> onlyTr (bind m k).
Proof.
  intros Hm Hk s. unfold bind. specialize (Hm s).
  destruct (m s) as [[a|e|] s1]; cbn [snd] in *; [|exact Hm | exact Hm].
  specialize (Hk a s1). rewrite Hk. rewrite Hm at 2.
  rewrite setTr_setTr. reflexivity.
Qed.

Lemma onlyTr_wrapErr {A} msg (m : SM A) : onlyTr m -> onlyTr (wrapErr msg m).
Proof.
  intros Hm s. unfold wrapErr. specialize (Hm s).
  destruct (m s) as [[a|e|] s1]; exact Hm.
Qed.

Lemma onlyTr_timesM {A} n (m : SM A) : onlyTr m -> onlyTr (timesM n m).
Proof.
  intros Hm. induction n as [|n IH]; cbn [timesM].
  - apply onlyTr_ret.
  - apply onlyTr_bind; [exact Hm|]. intros a.
    apply onlyTr_bind; [exact IH|]. intros l. apply onlyTr_ret.
Qed.

Lemma onlyTr_discard :
  onlyTr (fun s => (Ok tt, snd (onReader readByte s))).
Proof. intros s. cbn [snd]. apply (onlyTr_onReader readByte s). Qed.

Lemma onlyTr_resetGarbage :
  onlyTr (modify (fun s => setTr (resetGarbage (tr s)) s)).
Proof. intros s. reflexivity. Qed.

Ltac onlyTr_step :=
  match goal with
  | |- onlyTr (bind _ _) => apply onlyTr_bind; [|intro]
  | |- onlyTr (ret _) => apply onlyTr_ret
  | |- onlyTr (fail _) => apply onlyTr_fail
  | |- onlyTr get => apply onlyTr_get
  | |- onlyTr (onReader _) => apply onlyTr_onReader
  | |- onlyTr (wrapErr _ _) => apply onlyTr_wrapErr
  | |- onlyTr (timesM _ _) => apply onlyTr_timesM
  | |- onlyTr (modify _) => exact onlyTr_resetGarbage
  | |- onlyTr (fun s => (Ok tt, snd (onReader readByte s))) =>
      exact onlyTr_discard
  | |- onlyTr (if ?c then _ else _) => destruct c
  | |- onlyTr (match ?x with _ => _ end) => destruct x
  end.

Section OnlyTrSession.
Context {crc : CRC}.

Lemma zdlReadNoEnd_onlyTr m1 m2 : onlyTr (zdlReadNoEnd m1 m2).
Proof. unfold zdlReadNoEnd. repeat onlyTr_step. Qed.

Lemma recvHeader_onlyTr : onlyTr recvHeader.
Proof.
  unfold recvHeader, recvHexHeader, recvBinHeader.
  repeat first [apply zdlReadNoEnd_onlyTr | onlyTr_step].
Qed.

Lemma recvSubpacketCRC16_loop_onlyTr fuel : forall acc maxLen,
  onlyTr (recvSubpacketCRC16_loop fuel acc maxLen).
Proof.
  induction fuel as [|fuel IH]; intros acc maxLen.
  - intros s. cbn. destruct s; reflexivity.
  - cbn [recvSubpacketCRC16_loop].
    repeat first [apply zdlReadNoEnd_onlyTr | apply IH | onlyTr_step].
Qed.

Lemma recvSubpacketCRC32_loop_onlyTr fuel : forall acc maxLen,
  onlyTr (recvSubpacketCRC32_loop fuel acc maxLen).
Proof.
  induction fuel as [|fuel IH]; intros acc maxLen.
  - intros s. cbn. destruct s; reflexivity.
  - cbn [recvSubpacketCRC32_loop].
    repeat first [apply zdlReadNoEnd_onlyTr | apply IH | onlyTr_step].
Qed.

Lemma recvSubpacket_onlyTr maxLen : onlyTr (recvSubpacket maxLen).
Proof.
  intros s. unfold recvSubpacket, recvSubpacketCRC16, recvSubpacketCRC32.
  destruct (useCRC32 s);
    [apply recvSubpacketCRC32_loop_onlyTr | apply recvSubpacketCRC16_loop_onlyTr].
Qed.

End OnlyTrSession.

(** ** Capability negotiation *)

Lemma land_pow2_testbit (x k : Z) :
  0 <= k -> negb (Z.land x (2 ^ k) =? 0) = Z.testbit x k.
Proof.
  intros Hk. destruct (Z.testbit x k) eqn:T.
  - assert (E : Z.land x (2 ^ k) = 2 ^ k).
    { apply Z.bits_inj'. intros n Hn.
      rewrite Z.land_spec, Z.pow2_bits_eqb by lia.
      destruct (Z.eqb_spec k n) as [->|]; [rewrite T|rewrite andb_false_r];
        reflexivity. }
    rewrite E. pose proof (Z.pow_pos_nonneg 2 k ltac:(lia) Hk).
    destruct (Z.eqb_spec (2 ^ k) 0); [lia | reflexivity].
  - assert (E : Z.land x (2 ^ k) = 0).
    { apply Z.bits_inj'. intros n Hn.
      rewrite Z.land_spec, Z.pow2_bits_eqb, Z.bits_0 by lia.
      destruct (Z.eqb_spec k n) as [->|]; [rewrite T|rewrite andb_false_r];
        reflexivity. }
    rewrite E. reflexivity.
Qed.

Lemma window_octets (ws : Z) :
  0 <= ws ->
  Z.lor (u8 (Z.land ws 0xff)) (Z.shiftl (u8 (Z.land (Z.shiftr ws 8) 0xff)) 8)
  = ws mod 65536.
Proof.
  intros Hws. change 0xff with (Z.ones 8). rewrite !Z.land_ones by lia.
  rewrite Z.shiftr_div_pow2 by lia. change (2 ^ 8) with 256.
  unfold u8. rewrite !Z.mod_mod by lia.
  rewrite lor_shiftl_add;
    [| lia | change (2 ^ 8) with 256; apply Z.mod_pos_bound; lia
     | apply Z.mod_pos_bound; lia].
  change (2 ^ 8) with 256. change 65536 with (256 * 256).
  rewrite Z.rem_mul_r by lia. lia.
Qed.

Section NegotiationFacts.
Context {crc : CRC} (laws : CRCLaws crc).

(** X12.  Capability negotiation end to end.  When the sender reads the
    ZRINIT that [sendZRINIT] put on the wire and hands it to
    [processZRINIT], it learns the receiver's flags (CANFDX and CANOVIO
    always set, CANFC32 and ESCCTL as configured, plus the configured
    capability octet) and its window size modulo 65536; it switches to
    CRC-32 exactly when its own configuration asks for it and the flags
    carry CANFC32, and its writer to escape mode All exactly when they
    carry ESCCTL; otherwise both stay as they were. *)
Theorem zrinit_negotiation (rcv snd : Session) (rest : list Z) :
  is_byte (Config.Capabilities (cfg rcv)) ->
  avail (tr snd) = emitted (tw rcv) (tw (sendZRINIT rcv)) ++ rest ->
  exists hdr s1,
    recvHeader snd = (Ok hdr, s1) /\ Type_ hdr = ZRINIT
    /\ let s2 := processZRINIT hdr s1 in
       let caps := remoteFlags s2 in
       Z.testbit caps 0 = true /\ Z.testbit caps 1 = true
       /\ Z.testbit caps 5
          = Config.Use32BitCRC (cfg rcv)
            || Z.testbit (Config.Capabilities (cfg rcv)) 5
       /\ Z.testbit caps 6
          = isEscapeAll (Config.EscapeMode (cfg rcv))
            || Z.testbit (Config.Capabilities (cfg rcv)) 6
       /\ remoteWindowSize s2
          = (if Config.WindowSize (cfg rcv) >? 0
             then Config.WindowSize (cfg rcv) mod 65536 else 0)
       /\ useCRC32 s2
          = useCRC32 snd
            || (Config.Use32BitCRC (cfg snd) && Z.testbit caps 5)
       /\ escapeMode (tw s2)
          = (if Z.testbit caps 6 then EscapeAll else escapeMode (tw snd))
       /\ remoteEscAll s2
          = (if Z.testbit caps 6 then true else remoteEscAll snd)
       /\ (writer_wf (tw snd) -> writer_wf (tw s2))
       /\ cfg s2 = cfg snd /\ tr s2 = tr s1.
Proof.
  intros Hcap Ha.
  set (c0 := Z.lor CANFDX CANOVIO) in *.
  set (c1 := if Config.Use32BitCRC (cfg rcv) then Z.lor c0 CANFC32 else c0).
  set (c2 := if isEscapeAll (Config.EscapeMode (cfg rcv))
             then Z.lor c1 ESCCTL else c1).
  set (caps := Z.lor c2 (Config.Capabilities (cfg rcv))).
  set (ws := Config.WindowSize (cfg rcv)).
  set (D := if ws >? 0
            then mkData (u8 (Z.land ws 0xff))
                        (u8 (Z.land (Z.shiftr ws 8) 0xff)) 0 caps
            else mkData 0 0 0 caps).
  assert (Hhdr : sendZRINIT rcv = sendHexHeader (mkHeader 0 ZRINIT D) rcv).
  { unfold sendZRINIT. cbv zeta. fold c0 c1 c2 caps ws. subst D.
    destruct (ws >? 0); reflexivity. }
  assert (Bcaps : is_byte caps).
  { assert (B1 : is_byte c1)
      by (subst c1 c0; destruct (Config.Use32BitCRC (cfg rcv));
          vm_compute; split; discriminate || reflexivity).
    assert (B2 : is_byte c2)
      by (subst c2 c1 c0; destruct (Config.Use32BitCRC (cfg rcv)),
            (isEscapeAll (Config.EscapeMode (cfg rcv)));
          vm_compute; split; discriminate || reflexivity).
    unfold is_byte in *. change 256 with (2 ^ 8).
    apply lor_below; [lia | exact B2 | exact Hcap]. }
  assert (BD : Forall is_byte (dataBytes D)).
  { subst D. destruct (ws >? 0); cbv [dataBytes d0 d1 d2 d3];
      repeat apply Forall_cons; try apply Forall_nil;
      try apply u8_byte; try exact Bcaps; unfold is_byte; lia. }
  rewrite Hhdr, sendHexHeader_wire in Ha.
  cbn [Type_ Data] in Ha. change (negb (ZRINIT =? ZACK) && negb (ZRINIT =? ZFIN))
    with true in Ha. cbv iota in Ha.
  rewrite <- !app_assoc in Ha.
  assert (BT : is_byte ZRINIT) by (unfold is_byte, ZRINIT; lia).
  destruct (recvHeader_hex laws snd ZRINIT D ([XON] ++ rest) BT BD) as (s1 & E).
  { rewrite Ha. rewrite <- ?app_assoc. reflexivity. }
  exists (mkHeader ZHEX ZRINIT D), s1. split; [exact E|]. split; [reflexivity|].
  pose proof (recvHeader_onlyTr snd) as F. rewrite E in F. cbn [Datatypes.snd] in F.
  assert (Fcfg : cfg s1 = cfg snd) by (rewrite F; reflexivity).
  assert (Fcrc : useCRC32 s1 = useCRC32 snd) by (rewrite F; reflexivity).
  assert (Ftw : tw s1 = tw snd) by (rewrite F; reflexivity).
  assert (Fesc : remoteEscAll s1 = remoteEscAll snd) by (rewrite F; reflexivity).
  assert (Z0 : ZF0 (mkHeader ZHEX ZRINIT D) = caps)
    by (subst D; destruct (ws >? 0); reflexivity).
  assert (RF : remoteFlags (processZRINIT (mkHeader ZHEX ZRINIT D) s1) = caps).
  { unfold processZRINIT. cbv zeta. rewrite Z0.
    destruct (negb (Z.land caps ESCCTL =? 0)); reflexivity. }
  cbv zeta. rewrite RF.
  assert (T5 : negb (Z.land caps CANFC32 =? 0) = Z.testbit caps 5)
    by (apply (land_pow2_testbit caps 5); lia).
  assert (T6 : negb (Z.land caps ESCCTL =? 0) = Z.testbit caps 6)
    by (apply (land_pow2_testbit caps 6); lia).
  assert (Hbit : forall n, 0 <= n ->
            Z.testbit caps n
            = Z.testbit CANFDX n || Z.testbit CANOVIO n
              || (Config.Use32BitCRC (cfg rcv) && Z.testbit CANFC32 n)
              || (isEscapeAll (Config.EscapeMode (cfg rcv))
                  && Z.testbit ESCCTL n)
              || Z.testbit (Config.Capabilities (cfg rcv)) n).
  { intros n Hn. subst caps c2 c1 c0.
    destruct (Config.Use32BitCRC (cfg rcv)),
      (isEscapeAll (Config.EscapeMode (cfg rcv)));
      rewrite !Z.lor_spec; cbn [andb]; rewrite ?orb_false_r; reflexivity. }
  split; [rewrite Hbit by lia; reflexivity|].
  split; [rewrite Hbit by lia; reflexivity|].
  split.
  { rewrite Hbit by lia.
    change (Z.testbit CANFDX 5) with false.
    change (Z.testbit CANOVIO 5) with false.
    change (Z.testbit CANFC32 5) with true.
    change (Z.testbit ESCCTL 5) with false.
    rewrite andb_true_r, andb_false_r, orb_false_r. reflexivity. }
  split.
  { rewrite Hbit by lia.
    change (Z.testbit CANFDX 6) with false.
    change (Z.testbit CANOVIO 6) with false.
    change (Z.testbit CANFC32 6) with false.
    change (Z.testbit ESCCTL 6) with true.
    rewrite andb_true_r, andb_false_r, orb_false_r. reflexivity. }
  unfold processZRINIT. cbv zeta. rewrite Z0, T5, T6, Fcfg, Fcrc, Fesc, Ftw.
  assert (W : Z.lor (d0 D) (Z.shiftl (d1 D) 8)
              = if ws >? 0 then ws mod 65536 else 0).
  { subst D. destruct (ws >? 0) eqn:Ew; cbn [d0 d1]; [|reflexivity].
    apply window_octets. apply Z.gtb_lt in Ew. lia. }
  cbn [Data]. rewrite W.
  destruct (Z.testbit caps 6);
    cbn [remoteWindowSize useCRC32 escapeMode tw remoteEscAll cfg tr
         setEscapeMode];
    (split; [reflexivity|]);
    (split; [destruct (Config.Use32BitCRC (cfg snd)), (Z.testbit caps 5),
               (useCRC32 snd); reflexivity|]);
    (split; [reflexivity|]); (split; [reflexivity|]);
    (split; [|split; reflexivity]).
  - intros _. apply setEscapeMode_wf.
  - intros H. exact H.
Qed.

End NegotiationFacts.

Lemma zrinit_negotiation_witness :
  let rcv := NewSession [] false (mkHandler [] [])
               (Some (Config.mk 1024 70000 EscapeAll true [] 0 0 0 10 1200 0)) in
  let wire := emitted (tw rcv) (tw (sendZRINIT (crc := specCRC) rcv)) in
  let snd := NewSession wire false (mkHandler [] [])
               (Some (Config.mk 1024 0 EscapeStandard true [] 0 0 0 10 1200
                                0)) in
  is_byte (Config.Capabilities (cfg rcv))
  /\ exists hdr s1,
       recvHeader (crc := specCRC) snd = (Ok hdr, s1)
       /\ useCRC32 (processZRINIT hdr s1) = true
       /\ escapeMode (tw (processZRINIT hdr s1)) = EscapeAll
       /\ remoteWindowSize (processZRINIT hdr s1) = 4464.
Proof.
  intros rcv wire snd.
  assert (Hc : is_byte (Config.Capabilities (cfg rcv)))
    by (vm_compute; split; discriminate || reflexivity).
  split; [exact Hc|].
  assert (Ha : avail (tr snd) = wire ++ [])
    by (rewrite app_nil_r; reflexivity).
  destruct (zrinit_negotiation specCRC_laws rcv snd [] Hc Ha)
    as (hdr & s1 & E & _ & H).
  exists hdr, s1. split; [exact E|].
  cbv zeta in H.
  destruct H as (_ & _ & H5 & H6 & HW & HC & HE & _).
  split; [rewrite HC, H5; reflexivity|].
  split; [rewrite HE, H6; reflexivity|].
  rewrite HW. reflexivity.
Defined.

(** ** Header reception with retries *)

Section RetryFacts.
Context {crc : CRC}.

Lemma recvHeaderRetry_loop_bounded fuel : forall ctx n k s,
  (Z.to_nat (Config.MaxRetries (cfg s) - k) < fuel)%nat ->
  let '(r, s', k') := recvHeaderRetry_loop fuel ctx n k s in
  r <> Stuck
  /\ k <= k'
  /\ s' = setTr (tr s') s
  /\ (forall h, r = Ok h -> k' < Config.MaxRetries (cfg s))
  /\ (k < Config.MaxRetries (cfg s) -> k' <= Config.MaxRetries (cfg s))
  /\ (Config.MaxRetries (cfg s) <= k ->
      r = Err (ErrMsg "zmodem: max retries (%d) exceeded")
      /\ s' = s /\ k' = k).
Proof.
  induction fuel as [|fuel IH]; intros ctx n k s Hf; [lia|].
  cbn [recvHeaderRetry_loop].
  destruct (k >=? Config.MaxRetries (cfg s)) eqn:Ek.
  { rewrite Z.geb_leb in Ek. apply Z.leb_le in Ek.
    split; [discriminate|]. split; [lia|].
    split; [symmetry; apply setTr_tr|].
    split; [discriminate|]. split; [lia|]. auto. }
  rewrite Z.geb_leb in Ek. apply Z.leb_gt in Ek.
  destruct (ctx n) as [e|].
  { split; [discriminate|]. split; [lia|].
    split; [symmetry; apply setTr_tr|].
    split; [discriminate|]. split; [lia|]. lia. }
  pose proof (recvHeader_tame s) as T.
  pose proof (recvHeader_onlyTr s) as F.
  destruct (recvHeader s) as [[hdr|e|] s1]; cbn [snd] in F; [| |destruct T].
  { split; [discriminate|]. split; [lia|]. split; [exact F|].
    split; [intros; lia|]. split; [lia|]. lia. }
  assert (Fc : cfg s1 = cfg s) by (rewrite F; reflexivity).
  rewrite Fc.
  destruct (k + 1 >=? Config.MaxRetries (cfg s)) eqn:Ek1.
  { rewrite Z.geb_leb in Ek1. apply Z.leb_le in Ek1.
    split; [discriminate|]. split; [lia|]. split; [exact F|].
    split; [discriminate|]. split; lia. }
  rewrite Z.geb_leb in Ek1. apply Z.leb_gt in Ek1.
  specialize (IH ctx (S n) (k + 1) s1). rewrite Fc in IH.
  assert (Hf1 : (Z.to_nat (Config.MaxRetries (cfg s) - (k + 1)) < fuel)%nat)
    by lia.
  specialize (IH Hf1).
  destruct (recvHeaderRetry_loop fuel ctx (S n) (k + 1) s1) as [[r s2] k2].
  destruct IH as (I1 & I2 & I3 & I4 & I5 & _).
  split; [exact I1|]. split; [lia|].
  split; [rewrite I3, F at 1; rewrite setTr_setTr; reflexivity|].
  split; [exact I4|]. split; [intros _; apply I5; lia | lia].
Qed.

(** X13.  [recvHeaderRetry] always returns: each failed [recvHeader] uses
    up one retry, so the loop ends within the retries that are left.  The
    retry counter never decreases and is not pushed beyond [MaxRetries]
    (unless it was beyond already); a header is returned
    only with the counter still below [MaxRetries]; with the budget
    already spent the call fails at once, touching neither the input nor
    the counter.  Nothing of the session but its reader is changed. *)
Theorem recvHeaderRetry_bounded (ctx : nat -> option error) (k : Z)
        (s : Session) :
  let '(r, s', k') := recvHeaderRetry ctx k s in
  r <> Stuck
  /\ k <= k'
  /\ s' = setTr (tr s') s
  /\ (forall h, r = Ok h -> k' < Config.MaxRetries (cfg s))
  /\ (k < Config.MaxRetries (cfg s) -> k' <= Config.MaxRetries (cfg s))
  /\ (Config.MaxRetries (cfg s) <= k ->
      r = Err (ErrMsg "zmodem: max retries (%d) exceeded")
      /\ s' = s /\ k' = k).
Proof. apply recvHeaderRetry_loop_bounded. lia. Qed.

End RetryFacts.

(** ** File CRC *)

Lemma firstn_skipn_add {A} (a b : nat) : forall l : list A,
  firstn a l ++ firstn b (skipn a l) = firstn (a + b) l.
Proof.
  induction a as [|a IH]; intros l; [reflexivity|].
  destruct l as [|x l]; [cbn; rewrite firstn_nil; reflexivity|].
  cbn [firstn skipn Nat.add app]. rewrite IH. reflexivity.
Qed.

Lemma firstn_length_firstn {A} (m : nat) (l : list A) :
  firstn (length (firstn m l)) l = firstn m l.
Proof.
  rewrite length_firstn.
  destruct (Nat.le_ge_cases m (length l)) as [H | H].
  - rewrite Nat.min_l by exact H. reflexivity.
  - rewrite Nat.min_r by exact H.
    rewrite firstn_all, firstn_all2 by exact H. reflexivity.
Qed.

Section FileCRCFacts.
Context {crc : CRC}.
Hypothesis crc32Update_app : forall c a b,
  crc32Update (crc32Update c a) b = crc32Update c (a ++ b).
Hypothesis crc32Update_nil : crc32Update 0 [] = 0.

Lemma computeFileCRC_loop_prefix fuel : forall bc crcv t r,
  rpos r = Z.of_nat t -> (t <= length (content r))%nat ->
  (0 < bc -> Z.of_nat t <= bc) ->
  crcv = crc32Update 0 (firstn t (content r)) ->
  (length (content r) - t + 2 <= fuel)%nat ->
  exists r',
    computeFileCRC_loop fuel bc crcv (Z.of_nat t) r
    = (Ok (crc32Update 0 (if bc >? 0 then firstn (Z.to_nat bc) (content r)
                          else content r)), r')
    /\ content r' = content r /\ seekable r' = seekable r.
Proof.
  induction fuel as [|fuel IH]; intros bc crcv t r Hp Ht Hbc Hc Hf; [lia|].
  cbn [computeFileCRC_loop]. cbv zeta.
  set (toRead := if (bc >? 0) && (Z.of_nat t + 8192 >? bc)
                 then bc - Z.of_nat t else 8192).
  assert (HtoRead : toRead <= 0 -> 0 < bc /\ bc = Z.of_nat t).
  { subst toRead. destruct (bc >? 0) eqn:E1; cbn [andb]; [|lia].
    apply Z.gtb_lt in E1.
    destruct (Z.of_nat t + 8192 >? bc); [|lia]. intros. split; lia. }
  destruct (toRead <=? 0) eqn:E0.
  { apply Z.leb_le in E0. destruct (HtoRead E0) as [Hpos Heq].
    exists r. split; [|split; reflexivity].
    assert (G : (bc >? 0) = true) by (apply Z.gtb_lt; lia).
    rewrite G, Hc, Heq, Nat2Z.id. reflexivity. }
  apply Z.leb_gt in E0.
  unfold Read. rewrite Hp.
  destruct (Z.of_nat (length (content r)) <=? Z.of_nat t) eqn:Eend.
  { apply Z.leb_le in Eend. assert (Et : t = length (content r)) by lia.
    cbn [length]. change (Z.of_nat 0 >? 0) with false. cbv iota.
    exists r. split; [|split; reflexivity].
    rewrite Hc, Et, firstn_all.
    destruct (bc >? 0) eqn:G; [|reflexivity].
    rewrite firstn_all2; [reflexivity|]. apply Z.gtb_lt in G. lia. }
  apply Z.leb_gt in Eend. cbv zeta.
  rewrite Nat2Z.id.
  set (data := firstn (Z.to_nat toRead) (skipn t (content r))).
  assert (Ld : length data
               = Nat.min (Z.to_nat toRead) (length (content r) - t)).
  { subst data. rewrite length_firstn, length_skipn. reflexivity. }
  assert (Hn : (Z.of_nat (length data) >? 0) = true)
    by (apply Z.gtb_lt; lia).
  rewrite Hn.
  set (r1 := mkFileReader (content r) (Z.of_nat t + Z.of_nat (length data))
                          (seekable r)).
  assert (Hbound : 0 < bc -> Z.of_nat (t + length data) <= bc).
  { intros Hb. specialize (Hbc Hb). subst toRead.
    assert (G : (bc >? 0) = true) by (apply Z.gtb_lt; lia).
    rewrite G in Ld, E0. cbn [andb] in Ld, E0.
    destruct (Z.of_nat t + 8192 >? bc) eqn:G2.
    - lia.
    - rewrite Z.gtb_ltb in G2. apply Z.ltb_ge in G2. lia. }
  destruct (IH bc (crc32Update crcv data) (t + length data)%nat r1)
    as (r' & E & C & S).
  - subst r1. cbn [rpos]. lia.
  - subst r1. cbn [content]. lia.
  - exact Hbound.
  - subst r1. cbn [content]. rewrite Hc, crc32Update_app.
    f_equal. rewrite <- firstn_skipn_add. f_equal.
    subst data. symmetry. apply firstn_length_firstn.
  - subst r1. cbn [content]. lia.
  - exists r'. split; [|split; [exact C | exact S]].
    rewrite Nat2Z.inj_add in E. exact E.
Qed.

(** X14.  [computeFileCRC] on a seekable reader returns the CRC-32 of the
    first [byteCount] octets of the file, of the whole file when
    [byteCount] is zero or negative or exceeds its length, whatever
    position the reader was at, and puts the reader back at that
    position.  On a reader that cannot seek it fails and reads
    nothing. *)
Theorem computeFileCRC_prefix (offer : FileOffer.t) (byteCount : Z) :
  let r := FileOffer.Reader offer in
  (seekable r = false ->
   computeFileCRC offer byteCount
   = (Err (ErrMsg "reader does not implement io.ReadSeeker for ZCRC"),
      offer))
  /\ (seekable r = true -> 0 <= rpos r ->
      computeFileCRC offer byteCount
      = (Ok (crc32Update 0
               (if byteCount >? 0
                then firstn (Z.to_nat byteCount) (content r)
                else content r)),
         offer)).
Proof.
  cbv zeta. split.
  - intros Hs. unfold computeFileCRC. cbv zeta. rewrite Hs. reflexivity.
  - intros Hs Hp. unfold computeFileCRC. cbv zeta. rewrite Hs. cbn [negb].
    unfold Seek at 1. change (0 <? 0) with false. cbv iota.
    set (r0 := mkFileReader (content (FileOffer.Reader offer)) 0
                            (seekable (FileOffer.Reader offer))).
    destruct (computeFileCRC_loop_prefix
                (S (S (length (content r0)))) byteCount 0 0%nat r0)
      as (r1 & E & C & S).
    + reflexivity.
    + lia.
    + lia.
    + cbn [firstn]. symmetry. exact crc32Update_nil.
    + lia.
    + change (Z.of_nat 0) with 0 in E. rewrite E.
      unfold Seek.
      assert (G : (rpos (FileOffer.Reader offer) <? 0) = false)
        by (apply Z.ltb_ge; exact Hp).
      rewrite G. rewrite C, S. subst r0. cbn [content seekable].
      destruct offer as [nm sz mt md [c p sk]]. reflexivity.
Qed.

End FileCRCFacts.

Lemma specCRC_crc32Update_app c a b :
  crc32Update (CRC := specCRC) (crc32Update (CRC := specCRC) c a) b
  = crc32Update (CRC := specCRC) c (a ++ b).
Proof.
  cbn [crc32Update specCRC]. unfold SpecCRC.crc32Update.
  rewrite fold_left_app. fold M32.
  set (F := fold_left SpecCRC.crc32Step a (Z.lxor (u32 c) M32)).
  assert (HF : 0 <= F < 4294967296).
  { subst F. apply SpecCRCFacts.crc32_fold_u32, SpecCRCFacts.xor_M32_u32.
    unfold u32. apply Z.mod_pos_bound. lia. }
  assert (HX : 0 <= Z.lxor F M32 < 4294967296)
    by (apply SpecCRCFacts.xor_M32_u32; exact HF).
  unfold u32 at 1. rewrite Z.mod_small by exact HX.
  rewrite Z.lxor_assoc, Z.lxor_nilpotent, Z.lxor_0_r. reflexivity.
Qed.

Lemma computeFileCRC_prefix_witness :
  let offer := FileOffer.mk [0x61] 9 None 420
                 (mkFileReader [0x31; 0x32; 0x33; 0x34; 0x35; 0x36; 0x37;
                                0x38; 0x39] 4 true) in
  seekable (FileOffer.Reader offer) = true
  /\ 0 <= rpos (FileOffer.Reader offer)
  /\ computeFileCRC (crc := specCRC) offer 0 = (Ok 0xCBF43926, offer).
Proof.
  intros offer. split; [reflexivity|]. split; [cbn; lia|].
  destruct (computeFileCRC_prefix (crc := specCRC) specCRC_crc32Update_app
              eq_refl offer 0) as [_ H].
  rewrite H; [reflexivity | reflexivity | cbn; lia].
Defined.

(** ** Block size over a transfer *)

Lemma applyEvent_blockSize (M : Z) (v : senderVars) (ev : senderEvent) :
  256 <= M -> 32 <= blockSize v <= M ->
  32 <= blockSize (applyEvent M v ev) <= M.
Proof.
  intros HM Hv. destruct ev as [s | offer newPos | n |]; cbn [applyEvent].
  - unfold stepNextFile. destruct (NextFile (handler s)) as [[o|] h];
      cbn [snd blockSize]; exact Hv.
  - cbn [zrposRecovery blockSize].
    assert (Q : 0 <= Z.quot (blockSize v) 4 <= blockSize v).
    { split; [apply Z.quot_pos; lia|].
      apply Z.quot_le_upper_bound; lia. }
    lia.
  - exact Hv.
  - unfold adaptBlockSize.
    destruct ((goodBlocks v >=? adaptNeeded v) && (blockSize v <? M)) eqn:E;
      [|exact Hv].
    apply andb_true_iff in E. destruct E as [_ E]. apply Z.ltb_lt in E.
    cbv zeta. cbn [blockSize].
    destruct (blockSize v * 2 >? M) eqn:G; [lia|].
    rewrite Z.gtb_ltb in G. apply Z.ltb_ge in G. lia.
Qed.

(** X15.  With a maximum block size of at least 256 (the size every
    transfer starts with), the block size stays between 32 and the
    maximum through any sequence of file changes, ZRPOS recoveries,
    subpackets sent and adaptations: the slice [buf[:blockSize]] of the
    [MaxBlockSize]-octet buffer is always in range.  A ZRPOS never raises
    it and an adaptation never lowers it. *)
Theorem blockSize_invariant (M : Z) (evs : list senderEvent) :
  256 <= M ->
  32 <= blockSize (fold_left (applyEvent M) evs senderVars0) <= M
  /\ (forall v offer newPos,
        32 <= blockSize v ->
        blockSize (zrposRecovery offer newPos v) <= blockSize v)
  /\ (forall v, 0 <= blockSize v <= M ->
                blockSize v <= blockSize (adaptBlockSize M v)).
Proof.
  intros HM. split; [|split].
  - assert (H : forall v, 32 <= blockSize v <= M ->
                          32 <= blockSize (fold_left (applyEvent M) evs v) <= M).
    { induction evs as [|ev evs IH]; intros v Hv; [exact Hv|].
      cbn [fold_left]. apply IH. apply applyEvent_blockSize; assumption. }
    apply H. cbn [senderVars0 blockSize]. lia.
  - intros v offer newPos Hv. cbn [zrposRecovery blockSize].
    assert (Q : Z.quot (blockSize v) 4 <= blockSize v)
      by (apply Z.quot_le_upper_bound; lia).
    lia.
  - intros v Hv. unfold adaptBlockSize.
    destruct ((goodBlocks v >=? adaptNeeded v) && (blockSize v <? M)) eqn:E;
      [|lia].
    apply andb_true_iff in E. destruct E as [_ E]. apply Z.ltb_lt in E.
    cbv zeta. cbn [blockSize].
    destruct (blockSize v * 2 >? M) eqn:G; lia.
Qed.

Lemma blockSize_invariant_witness :
  let o := FileOffer.mk [0x61] 3 None 420 (mkFileReader [1; 2; 3] 0 true) in
  let evs := [EvZRPOS o 0; EvZRPOS o 0; EvSubpacket 32; EvAdapt] in
  256 <= 1024
  /\ 32 <= blockSize (fold_left (applyEvent 1024) evs senderVars0) <= 1024.
Proof.
  intros o evs. assert (HM : 256 <= 1024) by lia.
  split; [exact HM|].
  exact (proj1 (blockSize_invariant 1024 evs HM)).
Defined.

(** ** The receiver's data loop as a whole *)

Section DataLoopFacts.
Context {crc : CRC}.






End DataLoopFacts.

(** ** Subpackets that must be refused *)

Lemma PutUint32_Uint32 b0 b1 b2 b3 :
  is_byte b0 -> is_byte b1 -> is_byte b2 -> is_byte b3 ->
  PutUint32 (Uint32 b0 b1 b2 b3) = [b0; b1; b2; b3].
Proof.
  intros H0 H1 H2 H3. rewrite (Uint32_sum b0 b1 b2 b3) by assumption.
  unfold is_byte in *. unfold PutUint32, u8.
  rewrite !Z.shiftr_div_pow2 by lia.
  change (2 ^ 8) with 256. change (2 ^ 16) with 65536.
  change (2 ^ 24) with 16777216.
  repeat f_equal; Z.div_mod_to_equations; lia.
Qed.

Lemma split16 hi lo :
  is_byte hi -> is_byte lo ->
  let r := Z.lor (u16 (Z.shiftl hi 8)) lo in
  u8 (Z.shiftr r 8) = hi /\ u8 (Z.land r 0xff) = lo.
Proof.
  intros Hh Hl. unfold is_byte in *. cbv zeta.
  assert (E : u16 (Z.shiftl hi 8) = Z.shiftl hi 8).
  { unfold u16. rewrite Z.shiftl_mul_pow2 by lia. change (2 ^ 8) with 256.
    apply Z.mod_small. lia. }
  rewrite E, Z.lor_comm.
  rewrite lor_shiftl_add by (change (2 ^ 8) with 256; lia).
  change (2 ^ 8) with 256. change 0xff with (Z.ones 8).
  rewrite Z.land_ones, Z.shiftr_div_pow2 by lia. change (2 ^ 8) with 256.
  unfold u8. split; Z.div_mod_to_equations; lia.
Qed.

Section SubpacketRefusals.
Context {crc : CRC}.

Lemma recvSubpacketCRC16_loop_bad maxLen wc acc e hi lo s rest fuel :
  is_endType e -> escaped_as (stripXonXoff (tr s)) wc [hi; lo] ->
  is_byte hi -> is_byte lo ->
  [hi; lo] <> subpacketCRC false acc e ->
  avail (tr s) = [ZDLE; e] ++ wc ++ rest -> canCount (tr s) < 4 ->
  exists tr', avail tr' = rest /\
    recvSubpacketCRC16_loop (S fuel) acc maxLen s
    = (Err (ErrMsg "zmodem: subpacket CRC-16 error"), setTr tr' s).
Proof.
  intros He Hw Hh Hl Hne Ha Hk.
  destruct (zdlRead_end (tr s) e (wc ++ rest) Ha Hk He)
    as (tr1 & E1 & Ha1 & C1).
  rewrite <- (zdlRead_strip _ _ _ E1) in Hw.
  destruct (zdlReadNoEnd_escaped
              "subpacket CRC read"
              "zmodem: unexpected frame end in subpacket CRC"
              wc _ _ (setTr tr1 s) rest Hw Ha1)
    as (tr2 & w2 & E2 & _ & Ha2 & Hw2 & C2).
  { cbn [tr setTr]. lia. }
  destruct (zdlReadNoEnd_escaped
              "subpacket CRC read"
              "zmodem: unexpected frame end in subpacket CRC"
              w2 _ _ (setTr tr2 s) rest Hw2 Ha2)
    as (tr3 & w3 & E3 & _ & Ha3 & Hw3 & C3).
  { cbn [tr setTr]. lia. }
  inversion Hw3; subst.
  exists tr3. split; [exact Ha3|].
  cbn [recvSubpacketCRC16_loop].
  rewrite (bind_Ok _ _ _ _ _
             (wrapErr_Ok _ _ _ _ _ (onReader_eq _ _ _ _ E1))).
  rewrite (endType_nonzero e He). cbn [negb].
  rewrite (bind_Ok _ _ _ _ _ E2). rewrite setTr_setTr in E3.
  rewrite (bind_Ok _ _ _ _ _ E3). cbv zeta.
  destruct (Z.eqb_spec (crc16Finalize (crc16Update (crc16Update 0 acc) [e]))
                       (Z.lor (u16 (Z.shiftl hi 8)) lo)) as [Eq | Nq];
    [|reflexivity].
  exfalso. apply Hne. unfold subpacketCRC. cbv zeta. rewrite Eq.
  destruct (split16 hi lo Hh Hl) as [-> ->]. reflexivity.
Qed.

Lemma recvSubpacketCRC32_loop_bad maxLen wc acc e c s rest fuel :
  is_endType e -> escaped_as (stripXonXoff (tr s)) wc c ->
  Forall is_byte c -> length c = 4%nat ->
  c <> subpacketCRC true acc e ->
  avail (tr s) = [ZDLE; e] ++ wc ++ rest -> canCount (tr s) < 4 ->
  exists tr', avail tr' = rest /\
    recvSubpacketCRC32_loop (S fuel) acc maxLen s
    = (Err (ErrMsg "zmodem: subpacket CRC-32 error"), setTr tr' s).
Proof.
  intros He Hw Hb Hlen Hne Ha Hk.
  destruct (zdlRead_end (tr s) e (wc ++ rest) Ha Hk He)
    as (tr1 & E1 & Ha1 & C1).
  rewrite <- (zdlRead_strip _ _ _ E1) in Hw.
  destruct (timesM_escaped
              "subpacket CRC32 read"
              "zmodem: unexpected frame end in subpacket CRC32"
              _ wc (setTr tr1 s) rest Hw Ha1)
    as (tr2 & E2 & _ & Ha2 & C2).
  { cbn [tr setTr]. lia. }
  exists tr2. split; [exact Ha2|].
  cbn [recvSubpacketCRC32_loop].
  rewrite (bind_Ok _ _ _ _ _
             (wrapErr_Ok _ _ _ _ _ (onReader_eq _ _ _ _ E1))).
  rewrite (endType_nonzero e He). cbn [negb].
  rewrite Hlen in E2.
  rewrite (bind_Ok _ _ _ _ _ E2). cbv zeta. rewrite setTr_setTr.
  destruct c as [|b0 [|b1 [|b2 [|b3 [|? ?]]]]]; try discriminate Hlen.
  cbn [nth].
  destruct (Z.eqb_spec (crc32Update (crc32Update 0 acc) [e])
                       (Uint32 b0 b1 b2 b3)) as [Eq | Nq]; [|reflexivity].
  exfalso. apply Hne. unfold subpacketCRC. rewrite Eq.
  inversion Hb as [|? ? B0 Hb1]; subst.
  inversion Hb1 as [|? ? B1 Hb2]; subst.
  inversion Hb2 as [|? ? B2 Hb3]; subst.
  inversion Hb3 as [|? ? B3 _]; subst.
  symmetry. apply PutUint32_Uint32; assumption.
Qed.

(** X17.  A subpacket whose checksum octets are not exactly those of its
    payload and end type is refused with the CRC error of the session's
    CRC mode, after the whole subpacket has been consumed; no payload is
    handed out. *)
Theorem recvSubpacket_rejects_bad_crc (s : Session) (maxLen : Z)
        (wd wc P c rest : list Z) (e : Z) :
  is_endType e ->
  escaped_as (stripXonXoff (tr s)) wd P ->
  escaped_as (stripXonXoff (tr s)) wc c -> Forall is_byte c ->
  length c = (if useCRC32 s then 4%nat else 2%nat) ->
  c <> subpacketCRC (useCRC32 s) P e ->
  Z.of_nat (length P) <= maxLen ->
  canCount (tr s) < 4 ->
  avail (tr s) = wd ++ [ZDLE; e] ++ wc ++ rest ->
  exists tr',
    recvSubpacket maxLen s
    = (Err (ErrMsg (if useCRC32 s then "zmodem: subpacket CRC-32 error"
                    else "zmodem: subpacket CRC-16 error")),
       setTr tr' s)
    /\ avail tr' = rest.
Proof.
  intros He Hwd Hwc Hb Hlen Hne Hl Hk Ha.
  assert (Hfuel : exists k, S (length (avail (tr s)))
                            = (length P + S k)%nat).
  { rewrite Ha, length_app. pose proof (escaped_as_length _ _ _ Hwd).
    exists (length wd - length P
            + length ([ZDLE; e] ++ wc ++ rest))%nat. lia. }
  destruct Hfuel as (k & Hfuel).
  unfold recvSubpacket, recvSubpacketCRC16, recvSubpacketCRC32.
  rewrite Hfuel.
  destruct (useCRC32 s) eqn:Em.
  - destruct (recvSubpacketCRC32_loop_data maxLen P wd [] s _ (S k) Hwd Ha Hk)
      as (tr1 & Ha1 & F1 & C1 & E1); [cbn [length]; lia|].
    rewrite E1. cbn [app]. rewrite <- F1 in Hwc.
    destruct (recvSubpacketCRC32_loop_bad maxLen wc P e c (setTr tr1 s) rest k
                He Hwc Hb Hlen Hne Ha1 C1) as (tr2 & Ha2 & E2).
    rewrite E2, setTr_setTr. exists tr2. auto.
  - destruct (recvSubpacketCRC16_loop_data maxLen P wd [] s _ (S k) Hwd Ha Hk)
      as (tr1 & Ha1 & F1 & C1 & E1); [cbn [length]; lia|].
    rewrite E1. cbn [app]. rewrite <- F1 in Hwc.
    destruct c as [|hi [|lo [|? ?]]]; try discriminate Hlen.
    inversion Hb as [|? ? Bh Hb1]; subst.
    inversion Hb1 as [|? ? Bl _]; subst.
    destruct (recvSubpacketCRC16_loop_bad maxLen wc P e hi lo (setTr tr1 s)
                rest k He Hwc Bh Bl Hne Ha1 C1) as (tr2 & Ha2 & E2).
    rewrite E2, setTr_setTr. exists tr2. auto.
Qed.

(** X18.  A payload of more than [maxLen] octets is refused: on the octet
    that would make it [maxLen + 1] long, [recvSubpacket] fails with the
    length error, in either CRC mode, whatever follows. *)
Theorem recvSubpacket_too_long (s : Session) (maxLen : Z)
        (wd wx d rest : list Z) (x : Z) :
  escaped_as (stripXonXoff (tr s)) wd d ->
  escaped_as (stripXonXoff (tr s)) wx [x] ->
  Z.of_nat (length d) = maxLen ->
  canCount (tr s) < 4 ->
  avail (tr s) = wd ++ wx ++ rest ->
  exists tr',
    recvSubpacket maxLen s
    = (Err (ErrMsg "zmodem: subpacket exceeds max length"), setTr tr' s)
    /\ avail tr' = rest.
Proof.
  intros Hwd Hwx Hl Hk Ha.
  assert (Hfuel : exists k, S (length (avail (tr s)))
                            = (length d + S k)%nat).
  { rewrite Ha, length_app. pose proof (escaped_as_length _ _ _ Hwd).
    exists (length wd - length d + length (wx ++ rest))%nat. lia. }
  destruct Hfuel as (k & Hfuel).
  assert (G : (Z.of_nat (length ([] ++ d)) >=? maxLen) = true)
    by (cbn [app]; rewrite Z.geb_leb; apply Z.leb_le; lia).
  unfold recvSubpacket, recvSubpacketCRC16, recvSubpacketCRC32.
  rewrite Hfuel.
  destruct (useCRC32 s).
  - destruct (recvSubpacketCRC32_loop_data maxLen d wd [] s _ (S k) Hwd Ha Hk)
      as (tr1 & Ha1 & F1 & C1 & E1); [cbn [length]; lia|].
    rewrite E1. rewrite <- F1 in Hwx.
    destruct (zdlRead_escaped_cons wx x [] tr1 rest Hwx Ha1 C1)
      as (tr2 & w2 & E2 & Ha2 & Hw2 & _).
    inversion Hw2; subst. exists tr2. split; [|exact Ha2].
    cbn [recvSubpacketCRC32_loop].
    assert (E2' : zdlRead (tr (setTr tr1 s)) = (Ok (x, 0), tr2)) by exact E2.
    rewrite (bind_Ok _ _ _ _ _
               (wrapErr_Ok _ _ _ _ _ (onReader_eq _ _ _ _ E2'))).
    cbn [negb Z.eqb]. rewrite G, setTr_setTr. reflexivity.
  - destruct (recvSubpacketCRC16_loop_data maxLen d wd [] s _ (S k) Hwd Ha Hk)
      as (tr1 & Ha1 & F1 & C1 & E1); [cbn [length]; lia|].
    rewrite E1. rewrite <- F1 in Hwx.
    destruct (zdlRead_escaped_cons wx x [] tr1 rest Hwx Ha1 C1)
      as (tr2 & w2 & E2 & Ha2 & Hw2 & _).
    inversion Hw2; subst. exists tr2. split; [|exact Ha2].
    cbn [recvSubpacketCRC16_loop].
    assert (E2' : zdlRead (tr (setTr tr1 s)) = (Ok (x, 0), tr2)) by exact E2.
    rewrite (bind_Ok _ _ _ _ _
               (wrapErr_Ok _ _ _ _ _ (onReader_eq _ _ _ _ E2'))).
    cbn [negb Z.eqb]. rewrite G, setTr_setTr. reflexivity.
Qed.

End SubpacketRefusals.

Lemma escaped_as_raw (st : bool) (l : list Z) :
  forallb (raw_okb st) l = true -> escaped_as st l l.
Proof.
  induction l as [|b l IH]; intros H; [constructor|].
  cbn [forallb] in H. apply andb_true_iff in H. destruct H as [Hb Hl].
  apply ea_raw; [exact Hb | apply IH; exact Hl].
Qed.

Lemma recvSubpacket_rejects_bad_crc_witness :
  let s := NewSession [0x41; ZDLE; ZCRCE; 0x00; 0x00; 0x2a] false
                      (mkHandler [] []) None in
  is_endType ZCRCE
  /\ [0x00; 0x00] <> subpacketCRC (crc := specCRC) (useCRC32 s) [0x41] ZCRCE
  /\ fst (recvSubpacket (crc := specCRC) 1024 s)
     = Err (ErrMsg "zmodem: subpacket CRC-16 error").
Proof.
  intros s.
  assert (He : is_endType ZCRCE) by (left; reflexivity).
  assert (Hne : [0x00; 0x00]
                <> subpacketCRC (crc := specCRC) (useCRC32 s) [0x41] ZCRCE)
    by (vm_compute; discriminate).
  split; [exact He|]. split; [exact Hne|].
  destruct (recvSubpacket_rejects_bad_crc (crc := specCRC) s 1024
              [0x41] [0x00; 0x00] [0x41] [0x00; 0x00] [0x2a] ZCRCE He)
    as (tr' & E & _).
  - apply escaped_as_raw. reflexivity.
  - apply escaped_as_raw. reflexivity.
  - all_bytes.
  - reflexivity.
  - exact Hne.
  - cbn. lia.
  - cbn. lia.
  - reflexivity.
  - rewrite E. reflexivity.
Defined.

Lemma recvSubpacket_too_long_witness :
  let s := NewSession [0x41; 0x42; 0x43] false (mkHandler [] []) None in
  canCount (tr s) < 4
  /\ fst (recvSubpacket (crc := specCRC) 1 s)
     = Err (ErrMsg "zmodem: subpacket exceeds max length")
  /\ avail (tr (snd (recvSubpacket (crc := specCRC) 1 s))) = [0x43].
Proof.
  intros s. assert (Hk : canCount (tr s) < 4) by (cbn; lia).
  split; [exact Hk|].
  destruct (recvSubpacket_too_long (crc := specCRC) s 1 [0x41] [0x42] [0x41]
              [0x43] 0x42) as (tr' & E & A).
  - apply escaped_as_raw. reflexivity.
  - apply escaped_as_raw. reflexivity.
  - reflexivity.
  - exact Hk.
  - reflexivity.
  - rewrite E. split; [reflexivity | exact A].
Defined.

(** ** Binary headers behind a run of nulls *)

Lemma writeEscaped_extends data : forall tw,
  exists x, w_out (writeEscaped data tw) = w_out tw ++ x.
Proof.
  induction data as [|b data IH]; intros tw.
  - exists []. cbn. rewrite app_nil_r. reflexivity.
  - change (writeEscaped (b :: data) tw)
      with (writeEscaped data (writeEscapedByte b tw)).
    destruct (IH (writeEscapedByte b tw)) as (x & E). rewrite E.
    unfold writeEscapedByte.
    destruct (escapeRequired (table tw) b (lastSent tw));
      cbn [escapeByte w_out]; rewrite <- app_assoc; eexists; reflexivity.
Qed.

Section ZnullsFacts.
Context {crc : CRC} (laws : CRCLaws crc).

Lemma sendBinHeader_extends hdr s :
  exists x, w_out (tw (sendBinHeader hdr s)) = w_out (tw s) ++ x.
Proof.
  unfold sendBinHeader. cbv zeta.
  cbn [onWriter setTw tw useCRC32]. unfold Flush.
  set (payload := Type_ hdr :: dataBytes (Data hdr)).
  destruct (useCRC32 s); cbn [onWriter setTw tw].
  - set (t0 := writeRaw [ZPAD; ZDLE; ZBIN32] (tw s)).
    destruct (writeEscaped_extends payload t0) as (x1 & E1).
    destruct (writeEscaped_extends (PutUint32 (crc32Calc payload))
                                   (writeEscaped payload t0)) as (x2 & E2).
    rewrite E2, E1. subst t0. cbn [writeRaw w_out].
    rewrite <- !app_assoc. eexists. reflexivity.
  - set (t0 := writeRaw [ZPAD; ZDLE; ZBIN] (tw s)).
    destruct (writeEscaped_extends payload t0) as (x1 & E1).
    set (t1 := writeEscaped payload t0) in *.
    destruct (writeEscaped_extends [u8 (Z.shiftr (crc16Calc payload) 8)] t1)
      as (x2 & E2).
    destruct (writeEscaped_extends
                [u8 (Z.land (crc16Calc payload) 0xff)]
                (writeEscaped [u8 (Z.shiftr (crc16Calc payload) 8)] t1))
      as (x3 & E3).
    cbn [writeEscaped fold_left] in E2, E3.
    rewrite E3, E2, E1. subst t0. cbn [writeRaw w_out].
    rewrite <- !app_assoc. eexists. reflexivity.
Qed.

(** X19.  A binary header sent behind [Znulls] null octets is still
    received, header for header, as long as the nulls fit in what is left
    of the receiver's garbage budget, and the budget is whole again
    afterwards; with one null more than the budget allows, [recvHeader]
    fails with [errGarbageOverflow] before reaching the header. *)
Theorem znulls_header_roundtrip (snd rcv : Session) (e0 T : Z) (D : Data4)
        (rest : list Z) :
  writer_wf (tw snd) -> reads_from (tw snd) (tr rcv) ->
  is_byte T -> Forall is_byte (dataBytes D) ->
  garbageCount (tr rcv) <= garbageMax (tr rcv) ->
  avail (tr rcv)
  = emitted (tw snd)
            (tw (sendBinHeaderWithZnulls (mkHeader e0 T D) snd)) ++ rest ->
  (garbageCount (tr rcv) + Z.max 0 (Config.Znulls (cfg snd))
   <= garbageMax (tr rcv) ->
   exists s',
     recvHeader rcv
     = (Ok (mkHeader (if useCRC32 snd then ZBIN32 else ZBIN) T D), s')
     /\ avail (tr s') = rest /\ garbageCount (tr s') = 0)
  /\ (garbageMax (tr rcv) < garbageCount (tr rcv) + Config.Znulls (cfg snd) ->
      exists s', recvHeader rcv = (Err errGarbageOverflow, s')).
Proof.
  intros Hwf0 Hrd HT HD Hg Ha.
  pose proof (writer_for_intro _ _ Hwf0 Hrd) as Hwf.
  set (n := Z.to_nat (Config.Znulls (cfg snd))).
  set (s0 := if Config.Znulls (cfg snd) >? 0
             then onWriter (writeRaw (repeat 0 n)) snd else snd).
  assert (Hs0 : w_out (tw s0) = w_out (tw snd) ++ repeat 0 n
                /\ writer_for (stripXonXoff (tr rcv)) (tw s0)
                /\ useCRC32 s0 = useCRC32 snd).
  { subst s0 n. destruct (Config.Znulls (cfg snd) >? 0) eqn:Ez.
    - cbn [onWriter setTw tw useCRC32]. split; [reflexivity|].
      split; [exact Hwf | reflexivity].
    - rewrite Z.gtb_ltb in Ez. apply Z.ltb_ge in Ez.
      replace (Z.to_nat (Config.Znulls (cfg snd))) with 0%nat by lia.
      cbn [repeat]. rewrite app_nil_r. auto. }
  destruct Hs0 as (W0 & Wf0 & U0).
  destruct (sendBinHeader_wire _ (mkHeader e0 T D) s0 Wf0 HT HD)
    as (wp & wc & Ew & Ap & Ac).
  destruct (sendBinHeader_extends (mkHeader e0 T D) s0) as (x & Ex).
  rewrite (emitted_app _ _ _ Ex) in Ew. subst x.
  cbn [Type_ Data] in Ap, Ac. rewrite U0 in *.
  assert (Ea : avail (tr rcv)
               = repeat 0 n
                 ++ ZPAD :: [] ++ ZDLE
                    :: (if useCRC32 snd then ZBIN32 else ZBIN)
                    :: (wp ++ wc ++ rest)).
  { rewrite Ha. unfold sendBinHeaderWithZnulls. cbv zeta. fold n. fold s0.
    rewrite (emitted_app (tw snd) (tw (sendBinHeader (mkHeader e0 T D) s0))
               (repeat 0 n
                ++ [ZPAD; ZDLE; if useCRC32 snd then ZBIN32 else ZBIN]
                ++ wp ++ wc)).
    - rewrite <- !app_assoc. reflexivity.
    - rewrite Ex, W0, <- !app_assoc. reflexivity. }
  split.
  - intros Hb.
    destruct (scanForPad_after_garbage (tr rcv) (repeat 0 n) []
                (if useCRC32 snd then ZBIN32 else ZBIN) (wp ++ wc ++ rest)
                (repeat_zero_garbage n))
      as (t4 & A4 & C4 & _ & _ & E4);
      [rewrite repeat_length; subst n; lia | left; reflexivity | exact Ea |].
    assert (Hsup : supportedEncb (if useCRC32 snd then ZBIN32 else ZBIN) = true)
      by (destruct (useCRC32 snd); reflexivity).
    rewrite Hsup in E4.
    rewrite (recvHeader_after_scan rcv _ _ E4).
    rewrite <- (scanForPad_strip _ _ _ E4) in Ap, Ac.
    destruct (recvBinHeader_wire laws (useCRC32 snd)
                (setTr (setGarbageCount 0 t4) rcv) T D wp wc rest
                Ap Ac HT HD) as (t5 & E5 & A5 & C5).
    { exact A4. }
    { cbn [tr setTr canCount setGarbageCount]. lia. }
    destruct (useCRC32 snd).
    + change (ZBIN32 =? ZHEX) with false. change (ZBIN32 =? ZBIN) with false.
      change (ZBIN32 =? ZBIN32) with true. cbv iota.
      rewrite (bind_Ok _ _ _ _ _ E5).
      eexists. split; [reflexivity|]. split; [exact A5 | reflexivity].
    + change (ZBIN =? ZHEX) with false. change (ZBIN =? ZBIN) with true.
      cbv iota. rewrite (bind_Ok _ _ _ _ _ E5).
      eexists. split; [reflexivity|]. split; [exact A5 | reflexivity].
  - intros Hb.
    set (k := Z.to_nat (garbageMax (tr rcv) - garbageCount (tr rcv))).
    assert (Hn : n = (k + S (n - k - 1))%nat) by (subst n k; lia).
    rewrite Hn, repeat_app in Ea. cbn [repeat] in Ea.
    rewrite <- app_assoc in Ea. cbn [app] in Ea.
    assert (Hk : garbageCount (tr rcv) + Z.of_nat (length (repeat 0 k))
                 = garbageMax (tr rcv))
      by (rewrite repeat_length; subst k; lia).
    assert (N1 : 0 <> CAN) by discriminate.
    assert (N2 : 0 <> ZPAD) by discriminate.
    destruct (scanForPad_overflow (tr rcv) (repeat 0 k) 0 _
                (repeat_zero_garbage k) N1 N2 Hk Ea) as (t1 & E1 & _).
    unfold recvHeader.
    rewrite (bind_Err _ _ _ _ _ (onReader_eq _ _ _ _ E1)).
    eexists. reflexivity.
Qed.

End ZnullsFacts.

Lemma znulls_header_roundtrip_witness :
  let snd := NewSession [] false (mkHandler [] [])
               (Some (Config.mk 1024 0 EscapeStandard false [] 0 0 0 10 1200
                                3)) in
  let hdr := makePosHeader ZDATA 0 in
  let wire := emitted (tw snd)
                (tw (sendBinHeaderWithZnulls (crc := specCRC) hdr snd)) in
  let rcv := NewSession wire false (mkHandler [] []) None in
  writer_wf (tw snd) /\ reads_from (tw snd) (tr rcv)
  /\ firstn 4 wire = [0x00; 0x00; 0x00; ZPAD]
  /\ fst (recvHeader (crc := specCRC) rcv)
     = Ok (mkHeader ZBIN ZDATA zeroData).
Proof.
  intros snd hdr wire rcv.
  assert (Hwf : writer_wf (tw snd)) by apply newTransportWriter_wf.
  assert (Hrd : reads_from (tw snd) (tr rcv))
    by (intros H; discriminate H).
  split; [exact Hwf|]. split; [exact Hrd|]. split; [vm_compute; reflexivity|].
  assert (HT : is_byte ZDATA) by (unfold is_byte, ZDATA; lia).
  assert (HD : Forall is_byte (dataBytes zeroData)) by all_bytes.
  destruct (znulls_header_roundtrip specCRC_laws snd rcv 0 ZDATA zeroData []
              Hwf Hrd HT HD) as [H _].
  - cbn. lia.
  - rewrite app_nil_r. reflexivity.
  - destruct H as (s' & E & _); [cbn; lia|].
    rewrite E. reflexivity.
Defined.

(** ** What a subpacket read hands out *)

Section SubpacketResult.
Context {crc : CRC}.

Lemma recvSubpacketCRC16_loop_bound fuel : forall acc maxLen s d e s',
  recvSubpacketCRC16_loop fuel acc maxLen s = (Ok (d, e), s') ->
  Z.of_nat (length d) <= Z.max (Z.of_nat (length acc)) maxLen
  /\ canCount (tr s') = 0
  /\ exists rest, d = acc ++ rest.
Proof.
  induction fuel as [|fuel IH]; intros acc maxLen s d e s' E;
    [discriminate E|].
  cbn [recvSubpacketCRC16_loop] in E.
  unfold bind at 1 in E. unfold wrapErr, onReader in E.
  destruct (zdlRead (tr s)) as [[[b fe]|err|] t] eqn:Ez;
    [| discriminate E | discriminate E].
  destruct (Z.eqb_spec fe 0) as [-> | Hne]; cbn [negb] in E.
  - destruct (Z.of_nat (length acc) >=? maxLen) eqn:G; [discriminate E|].
    rewrite Z.geb_leb in G. apply Z.leb_gt in G.
    destruct (IH _ _ _ _ _ _ E) as (I1 & I2 & (rest & I3)).
    rewrite length_app in I1. cbn [length] in I1.
    split; [lia|]. split; [exact I2|].
    exists (b :: rest). rewrite I3, <- app_assoc. reflexivity.
  - unfold bind in E.
    destruct (zdlReadNoEnd _ _ _) as [[hi|?|] s1] eqn:E1; try discriminate E.
    destruct (zdlReadNoEnd _ _ s1) as [[lo|?|] s2] eqn:E2; try discriminate E.
    destruct (negb _); [discriminate E|].
    injection E as <- _ <-.
    split; [lia|]. split; [|exists []; rewrite app_nil_r; reflexivity].
    unfold zdlReadNoEnd, bind, wrapErr, onReader in E2.
    destruct (zdlRead (tr s1)) as [[[b2 fe2]|?|] t2] eqn:Ez2;
      try discriminate E2.
    destruct (zdlRead_Ok _ _ _ _ Ez2) as (C2 & _).
    destruct (negb (fe2 =? 0)); [discriminate E2|].
    injection E2 as _ <-. exact C2.
Qed.

Lemma timesM_zdlReadNoEnd_canCount m1 m2 n : forall s l s',
  (0 < n)%nat ->
  timesM n (zdlReadNoEnd m1 m2) s = (Ok l, s') -> canCount (tr s') = 0.
Proof.
  induction n as [|n IH]; intros s l s' Hn E; [lia|].
  cbn [timesM] in E. unfold bind at 1 in E.
  destruct (zdlReadNoEnd m1 m2 s) as [[b|?|] s1] eqn:E1; try discriminate E.
  unfold bind at 1 in E.
  destruct (timesM n (zdlReadNoEnd m1 m2) s1) as [[l1|?|] s2] eqn:E2;
    try discriminate E.
  injection E as _ <-.
  destruct n as [|n].
  - cbn [timesM] in E2. injection E2 as _ <-.
    unfold zdlReadNoEnd, bind, wrapErr, onReader in E1.
    destruct (zdlRead (tr s)) as [[[b2 fe2]|?|] t2] eqn:Ez2;
      try discriminate E1.
    destruct (zdlRead_Ok _ _ _ _ Ez2) as (C2 & _).
    destruct (negb (fe2 =? 0)); [discriminate E1|].
    injection E1 as _ <-. exact C2.
  - apply (IH s1 l1 s2); [lia | exact E2].
Qed.

Lemma recvSubpacketCRC32_loop_bound fuel : forall acc maxLen s d e s',
  recvSubpacketCRC32_loop fuel acc maxLen s = (Ok (d, e), s') ->
  Z.of_nat (length d) <= Z.max (Z.of_nat (length acc)) maxLen
  /\ canCount (tr s') = 0
  /\ exists rest, d = acc ++ rest.
Proof.
  induction fuel as [|fuel IH]; intros acc maxLen s d e s' E;
    [discriminate E|].
  cbn [recvSubpacketCRC32_loop] in E.
  unfold bind at 1 in E. unfold wrapErr, onReader in E.
  destruct (zdlRead (tr s)) as [[[b fe]|err|] t] eqn:Ez;
    [| discriminate E | discriminate E].
  destruct (Z.eqb_spec fe 0) as [-> | Hne]; cbn [negb] in E.
  - destruct (Z.of_nat (length acc) >=? maxLen) eqn:G; [discriminate E|].
    rewrite Z.geb_leb in G. apply Z.leb_gt in G.
    destruct (IH _ _ _ _ _ _ E) as (I1 & I2 & (rest & I3)).
    rewrite length_app in I1. cbn [length] in I1.
    split; [lia|]. split; [exact I2|].
    exists (b :: rest). rewrite I3, <- app_assoc. reflexivity.
  - unfold bind in E.
    destruct (timesM _ _ _) as [[crcBuf|?|] s1] eqn:E1; try discriminate E.
    destruct (negb _); [discriminate E|].
    injection E as <- _ <-.
    split; [lia|]. split; [|exists []; rewrite app_nil_r; reflexivity].
    eapply timesM_zdlReadNoEnd_canCount; [|exact E1]. lia.
Qed.

(** X20.  Whatever is on the wire, [recvSubpacket] returns; when it hands
    out a subpacket, the payload is at most [maxLen] octets long (empty
    when [maxLen] is negative), the end type is one of the four markers,
    input has been consumed, the CAN counter is 0, and nothing of the
    session but its reader has changed. *)
Theorem recvSubpacket_result (maxLen : Z) (s : Session) :
  fst (recvSubpacket maxLen s) <> Stuck
  /\ snd (recvSubpacket maxLen s)
     = setTr (tr (snd (recvSubpacket maxLen s))) s
  /\ forall d e s',
       recvSubpacket maxLen s = (Ok (d, e), s') ->
       Z.of_nat (length d) <= Z.max 0 maxLen
       /\ is_endType e
       /\ (length (avail (tr s')) < length (avail (tr s)))%nat
       /\ canCount (tr s') = 0.
Proof.
  split; [apply recvSubpacket_total|].
  split; [apply recvSubpacket_onlyTr|].
  intros d e s' E.
  pose proof (recvSubpacket_consumes maxLen s) as Hc.
  rewrite E in Hc. cbn [consumes] in Hc.
  split; [|split; [exact (recvSubpacket_endType _ _ _ _ _ E)|split;
                   [exact Hc|]]].
  - unfold recvSubpacket, recvSubpacketCRC16, recvSubpacketCRC32 in E.
    destruct (useCRC32 s).
    + exact (proj1 (recvSubpacketCRC32_loop_bound _ _ _ _ _ _ _ E)).
    + exact (proj1 (recvSubpacketCRC16_loop_bound _ _ _ _ _ _ _ E)).
  - unfold recvSubpacket, recvSubpacketCRC16, recvSubpacketCRC32 in E.
    destruct (useCRC32 s).
    + exact (proj1 (proj2 (recvSubpacketCRC32_loop_bound _ _ _ _ _ _ _ E))).
    + exact (proj1 (proj2 (recvSubpacketCRC16_loop_bound _ _ _ _ _ _ _ E))).
Qed.

(** X21.  [recvHeader] returns on every finite input, changes nothing of
    the session but its reader, and leaves the garbage counter at 0
    whenever it returns a header. *)
Theorem recvHeader_result (s : Session) :
  fst (recvHeader s) <> Stuck
  /\ snd (recvHeader s) = setTr (tr (snd (recvHeader s))) s
  /\ forall hdr s',
       recvHeader s = (Ok hdr, s') ->
       garbageCount (tr s') = 0
       /\ (Encoding hdr = ZHEX \/ Encoding hdr = ZBIN
           \/ Encoding hdr = ZBIN32)
       /\ (length (avail (tr s')) < length (avail (tr s)))%nat.
Proof.
  split; [apply recvHeader_total|].
  split; [apply recvHeader_onlyTr|].
  intros hdr s' E. unfold recvHeader in E.
  unfold bind at 1 in E.
  pose proof (scanForPad_inv (tr s)) as Hs. unfold scanForPad_post in Hs.
  unfold onReader at 1 in E.
  destruct (scanForPad (tr s)) as [[enc|?|] t1]; try discriminate E.
  destruct Hs as (Hsup & _ & _ & Hl).
  unfold bind at 1 in E.
  assert (Hinner : forall m : SM Header,
            tameM tr m ->
            (forall h s1 s2, m s1 = (Ok h, s2) ->
                             Encoding h = ZHEX \/ Encoding h = ZBIN
                             \/ Encoding h = ZBIN32) ->
            forall r s2, m (setTr t1 s) = (r, s2) ->
            match r with
            | Ok h => (Encoding h = ZHEX \/ Encoding h = ZBIN
                       \/ Encoding h = ZBIN32)
                      /\ (length (avail (tr s2)) < length (avail (tr s)))%nat
            | _ => True
            end).
  { intros m Hm Henc r s2 Em. specialize (Hm (setTr t1 s)).
    rewrite Em in Hm. destruct r as [h| |]; auto.
    split; [exact (Henc _ _ _ Em)|]. cbn [tr setTr] in Hm. lia. }
  assert (Hhex : forall h s1 s2, recvHexHeader s1 = (Ok h, s2) ->
                                 Encoding h = ZHEX).
  { intros h s1 s2 Eh. rewrite recvHexHeader_eq in Eh.
    unfold bind at 1 in Eh.
    destruct (wrapErr _ _ s1) as [[raw|?|] s3]; try discriminate Eh.
    cbv zeta in Eh. destruct (negb (crc16Verify raw)); [discriminate Eh|].
    unfold hexTerminator in Eh. unfold bind at 1 in Eh.
    destruct (onReader readByte s3) as [[cr|?|] s4]; try discriminate Eh.
    destruct (negb (Z.land cr 127 =? 13)).
    - destruct (Z.land cr 127 =? 10); [|discriminate Eh].
      injection Eh as <- _. reflexivity.
    - unfold bind at 1 in Eh.
      destruct (onReader readByte s4) as [[lf|?|] s5]; try discriminate Eh.
      destruct (negb (Z.land lf 127 =? 10)); [discriminate Eh|].
      unfold bind at 1 in Eh. unfold get at 1 in Eh.
      unfold bind at 1 in Eh.
      match type of Eh with
      | (match ?X with _ => _ end) = _ =>
          destruct X as [[u|?|] s6]; try discriminate Eh
      end.
      injection Eh as <- _. reflexivity. }
  assert (Hbin : forall m h s1 s2, recvBinHeader m s1 = (Ok h, s2) ->
                                   Encoding h = if m then ZBIN32 else ZBIN).
  { intros m h s1 s2 Eh. unfold recvBinHeader in Eh.
    unfold bind at 1 in Eh.
    destruct (timesM 5 _ s1) as [[payload|?|] s3]; try discriminate Eh.
    cbv zeta in Eh. destruct m.
    - unfold bind at 1 in Eh.
      destruct (timesM 4 _ s3) as [[c|?|] s4]; try discriminate Eh.
      destruct (negb _); [discriminate Eh|]. injection Eh as <- _. reflexivity.
    - unfold bind at 1 in Eh.
      destruct (timesM 2 _ s3) as [[c|?|] s4]; try discriminate Eh.
      destruct (negb _); [discriminate Eh|]. injection Eh as <- _.
      reflexivity. }
  match type of E with
  | (let (_, _) := ?X (setTr t1 s) in _) = _ => set (m := X) in E
  end.
  assert (Tm : tameM tr m).
  { subst m. destruct (enc =? ZHEX); [apply recvHexHeader_tame|].
    destruct (enc =? ZBIN); [apply recvBinHeader_tame|].
    destruct (enc =? ZBIN32); [apply recvBinHeader_tame | apply tameM_fail]. }
  assert (Em : forall h s1 s2, m s1 = (Ok h, s2) ->
                 Encoding h = ZHEX \/ Encoding h = ZBIN
                 \/ Encoding h = ZBIN32).
  { subst m. intros h s1 s2 Eh.
    destruct (enc =? ZHEX); [left; exact (Hhex _ _ _ Eh)|].
    destruct (enc =? ZBIN);
      [right; left; exact (Hbin false _ _ _ Eh)|].
    destruct (enc =? ZBIN32);
      [right; right; exact (Hbin true _ _ _ Eh) | discriminate Eh]. }
  destruct (m (setTr t1 s)) as [[h|?|] s2] eqn:Emr; try discriminate E.
  specialize (Hinner m Tm Em _ _ Emr). cbv beta iota in Hinner.
  destruct Hinner as [He Hlen].
  cbv [bind modify ret] in E. injection E as <- <-.
  cbn [tr setTr resetGarbage garbageCount setGarbageCount].
  split; [reflexivity|]. split; [exact He|].
  change (avail (setGarbageCount 0 (tr s2))) with (avail (tr s2)). exact Hlen.
Qed.

End SubpacketResult.

(** ** The abort sequence at the other end *)

Section AbortFacts.
Context {crc : CRC}.


End AbortFacts.


(** ** File metadata: from marshalFileInfo to parseFileInfo *)

Lemma beforeNUL_app name X :
  Forall (fun b => b <> 0) name ->
  beforeNUL (name ++ 0 :: X) = name /\ afterNUL (name ++ 0 :: X) = X.
Proof.
  induction 1 as [|b name Hb _ [IH1 IH2]]; [split; reflexivity|].
  cbn [app beforeNUL afterNUL]. apply Z.eqb_neq in Hb. rewrite Hb.
  split; [f_equal; exact IH1 | exact IH2].
Qed.

Lemma trimTrailingNUL_nonzero meta :
  Forall (fun b => b <> 0) meta -> trimTrailingNUL meta = meta.
Proof.
  induction 1 as [|b meta Hb _ IH]; [reflexivity|].
  cbn [trimTrailingNUL]. rewrite IH. apply Z.eqb_neq in Hb. rewrite Hb.
  destruct meta; reflexivity.
Qed.

Lemma trimTrailingNUL_snoc meta :
  Forall (fun b => b <> 0) meta -> trimTrailingNUL (meta ++ [0]) = meta.
Proof.
  induction 1 as [|b meta Hb Hm IH]; [reflexivity|].
  cbn [app trimTrailingNUL]. rewrite IH. apply Z.eqb_neq in Hb. rewrite Hb.
  destruct meta; reflexivity.
Qed.

Lemma plainField_nonzero f :
  plainField f -> Forall (fun b => b <> 0) f /\ f <> [].
Proof.
  intros [Hne Hp]. split; [|exact Hne].
  apply Forall_forall. intros b Hin.
  rewrite forallb_forall in Hp. specialize (Hp b Hin).
  unfold plainb in Hp. apply andb_true_iff in Hp. destruct Hp as [Hp _].
  apply Z.leb_le in Hp. lia.
Qed.

Lemma joinFields_nonzero fs :
  Forall plainField fs -> fs <> [] ->
  Forall (fun b => b <> 0) (joinFields fs) /\ joinFields fs <> [].
Proof.
  intros Hfs Hne. destruct fs as [|f fs]; [contradiction|].
  inversion Hfs as [|? ? Hf Hrest]; subst.
  destruct (plainField_nonzero f Hf) as [Z1 N1].
  cbn [joinFields]. split.
  - apply Forall_app. split; [exact Z1|].
    clear - Hrest. induction Hrest as [|g fs Hg _ IH]; [constructor|].
    cbn [flat_map]. constructor; [discriminate|].
    apply Forall_app. split; [apply plainField_nonzero; exact Hg | exact IH].
  - destruct f; [contradiction | discriminate].
Qed.

Section MarshalParse.
Context {go : GoStrings} {fmt : GoFmt} (laws : GoTextLaws go fmt).

Lemma parseFileInfo_fields name meta :
  Forall (fun b => b <> 0) name ->
  Forall (fun b => b <> 0) meta -> meta <> [] ->
  parseFileInfo (name ++ [0] ++ meta ++ [0])
  = Ok (infoOfFields name (Fields meta)).
Proof.
  intros Hn Hm Hne. unfold parseFileInfo. cbv zeta.
  assert (Hin : In 0 (name ++ [0] ++ meta ++ [0]))
    by (apply in_or_app; right; left; reflexivity).
  destruct (indexNUL_spec (name ++ [0] ++ meta ++ [0]) 0)
    as [(_ & E) | (Hx & _)]; [lia | | contradiction].
  rewrite E, Z.add_0_l.
  assert (G : (Z.of_nat (length (beforeNUL (name ++ [0] ++ meta ++ [0]))) <? 0)
              = false) by (apply Z.ltb_ge; lia).
  rewrite G, Nat2Z.id.
  replace (Z.to_nat (Z.of_nat (length (beforeNUL (name ++ [0] ++ meta ++ [0])))
                     + 1))
    with (S (length (beforeNUL (name ++ [0] ++ meta ++ [0])))) by lia.
  rewrite (firstn_beforeNUL _ Hin), (skipn_afterNUL _ Hin).
  cbn [app]. destruct (beforeNUL_app name (meta ++ [0]) Hn) as [-> ->].
  rewrite (trimTrailingNUL_snoc meta Hm).
  assert (L : (Z.of_nat (length meta) =? 0) = false).
  { destruct meta; [contradiction|]. cbn [length]. apply Z.eqb_neq. lia. }
  rewrite L. reflexivity.
Qed.

(** X23.  File metadata survives the round trip from [marshalFileInfo] to
    [parseFileInfo], given a library whose parsers read back what its
    formatting verbs print.  The name arrives lower-cased with slashes
    (it must contain no NUL); size and mode arrive as sent; the
    modification time arrives if it is after the epoch and is dropped
    otherwise; the number of files remaining arrives if positive, and the
    number of bytes remaining only if both are positive. *)
Theorem marshal_parse_roundtrip (offer : FileOffer.t)
        (filesRemaining bytesRemaining : Z) :
  let name := ReplaceAll (ToLower (FileOffer.Name offer)) [0x5c] [0x2f] in
  Forall (fun b => b <> 0) name ->
  int64 (FileOffer.Size offer) ->
  (forall t, FileOffer.ModTime offer = Some t -> int64 t) ->
  uint32 (FileOffer.Mode offer) ->
  int64 filesRemaining -> int64 bytesRemaining ->
  parseFileInfo (marshalFileInfo offer filesRemaining bytesRemaining)
  = Ok (FileInfo.mk name (FileOffer.Size offer)
          (match FileOffer.ModTime offer with
           | Some t => if t >? 0 then Some t else None
           | None => None
           end)
          (FileOffer.Mode offer)
          (if filesRemaining >? 0 then filesRemaining else 0)
          (if (filesRemaining >? 0) && (bytesRemaining >? 0)
           then bytesRemaining else 0)).
Proof.
  intros name Hname Hsize Hmt Hmode Hfr Hbr.
  set (fmt_mt := match FileOffer.ModTime offer with
                 | Some t => Sprintf_o t
                 | None => [0x30]
                 end).
  set (tailFs := if filesRemaining >? 0
                 then Sprintf_d filesRemaining
                      :: (if bytesRemaining >? 0
                          then [Sprintf_d bytesRemaining] else [])
                 else []).
  set (fs := [Sprintf_d (FileOffer.Size offer); fmt_mt;
              Sprintf_o (FileOffer.Mode offer); [0x30]] ++ tailFs).
  assert (P0 : plainField [0x30]) by (split; [discriminate | reflexivity]).
  assert (Pmt : plainField fmt_mt).
  { subst fmt_mt. destruct (FileOffer.ModTime offer);
      [apply (Sprintf_o_plain _ _ laws) | exact P0]. }
  assert (Ptail : Forall plainField tailFs).
  { subst tailFs. destruct (filesRemaining >? 0); [|constructor].
    constructor; [apply (Sprintf_d_plain _ _ laws)|].
    destruct (bytesRemaining >? 0); [|constructor].
    constructor; [apply (Sprintf_d_plain _ _ laws) | constructor]. }
  assert (Pfs : Forall plainField fs).
  { subst fs. apply Forall_app. split; [|exact Ptail].
    apply Forall_cons; [apply (Sprintf_d_plain _ _ laws)|].
    apply Forall_cons; [exact Pmt|].
    apply Forall_cons; [apply (Sprintf_o_plain _ _ laws)|].
    apply Forall_cons; [exact P0 | apply Forall_nil]. }
  assert (Eshape : marshalFileInfo offer filesRemaining bytesRemaining
                   = name ++ [0] ++ joinFields fs ++ [0]).
  { unfold marshalFileInfo. cbv zeta. fold name. f_equal. f_equal. f_equal.
    subst fs tailFs fmt_mt. cbn [joinFields app flat_map].
    destruct (FileOffer.ModTime offer) as [t|];
      destruct (filesRemaining >? 0); try destruct (bytesRemaining >? 0);
      cbn [flat_map app]; rewrite ?app_nil_r, <- ?app_assoc;
      cbn [app]; rewrite <- ?app_assoc; reflexivity. }
  rewrite Eshape.
  destruct (joinFields_nonzero fs Pfs) as [Zm Nm];
    [subst fs; discriminate|].
  rewrite (parseFileInfo_fields name (joinFields fs) Hname Zm Nm).
  rewrite (Fields_join _ _ laws fs Pfs).
  unfold infoOfFields. cbv zeta. f_equal.
  assert (E0 : nth 0 fs [] = Sprintf_d (FileOffer.Size offer)) by reflexivity.
  assert (E1 : nth 1 fs [] = fmt_mt) by reflexivity.
  assert (E2 : nth 2 fs [] = Sprintf_o (FileOffer.Mode offer)) by reflexivity.
  assert (L : length fs = (4 + length tailFs)%nat) by reflexivity.
  rewrite E0, E1, E2, L.
  rewrite (ParseInt_d _ _ laws _ Hsize), (ParseUint_o _ _ laws _ Hmode).
  replace (u32 (FileOffer.Mode offer)) with (FileOffer.Mode offer)
    by (unfold u32, uint32 in *; symmetry; apply Z.mod_small;
        change (2 ^ 32) with 4294967296 in Hmode; exact Hmode).
  assert (G0 : (Z.of_nat (4 + length tailFs) >? 0) = true)
    by (apply Z.gtb_lt; lia).
  assert (G1 : (Z.of_nat (4 + length tailFs) >? 1) = true)
    by (apply Z.gtb_lt; lia).
  assert (G2 : (Z.of_nat (4 + length tailFs) >? 2) = true)
    by (apply Z.gtb_lt; lia).
  rewrite G0, G1, G2.
  f_equal.
  - subst fmt_mt. destruct (FileOffer.ModTime offer) as [t|].
    + rewrite (ParseInt_o _ _ laws t (Hmt t eq_refl)). reflexivity.
    + rewrite (ParseInt_zero _ _ laws). reflexivity.
  - subst fs tailFs. destruct (filesRemaining >? 0); [|reflexivity].
    destruct (bytesRemaining >? 0); cbn [length app nth Nat.add];
      rewrite (Atoi_d _ _ laws _ Hfr); reflexivity.
  - subst fs tailFs. destruct (filesRemaining >? 0); [|reflexivity].
    destruct (bytesRemaining >? 0); cbn [length app nth Nat.add andb];
      [rewrite (ParseInt_d _ _ laws _ Hbr)|]; reflexivity.
Qed.

End MarshalParse.

(** *** The ASCII stand-in satisfies the laws *)

Module AsciiFacts.
Import AsciiStrings AsciiFmt.

Lemma plain_not_space b : plainb b = true -> isSpace b = false.
Proof.
  unfold plainb, isSpace. intros H. apply andb_true_iff in H.
  destruct H as [H1 H2]. apply Z.leb_le in H1, H2.
  apply orb_false_iff. split; [apply Z.eqb_neq; lia|].
  apply andb_false_iff. right. apply Z.leb_gt. lia.
Qed.

Lemma fieldsAux_plain f : forall cur s,
  forallb plainb f = true ->
  fieldsAux cur (f ++ s) = fieldsAux (rev f ++ cur) s.
Proof.
  induction f as [|b f IH]; intros cur s H; [reflexivity|].
  cbn [forallb] in H. apply andb_true_iff in H. destruct H as [Hb Hf].
  cbn [app fieldsAux]. rewrite (plain_not_space b Hb).
  rewrite (IH (b :: cur) s Hf). cbn [rev]. rewrite <- app_assoc. reflexivity.
Qed.

Lemma fieldsAux_joined fs : forall cur,
  cur <> [] -> Forall plainField fs ->
  fieldsAux cur (flat_map (fun g => 0x20 :: g) fs) = rev cur :: fs.
Proof.
  induction fs as [|g fs IH]; intros cur Hc Hfs.
  - cbn [flat_map fieldsAux]. destruct cur; [contradiction | reflexivity].
  - inversion Hfs as [|? ? [Hg1 Hg2] Hrest]; subst.
    cbn [flat_map app fieldsAux]. change (isSpace 0x20) with true. cbv iota.
    destruct cur as [|c cur]; [contradiction|].
    rewrite (fieldsAux_plain g [] _ Hg2), app_nil_r.
    rewrite IH; [rewrite rev_involutive; reflexivity | | exact Hrest].
    destruct g; [contradiction|]. cbn [rev]. intros E.
    apply app_eq_nil in E. destruct E as [_ E]. discriminate E.
Qed.

Lemma Fields_joinFields fs :
  Forall plainField fs -> Fields (joinFields fs) = fs.
Proof.
  intros Hfs. destruct fs as [|f fs]; [reflexivity|].
  inversion Hfs as [|? ? [Hf1 Hf2] Hrest]; subst.
  unfold Fields. cbn [joinFields].
  rewrite (fieldsAux_plain f [] _ Hf2), app_nil_r.
  rewrite fieldsAux_joined; [rewrite rev_involutive; reflexivity | | exact Hrest].
  destruct f; [contradiction|]. cbn [rev]. intros E.
  apply app_eq_nil in E. destruct E as [_ E]. discriminate E.
Qed.

Lemma digits_app base x : forall a y,
  digits base a (x ++ y)
  = match digits base a x with
    | Some a' => digits base a' y
    | None => None
    end.
Proof.
  induction x as [|b x IH]; intros a y; [reflexivity|].
  cbn [app digits]. cbv zeta.
  destruct ((0 <=? b - 0x30) && (b - 0x30 <? base)); [apply IH | reflexivity].
Qed.

Lemma digitsOf_spec base : 2 <= base <= 10 ->
  forall fuel v tail,
    (0 < fuel)%nat -> 0 <= v < base ^ Z.of_nat fuel ->
    exists ds,
      digitsOf fuel base v tail = ds ++ tail
      /\ ds <> []
      /\ forallb (digitb base) ds = true
      /\ forall a, digits base a ds
                   = Some (a * base ^ Z.of_nat (length ds) + v).
Proof.
  intros Hb. induction fuel as [|fuel IH]; intros v tail Hf Hv; [lia|].
  cbn [digitsOf]. cbv zeta.
  assert (Hm : 0 <= v mod base < base) by (apply Z.mod_pos_bound; lia).
  assert (Hd : digitb base (0x30 + v mod base) = true).
  { unfold digitb. apply andb_true_iff.
    split; [apply Z.leb_le | apply Z.ltb_lt]; lia. }
  assert (Hstep : forall a,
            digits base a [0x30 + v mod base] = Some (a * base + v mod base)).
  { intros a. cbn [digits]. cbv zeta.
    replace (0x30 + v mod base - 0x30) with (v mod base) by lia.
    assert (G : (0 <=? v mod base) && (v mod base <? base) = true).
    { apply andb_true_iff.
      split; [apply Z.leb_le | apply Z.ltb_lt]; lia. }
    rewrite G. reflexivity. }
  destruct (v <? base) eqn:Ev.
  - apply Z.ltb_lt in Ev. exists [0x30 + v mod base].
    split; [reflexivity|]. split; [discriminate|].
    split; [cbn [forallb]; rewrite Hd; reflexivity|].
    intros a. rewrite Hstep. cbn [length]. change (Z.of_nat 1) with 1.
    rewrite Z.pow_1_r, Z.mod_small by lia. reflexivity.
  - apply Z.ltb_ge in Ev.
    assert (Hq : 0 <= v / base < base ^ Z.of_nat fuel).
    { split; [apply Z.div_pos; lia|].
      apply Z.div_lt_upper_bound; [lia|].
      rewrite Nat2Z.inj_succ, Z.pow_succ_r in Hv by lia. lia. }
    assert (Hf' : (0 < fuel)%nat).
    { destruct fuel; [|lia]. cbn in Hv. lia. }
    destruct (IH (v / base) ((0x30 + v mod base) :: tail) Hf' Hq)
      as (ds & E & Hne & Hds & Hval).
    exists (ds ++ [0x30 + v mod base]).
    split; [rewrite E, <- app_assoc; reflexivity|].
    split; [destruct ds; discriminate|].
    split; [rewrite forallb_app, Hds; cbn [forallb]; rewrite Hd; reflexivity|].
    intros a. rewrite digits_app, Hval, Hstep.
    rewrite length_app. cbn [length].
    rewrite Nat2Z.inj_add. change (Z.of_nat 1) with 1.
    rewrite Z.pow_add_r, Z.pow_1_r by lia.
    f_equal. pose proof (Z.div_mod v base ltac:(lia)). lia.
Qed.

Lemma formatUint_spec base v :
  2 <= base <= 10 -> 0 <= v ->
  formatUint base v <> []
  /\ forallb (digitb base) (formatUint base v) = true
  /\ digits base 0 (formatUint base v) = Some v.
Proof.
  intros Hb Hv. unfold formatUint.
  assert (Hfuel : 0 <= v < base ^ Z.of_nat (S (Z.to_nat (Z.log2 v)))).
  { split; [exact Hv|].
    rewrite Nat2Z.inj_succ, Z2Nat.id by apply Z.log2_nonneg.
    destruct (Z.eq_dec v 0) as [-> | Hnz].
    - cbn. lia.
    - assert (H2 : v < 2 ^ Z.succ (Z.log2 v)) by (apply Z.log2_spec; lia).
      assert (H3 : 2 ^ Z.succ (Z.log2 v) <= base ^ Z.succ (Z.log2 v)).
      { apply Z.pow_le_mono_l. lia. }
      lia. }
  destruct (digitsOf_spec base Hb _ v [] (Nat.lt_0_succ _) Hfuel)
    as (ds & E & Hne & Hds & Hval).
  rewrite E, app_nil_r. split; [exact Hne|]. split; [exact Hds|].
  rewrite Hval. f_equal; lia.
Qed.

Lemma digit_plain base b :
  2 <= base <= 10 -> digitb base b = true -> plainb b = true.
Proof.
  unfold digitb, plainb. intros Hb H. apply andb_true_iff in H.
  destruct H as [H1 H2]. apply Z.leb_le in H1. apply Z.ltb_lt in H2.
  apply andb_true_iff. split; apply Z.leb_le; lia.
Qed.

Lemma formatInt_plain base v :
  2 <= base <= 10 -> plainField (formatInt base v).
Proof.
  intros Hb. unfold formatInt.
  assert (Hp : forall w, 0 <= w ->
                 formatUint base w <> []
                 /\ forallb plainb (formatUint base w) = true).
  { intros w Hw. destruct (formatUint_spec base w Hb Hw) as (H1 & H2 & _).
    split; [exact H1|]. rewrite forallb_forall in *. intros b Hin.
    apply (digit_plain base b Hb). apply H2. exact Hin. }
  destruct (v <? 0) eqn:Ev.
  - apply Z.ltb_lt in Ev. destruct (Hp (- v)) as [H1 H2]; [lia|].
    split; [discriminate|]. cbn [forallb]. rewrite H2. reflexivity.
  - apply Z.ltb_ge in Ev. destruct (Hp v Ev) as [H1 H2]. split; assumption.
Qed.

(** A string that starts with a digit carries no sign. *)
Lemma ParseInt_unsigned d s base bits :
  0x30 <= d ->
  ParseInt (d :: s) base bits
  = match digits base 0 (d :: s) with
    | Some v =>
        if (- 2 ^ (bits - 1) <=? v) && (v <? 2 ^ (bits - 1))
        then Some v else None
    | None => None
    end.
Proof.
  intros Hd. unfold ParseInt.
  destruct d as [|p|p]; [lia | | lia].
  do 6 (try (destruct p as [p|p|])); try reflexivity; lia.
Qed.

Lemma ParseInt_formatInt base v :
  2 <= base <= 10 -> int64 v -> ParseInt (formatInt base v) base 64 = Some v.
Proof.
  intros Hb Hv. unfold int64 in Hv. unfold formatInt.
  destruct (v <? 0) eqn:Ev.
  - apply Z.ltb_lt in Ev.
    destruct (formatUint_spec base (- v) Hb) as (Hne & _ & Hval); [lia|].
    unfold ParseInt.
    destruct (formatUint base (- v)) as [|d s] eqn:Ef; [contradiction|].
    rewrite Hval. rewrite Z.opp_involutive.
    assert (G : (- 2 ^ (64 - 1) <=? v) && (v <? 2 ^ (64 - 1)) = true).
    { apply andb_true_iff.
      split; [apply Z.leb_le | apply Z.ltb_lt];
        change (64 - 1) with 63; lia. }
    rewrite G. reflexivity.
  - apply Z.ltb_ge in Ev.
    destruct (formatUint_spec base v Hb Ev) as (Hne & Hds & Hval).
    destruct (formatUint base v) as [|d s] eqn:Ef; [contradiction|].
    cbn [forallb] in Hds. apply andb_true_iff in Hds. destruct Hds as [Hd _].
    unfold digitb in Hd. apply andb_true_iff in Hd. destruct Hd as [Hd _].
    apply Z.leb_le in Hd.
    rewrite (ParseInt_unsigned d s base 64 Hd), Hval.
    assert (G : (- 2 ^ (64 - 1) <=? v) && (v <? 2 ^ (64 - 1)) = true).
    { apply andb_true_iff.
      split; [apply Z.leb_le | apply Z.ltb_lt];
        change (64 - 1) with 63; lia. }
    rewrite G. reflexivity.
Qed.

Lemma ParseUint_formatInt v :
  uint32 v -> ParseUint (formatInt 8 v) 8 32 = Some v.
Proof.
  intros Hv. unfold uint32 in Hv. unfold formatInt.
  assert (Ev : (v <? 0) = false) by (apply Z.ltb_ge; lia). rewrite Ev.
  destruct (formatUint_spec 8 v ltac:(lia) ltac:(lia)) as (Hne & _ & Hval).
  unfold ParseUint.
  destruct (formatUint 8 v) as [|d s] eqn:Ef; [contradiction|].
  rewrite Hval.
  assert (G : (v <? 2 ^ 32) = true) by (apply Z.ltb_lt; lia).
  rewrite G. reflexivity.
Qed.

End AsciiFacts.

Lemma asciiTextLaws : GoTextLaws asciiStrings asciiFmt.
Proof.
  constructor.
  - exact AsciiFacts.Fields_joinFields.
  - intros v. apply AsciiFacts.formatInt_plain. lia.
  - intros v. apply AsciiFacts.formatInt_plain. lia.
  - intros v Hv. apply AsciiFacts.ParseInt_formatInt; [lia | exact Hv].
  - intros v Hv. apply AsciiFacts.ParseInt_formatInt; [lia | exact Hv].
  - reflexivity.
  - exact AsciiFacts.ParseUint_formatInt.
  - intros v Hv. apply AsciiFacts.ParseInt_formatInt; [lia | exact Hv].
Qed.

Lemma marshal_parse_roundtrip_witness :
  let offer := FileOffer.mk [0x44; 0x49; 0x52; 0x5c; 0x41; 0x2e; 0x54; 0x58;
                             0x54]
                            1234 (Some 1700000000) 420
                            (mkFileReader [] 0 true) in
  int64 1234 /\ uint32 420
  /\ parseFileInfo (go := asciiStrings)
       (marshalFileInfo (fmt := asciiFmt) offer 3 0)
     = Ok (FileInfo.mk [0x64; 0x69; 0x72; 0x2f; 0x61; 0x2e; 0x74; 0x78; 0x74]
                       1234 (Some 1700000000) 420 3 0).
Proof.
  intros offer.
  assert (I1 : int64 1234) by (unfold int64; lia).
  assert (I2 : uint32 420) by (unfold uint32; lia).
  split; [exact I1|]. split; [exact I2|].
  rewrite (marshal_parse_roundtrip asciiTextLaws offer 3 0).
  - reflexivity.
  - cbv [FileOffer.Name offer ReplaceAll ToLower asciiFmt AsciiFmt.ToLower
         AsciiFmt.ReplaceAll map flat_map app].
    vm_compute. repeat (apply Forall_cons; [discriminate|]). apply Forall_nil.
  - exact I1.
  - intros t E. injection E as <-. unfold int64. lia.
  - exact I2.
  - unfold int64. lia.
  - unfold int64. lia.
Defined.
